(** * Bounding-box pixel splitting (pyFAI/ext/splitBBox.pyx)

    A shallow embedding of [histoBBox1d] and [histoBBox2d] and the
    properties of their range resolution, dummy filtering, overlap
    splitting, accumulation and normalisation.

    Number model.  The source computes on C [float] and [double].  Here
    every floating-point quantity is an exact rational ([Q]): rounding,
    infinities and NaN are not modelled, and equalities between computed
    quantities are stated up to [Qeq] ([==]).  Index variables
    ([ssize_t]) are [Z]; the casts [<ssize_t> x] truncate toward zero.
    Flattened numpy arrays are lists.

    Error model.  A call returns [Ok] with its result or [Raise] with the
    exception that ends it: failed assertions, failed argument
    conversions and, in [histoBBox2d], which is compiled with the default
    directives, index errors and divisions by zero.

    The file regrid_common.pxi, included by the source, is not part of it:
    [get_bin_number] is modelled from the spec, [calc_upper_bound] and
    [pi] are parameters. *)

From Stdlib Require Import String.
From Stdlib Require Import ZArith QArith Qabs Qminmax Qround.
From Stdlib Require Import List Bool Lia Lqa.
Import ListNotations.

Local Open Scope Q_scope.

(** ** Exceptions and the result monad *)

Inductive exn : Type :=
| AssertionError (msg : string)
| OverflowError
| AttributeError
| TypeError
| IndexError
| ZeroDivisionError
| UncheckedAccess.

Inductive result (A : Type) : Type :=
| Ok (a : A)
| Raise (e : exn).

Arguments Ok {A} a.
Arguments Raise {A} e.

Definition bind {A B : Type} (m : result A) (k : A -> result B) : result B :=
  match m with
  | Ok a => k a
  | Raise e => Raise e
  end.

Notation "x <- m ;; k" := (bind m (fun x => k))
  (at level 61, m at next level, right associativity).
Notation "m ;;; k" := (bind m (fun _ => k))
  (at level 61, right associativity).

(** [assert cond, msg] *)
Definition py_assert (cond : bool) (msg : string) : result unit :=
  if cond then Ok tt else Raise (AssertionError msg).

(** ** Numbers *)

Definition Qltb (x y : Q) : bool := negb (Qle_bool y x).

(** The cast [<ssize_t> x] of a double: truncation toward zero. *)
Definition trunc (x : Q) : Z := Z.quot (Qnum x) (Zpos (Qden x)).

(** [fabs] of the C math library. *)
Definition fabs (x : Q) : Q := Qabs x.

(** Modelled from the spec: [get_bin_number] is defined in
    regrid_common.pxi, which is included by the source but is not part of
    it.  The spec gives [fbin = (value - resolvedMin) / binWidth].  The
    result for a bin width of zero is not modelled ([x / 0] is [0] in
    [Q]). *)
Definition get_bin_number (x0 pos0_min delta : Q) : Q :=
  (x0 - pos0_min) / delta.

(** Python's [min] and [max] over a sequence that has at least one item. *)
Definition py_min (l : list Q) : Q :=
  match l with
  | [] => 0
  | x :: r => fold_left Qmin r x
  end.

Definition py_max (l : list Q) : Q :=
  match l with
  | [] => 0
  | x :: r => fold_left Qmax r x
  end.

(** ** Arrays *)

Definition getq (l : list Q) (i : nat) : Q := nth i l 0.
Definition getz (l : list Z) (i : nat) : Z := nth i l 0%Z.

Fixpoint set_nth (i : nat) (v : Q) (l : list Q) : list Q :=
  match l, i with
  | [], _ => []
  | _ :: r, O => v :: r
  | x :: r, S j => x :: set_nth j v r
  end.

Fixpoint add_nth (i : nat) (v : Q) (l : list Q) : list Q :=
  match l, i with
  | [], _ => []
  | x :: r, O => (x + v) :: r
  | x :: r, S j => x :: add_nth j v r
  end.

(** [a[i] += v] on a one-dimensional array compiled with
    [boundscheck(False)] and [wraparound(False)]: the source performs no
    check.  The embedding leaves the array unchanged outside its bounds;
    [Hist1dFacts.split1d_index_bounds] shows that the two bin indices of
    [histoBBox1d] always lie inside them. *)
Definition add_at (i : Z) (v : Q) (l : list Q) : list Q :=
  if (0 <=? i)%Z then add_nth (Z.to_nat i) v l else l.

Definition zeros (n : nat) : list Q := repeat 0 n.

(** The integers of [range(lo, hi)]. *)
Definition Zrange (lo hi : Z) : list Z :=
  map (fun k => (lo + Z.of_nat k)%Z) (seq 0 (Z.to_nat (hi - lo))).

Definition Qsum (l : list Q) : Q := fold_right Qplus 0 l.

(** [numpy.linspace(start, stop, num)] *)
Definition linspace (start stop : Q) (num : Z) : list Q :=
  if (num =? 1)%Z then [start]
  else map (fun i => start + inject_Z i * ((stop - start) / inject_Z (num - 1)))
           (Zrange 0 num).

(** Two-dimensional arrays, row-major: [m[i][j]] is [nth j (nth i m [])]. *)
Definition matrix : Type := list (list Q).

Definition mzeros (n0 n1 : nat) : matrix := repeat (zeros n1) n0.

Definition mget (m : matrix) (i j : nat) : Q := getq (nth i m []) j.

Definition Msum (m : matrix) : Q := Qsum (map Qsum m).

(** [numpy.asarray(m).T] *)
Fixpoint transpose_cols (ncols : nat) (m : matrix) : matrix :=
  match ncols with
  | O => []
  | S k => transpose_cols k m ++ [map (fun row => getq row k) m]
  end.

(** [epsilon = 1e-10] *)
Definition epsilon : Q := 1 # 10000000000.

(** An optional per-pixel array: [None], or an array whose size is asserted
    to be [size].  Returns the [do_...] flag and the flattened array. *)
Definition optional_array (o : option (list Q)) (size : nat) (msg : string)
  : result (bool * list Q) :=
  match o with
  | None => Ok (false, [])
  | Some arr => py_assert (length arr =? size)%nat msg ;;; Ok (true, arr)
  end.

(** [if mask is not None: assert mask.size == size; check_mask = True] *)
Definition optional_mask (o : option (list Z)) (size : nat)
  : result (bool * list Z) :=
  match o with
  | None => Ok (false, [])
  | Some arr => py_assert (length arr =? size)%nat "mask size" ;;; Ok (true, arr)
  end.

(** [pos0Range is not None and len(pos0Range) > 1] *)
Definition range_given (r : option (list Q)) : bool :=
  match r with
  | Some l => (1 <? length l)%nat
  | None => false
  end.

Definition range_list (r : option (list Q)) : list Q :=
  match r with
  | Some l => l
  | None => []
  end.

(** * histoBBox1d *)

Module Hist1d.

(** The arguments of [histoBBox1d] (lines 50-66), arrays already
    flattened. *)
Record args : Type := {
  weights : list Q;
  pos0 : list Q;
  delta_pos0 : list Q;
  pos1 : option (list Q);
  delta_pos1 : option (list Q);
  bins : Z;
  pos0Range : option (list Q);
  pos1Range : option (list Q);
  dummy : option Q;
  delta_dummy : option Q;
  mask : option (list Z);
  dark : option (list Q);
  flat : option (list Q);
  solidangle : option (list Q);
  polarization : option (list Q);
  empty : option Q;
  normalization_factor : Q
}.

(** The [cdef] variables that the two loops read (lines 97-188). *)
Record locals : Type := {
  size : nat;
  nbins : Z;
  cdata : list Q;
  cpos0 : list Q;
  dpos0 : list Q;
  check_mask : bool;
  cmask : list Z;
  check_dummy : bool;
  cdummy : Q;
  ddummy : Q;
  do_dark : bool;
  cdark : list Q;
  do_flat : bool;
  cflat : list Q;
  do_polarization : bool;
  cpolarization : list Q;
  do_solidangle : bool;
  csolidangle : list Q;
  cpos0_lower : list Q;
  cpos0_upper : list Q;
  check_pos1 : bool;
  cpos1 : list Q;
  dpos1 : list Q;
  pos1_min : Q;
  pos1_max : Q;
  pos0_min : Q;
  pos0_maxin : Q;
  pos0_max : Q;
  delta : Q
}.

(** Lines 123-134: the dummy configuration
    [(check_dummy, cdummy, ddummy)]. *)
Definition dummy_config (dummy delta_dummy empty : option Q) : bool * Q * Q :=
  match dummy, delta_dummy with
  | Some d, Some dd => (true, d, dd)
  | Some d, None => (true, d, 0)
  | None, _ =>
      (false,
       match empty with
       | Some e => if Qeq_bool e 0 then 0 else e   (* empty or 0.0 *)
       | None => 0
       end,
       0)
  end.

(** [(check_mask) and (cmask[idx])] *)
Definition masked (check_mask : bool) (cmask : list Z) (idx : nat) : bool :=
  check_mask && negb (getz cmask idx =? 0)%Z.

(** The state of the scanning loop: [pos0_min], [pos0_max] and the two
    arrays [cpos0_lower], [cpos0_upper]. *)
Record scan_state : Type := {
  s_min : Q;
  s_max : Q;
  s_lower : list Q;
  s_upper : list Q
}.

(** Lines 158-167: the body of the scanning loop. *)
Definition scan_step (check_mask : bool) (cmask : list Z) (cpos0 dpos0 : list Q)
    (s : scan_state) (idx : nat) : scan_state :=
  if masked check_mask cmask idx then s
  else
    let min0 := getq cpos0 idx - getq dpos0 idx in
    let max0 := getq cpos0 idx + getq dpos0 idx in
    {| s_upper := set_nth idx max0 (s_upper s);
       s_lower := set_nth idx min0 (s_lower s);
       s_max := if Qltb (s_max s) max0 then max0 else s_max s;
       s_min := if Qltb min0 (s_min s) then min0 else s_min s |}.

(** Lines 152-167. *)
Definition scan (check_mask : bool) (cmask : list Z) (cpos0 dpos0 : list Q)
    (size : nat) : scan_state :=
  fold_left (scan_step check_mask cmask cpos0 dpos0) (seq 0 size)
    {| s_min := getq cpos0 0; s_max := getq cpos0 0;
       s_lower := zeros size; s_upper := zeros size |}.

(** Lines 169-175: the resolved [(pos0_min, pos0_maxin)] from the scanned
    pair and the optional user range. *)
Definition resolve_range0 (scanned_min scanned_max : Q)
    (pos0Range : option (list Q)) : Q * Q :=
  let '(pmin, pmaxin) :=
    if range_given pos0Range
    then (py_min (range_list pos0Range), py_max (range_list pos0Range))
    else (scanned_min, scanned_max) in
  let pmin := if Qltb pmin 0 then 0 else pmin in
  (pmin, pmaxin).

(** Lines 218-225: dark, flat, polarization and solid-angle corrections. *)
Definition corrected (L : locals) (idx : nat) (data : Q) : Q :=
  let data := if do_dark L then data - getq (cdark L) idx else data in
  let data := if do_flat L then data / getq (cflat L) idx else data in
  let data := if do_polarization L then data / getq (cpolarization L) idx else data in
  let data := if do_solidangle L then data / getq (csolidangle L) idx else data in
  data.

(** Lines 209-216: the two bin indices of a footprint that is not
    entirely outside [[0, bins)]. *)
Definition clamp_bin0_max (bins : Z) (fbin0_max : Q) : Z :=
  if Qle_bool (inject_Z bins) fbin0_max then (bins - 1)%Z else trunc fbin0_max.

Definition clamp_bin0_min (fbin0_min : Q) : Z :=
  if Qltb fbin0_min 0 then 0%Z else trunc fbin0_min.

(** Lines 227-248: accumulation of one pixel into [(outData, outCount)]. *)
Definition accumulate (bin0_min bin0_max : Z) (fbin0_min fbin0_max data : Q)
    (out : list Q * list Q) : list Q * list Q :=
  let '(outData, outCount) := out in
  if (bin0_min =? bin0_max)%Z then
    (add_at bin0_min data outData, add_at bin0_min 1 outCount)
  else
    let deltaA := 1 / (fbin0_max - fbin0_min) in
    let deltaL := inject_Z (bin0_min + 1) - fbin0_min in
    let deltaR := fbin0_max - inject_Z bin0_max in
    let outCount := add_at bin0_min (deltaA * deltaL) outCount in
    let outData := add_at bin0_min (data * deltaA * deltaL) outData in
    let outCount := add_at bin0_max (deltaA * deltaR) outCount in
    let outData := add_at bin0_max (data * deltaA * deltaR) outData in
    if (bin0_min + 1 <? bin0_max)%Z then
      fold_left
        (fun o idx => (add_at idx (data * deltaA) (fst o), add_at idx deltaA (snd o)))
        (Zrange (bin0_min + 1) bin0_max)
        (outData, outCount)
    else (outData, outCount).

(** Line 196: [check_dummy and (fabs(data - cdummy) <= ddummy)] *)
Definition is_dummy (L : locals) (data : Q) : bool :=
  check_dummy L && Qle_bool (fabs (data - cdummy L)) (ddummy L).

(** Line 202: the pixel lies outside the axis-1 range. *)
Definition outside_pos1 (L : locals) (idx : nat) : bool :=
  check_pos1 L &&
  (Qltb (getq (cpos1 L) idx + getq (dpos1 L) idx) (pos1_min L)
   || Qltb (pos1_max L) (getq (cpos1 L) idx - getq (dpos1 L) idx)).

(** Line 207: the footprint lies entirely outside the bins. *)
Definition outside_bins (bins : Z) (fbin0_min fbin0_max : Q) : bool :=
  Qltb fbin0_max 0 || Qle_bool (inject_Z bins) fbin0_min.

(** Lines 192-248: the body of the accumulation loop. *)
Definition pixel (L : locals) (out : list Q * list Q) (idx : nat)
  : list Q * list Q :=
  if masked (check_mask L) (cmask L) idx then out
  else
    let data := getq (cdata L) idx in
    if is_dummy L data then out
    else
      let min0 := getq (cpos0_lower L) idx in
      let max0 := getq (cpos0_upper L) idx in
      if outside_pos1 L idx then out
      else
        let fbin0_min := get_bin_number min0 (pos0_min L) (delta L) in
        let fbin0_max := get_bin_number max0 (pos0_min L) (delta L) in
        if outside_bins (nbins L) fbin0_min fbin0_max then out
        else
          let bin0_max := clamp_bin0_max (nbins L) fbin0_max in
          let bin0_min := clamp_bin0_min fbin0_min in
          let data := corrected L idx data in
          accumulate bin0_min bin0_max fbin0_min fbin0_max data out.

(** Lines 190-248. *)
Definition accumulate_all (L : locals) : list Q * list Q :=
  fold_left (pixel L) (seq 0 (size L))
    (zeros (Z.to_nat (nbins L)), zeros (Z.to_nat (nbins L))).

(** Lines 250-254: the merged value of one bin. *)
Definition merge_bin (cdummy normalization_factor : Q) (sum count : Q) : Q :=
  if Qltb epsilon count then sum / count / normalization_factor else cdummy.

Definition merge (cdummy normalization_factor : Q) (outData outCount : list Q)
    (bins : Z) : list Q :=
  map (fun idx => merge_bin cdummy normalization_factor
                    (getq outData idx) (getq outCount idx))
      (seq 0 (Z.to_nat bins)).

Section WithUpperBound.

(** [calc_upper_bound] is defined in regrid_common.pxi, which is not part
    of the source: it is a parameter of the embedding. *)
Variable calc_upper_bound : Q -> Q.

(** Lines 93-188: argument checks and resolution of the local variables. *)
Definition setup (a : args) : result locals :=
  if (bins a <? 0)%Z then Raise OverflowError      (* size_t bins *)
  else
    let size := length (weights a) in
    py_assert (length (pos0 a) =? size)%nat "pos0.size == size" ;;;
    py_assert (length (delta_pos0 a) =? size)%nat "delta_pos0.size == size" ;;;
    py_assert (1 <? bins a)%Z "at lease one bin" ;;;
    m <- optional_mask (mask a) size ;;
    let '(check_dummy, cdummy, ddummy) :=
      dummy_config (dummy a) (delta_dummy a) (empty a) in
    dk <- optional_array (dark a) size "dark current array size" ;;
    fl <- optional_array (flat a) size "flat-field array size" ;;
    po <- optional_array (polarization a) size "polarization array size" ;;
    sa <- optional_array (solidangle a) size "Solid angle array size" ;;
    (* cpos0[0] is read without a bounds check *)
    if (size =? 0)%nat then Raise UncheckedAccess
    else
      let s := scan (fst m) (snd m) (pos0 a) (delta_pos0 a) size in
      let '(pos0_min, pos0_maxin) :=
        resolve_range0 (s_min s) (s_max s) (pos0Range a) in
      let pos0_max := calc_upper_bound pos0_maxin in
      p1 <- (if range_given (pos1Range a) then
               match pos1 a, delta_pos1 a with
               | Some p, Some d =>
                   py_assert (length p =? size)%nat "pos1.size == size" ;;;
                   py_assert (length d =? size)%nat "delta_pos1.size == size" ;;;
                   Ok (true, p, d,
                       py_min (range_list (pos1Range a)),
                       calc_upper_bound (py_max (range_list (pos1Range a))))
               | Some p, None =>
                   py_assert (length p =? size)%nat "pos1.size == size" ;;;
                   Raise AttributeError
               | None, _ => Raise AttributeError
               end
             else Ok (false, [], [], 0, 0)) ;;
      let '(check_pos1, cpos1, dpos1, pos1_min, pos1_max) := p1 in
      Ok {| size := size; nbins := bins a;
            cdata := weights a; cpos0 := pos0 a; dpos0 := delta_pos0 a;
            check_mask := fst m; cmask := snd m;
            check_dummy := check_dummy; cdummy := cdummy; ddummy := ddummy;
            do_dark := fst dk; cdark := snd dk;
            do_flat := fst fl; cflat := snd fl;
            do_polarization := fst po; cpolarization := snd po;
            do_solidangle := fst sa; csolidangle := snd sa;
            cpos0_lower := s_lower s; cpos0_upper := s_upper s;
            check_pos1 := check_pos1; cpos1 := cpos1; dpos1 := dpos1;
            pos1_min := pos1_min; pos1_max := pos1_max;
            pos0_min := pos0_min; pos0_maxin := pos0_maxin;
            pos0_max := pos0_max;
            delta := (pos0_max - pos0_min) / inject_Z (bins a) |}.

(** The value returned by [histoBBox1d]:
    [(edges, outMerge, outData, outCount)]. *)
Record output : Type := {
  edges : list Q;
  outMerge : list Q;
  outData : list Q;
  outCount : list Q
}.

Definition histoBBox1d (a : args) : result output :=
  L <- setup a ;;
  let '(oData, oCount) := accumulate_all L in
  Ok {| edges := linspace (pos0_min L + (1 # 2) * delta L)
                          (pos0_maxin L - (1 # 2) * delta L) (nbins L);
        outMerge := merge (cdummy L) (normalization_factor a) oData oCount (nbins L);
        outData := oData;
        outCount := oCount |}.

End WithUpperBound.

(** ** Notions used to state the properties of [histoBBox1d] *)

(** A property of a count that adding a non-negative amount keeps. *)
Definition upward (ok : Q -> Prop) : Prop :=
  forall x c, 0 <= c -> ok x -> ok (x + c).

(** The invariant of the accumulators: both have [n] bins, every count
    satisfies [ok] and the counts sum to [s]. *)
Definition acc_inv (ok : Q -> Prop) (n : nat) (s : Q) (out : list Q * list Q)
  : Prop :=
  length (fst out) = n /\ length (snd out) = n /\
  Forall ok (snd out) /\ Qsum (snd out) == s.

(** What the scanning loop leaves at index [idx] of the two arrays. *)
Definition bounds_at (cpos0 dpos0 : list Q) (idx : nat) (s : scan_state) : Prop :=
  getq (s_lower s) idx = getq cpos0 idx - getq dpos0 idx /\
  getq (s_upper s) idx = getq cpos0 idx + getq dpos0 idx.

(** Lines 205-206: the fractional bin coordinates of the footprint of
    pixel [idx]. *)
Definition fbin0_min_of (L : locals) (idx : nat) : Q :=
  get_bin_number (getq (cpos0_lower L) idx) (pos0_min L) (delta L).

Definition fbin0_max_of (L : locals) (idx : nat) : Q :=
  get_bin_number (getq (cpos0_upper L) idx) (pos0_min L) (delta L).

(** The pixel is deposited by the accumulation loop: it passes the mask,
    dummy, axis-1 and out-of-bins tests (lines 192-208). *)
Definition deposited (L : locals) (idx : nat) : bool :=
  negb (masked (check_mask L) (cmask L) idx)
  && negb (is_dummy L (getq (cdata L) idx))
  && negb (outside_pos1 L idx)
  && negb (outside_bins (nbins L) (fbin0_min_of L idx) (fbin0_max_of L idx)).

(** The denominators of the divisions that [accumulate] evaluates (line
    234): none in the single-bin branch. *)
Definition denominators (bin0_min bin0_max : Z) (fbin0_min fbin0_max : Q)
  : list Q :=
  if (bin0_min =? bin0_max)%Z then [] else [fbin0_max - fbin0_min].

(** The footprint of pixel [idx] lies fully inside the active range
    [[pos0_min, pos0_maxin]]. *)
Definition inside_range (L : locals) (idx : nat) : Prop :=
  pos0_min L <= getq (cpos0_lower L) idx /\
  getq (cpos0_lower L) idx <= getq (cpos0_upper L) idx /\
  getq (cpos0_upper L) idx <= pos0_maxin L.

(** The bins have a positive width and the user-visible maximum lies
    strictly inside the last one. *)
Definition bins_cover (L : locals) : Prop :=
  (0 < nbins L)%Z /\ 0 < delta L /\
  pos0_maxin L < pos0_min L + inject_Z (nbins L) * delta L.

(** Following the words of the spec: the part of the footprint [[lo, hi]]
    that overlaps the active range [[rmin, rmax]], as a fraction of the
    footprint: 1 if fully inside, less if clipped, 0 if fully outside. *)
Definition overlap_fraction (lo hi rmin rmax : Q) : Q :=
  if Qle_bool hi lo then
    if Qle_bool rmin lo && Qle_bool lo rmax then 1 else 0
  else
    let l := Qmax lo rmin in
    let h := Qmin hi rmax in
    if Qltb l h then (h - l) / (hi - lo) else 0.

(** Following the words of the spec: the sum, over all valid (unmasked,
    non-dummy) pixels, of the overlap of the footprint with the active
    range, whose upper end is [rmax]. *)
Definition spec_total_overlap (L : locals) (rmax : Q) : Q :=
  Qsum (map (fun idx =>
               if masked (check_mask L) (cmask L) idx
                  || is_dummy L (getq (cdata L) idx)
               then 0
               else overlap_fraction
                      (getq (cpos0 L) idx - getq (dpos0 L) idx)
                      (getq (cpos0 L) idx + getq (dpos0 L) idx)
                      (pos0_min L) rmax)
            (seq 0 (size L))).

(** The number of deposited pixels among the indices of [l]. *)
Definition count_deposited (L : locals) (l : list nat) : Z :=
  Z.of_nat (length (filter (deposited L) l)).

End Hist1d.

(** * histoBBox2d *)

(** The decorators [cdivision(True)], [boundscheck(False)] and
    [wraparound(False)] are commented out above [histoBBox2d] (lines
    261-263), so the language defaults apply in its body: a division by
    zero raises [ZeroDivisionError], a negative index counts from the end
    and an index out of bounds raises [IndexError]. *)

Definition qdiv (x y : Q) : result Q :=
  if Qeq_bool y 0 then Raise ZeroDivisionError else Ok (x / y).

Definition py_index (n : nat) (i : Z) : result nat :=
  let k := if (i <? 0)%Z then (i + Z.of_nat n)%Z else i in
  if ((0 <=? k) && (k <? Z.of_nat n))%Z then Ok (Z.to_nat k)
  else Raise IndexError.

Fixpoint update_row (i : nat) (f : list Q -> list Q) (m : matrix) : matrix :=
  match m, i with
  | [], _ => []
  | r :: rest, O => f r :: rest
  | r :: rest, S k => r :: update_row k f rest
  end.

(** [m[i, j] += v] *)
Definition madd (i j : Z) (v : Q) (m : matrix) : result matrix :=
  r <- py_index (length m) i ;;
  c <- py_index (length (nth r m [])) j ;;
  Ok (update_row r (add_nth c v) m).

(** A loop whose body may raise. *)
Fixpoint foldM {A B : Type} (f : A -> B -> result A) (l : list B) (a : A)
  : result A :=
  match l with
  | [] => Ok a
  | x :: r => a' <- f a x ;; foldM f r a'
  end.

Module Hist2d.

(** [bins]: a pair, or a single count used for both axes (lines
    318-321). *)
Inductive bins_arg : Type :=
| BinsPair (bins0 bins1 : Z)
| BinsScalar (b : Z).

(** The arguments of [histoBBox2d] (lines 264-282). *)
Record args : Type := {
  weights : list Q;
  pos0 : list Q;
  delta_pos0 : list Q;
  pos1 : list Q;
  delta_pos1 : list Q;
  bins : bins_arg;
  pos0Range : option (list Q);
  pos1Range : option (list Q);
  dummy : option Q;
  delta_dummy : option Q;
  mask : option (list Z);
  dark : option (list Q);
  flat : option (list Q);
  solidangle : option (list Q);
  polarization : option (list Q);
  allow_pos0_neg : bool;
  chiDiscAtPi : bool;
  empty : option Q;
  normalization_factor : Q
}.

Record locals : Type := {
  size : nat;
  bins0 : Z;
  bins1 : Z;
  cdata : list Q;
  cpos0 : list Q;
  dpos0 : list Q;
  cpos1 : list Q;
  dpos1 : list Q;
  check_mask : bool;
  cmask : list Z;
  check_dummy : bool;
  cdummy : Q;
  ddummy : Q;
  do_dark : bool;
  cdark : list Q;
  do_flat : bool;
  cflat : list Q;
  do_polarization : bool;
  cpolarization : list Q;
  do_solidangle : bool;
  csolidangle : list Q;
  cpos0_lower : list Q;
  cpos0_upper : list Q;
  cpos1_lower : list Q;
  cpos1_upper : list Q;
  pos0_min : Q;
  pos0_maxin : Q;
  pos0_max : Q;
  pos1_min : Q;
  pos1_maxin : Q;
  pos1_max : Q;
  delta0 : Q;
  delta1 : Q
}.

(** Lines 318-325. *)
Definition unpack_bins (b : bins_arg) : Z * Z :=
  match b with
  | BinsPair b0 b1 => (b0, b1)
  | BinsScalar b => (b, b)
  end.

Definition clamp_bins (b : Z) : Z := if (b <=? 0)%Z then 1%Z else b.

(** Lines 360-367: [(check_dummy, cdummy, ddummy)].  In the second branch
    [check_dummy] keeps its initial value [False] and [ddummy] is not
    assigned; it is not read when [check_dummy] is false. *)
Definition dummy_config (dummy delta_dummy empty : option Q)
  : result (bool * Q * Q) :=
  match dummy, delta_dummy with
  | Some d, Some dd => Ok (true, d, dd)
  | Some d, None => Ok (false, d, 0)
  | None, _ =>
      match empty with
      | Some e => Ok (false, e, 0)
      | None => Raise TypeError          (* float(None) *)
      end
  end.

Definition masked (check_mask : bool) (cmask : list Z) (idx : nat) : bool :=
  check_mask && negb (getz cmask idx =? 0)%Z.

Record scan_state : Type := {
  s_min0 : Q;
  s_max0 : Q;
  s_min1 : Q;
  s_max1 : Q;
  s_lower0 : list Q;
  s_upper0 : list Q;
  s_lower1 : list Q;
  s_upper1 : list Q
}.

(** [chiDiscAtPi] as the integer it is in [(2 - chiDiscAtPi) * pi]. *)
Definition b2q (b : bool) : Q := if b then 1 else 0.

Section WithPi.

(** The constant [pi] comes from regrid_common.pxi, which is not part of
    the source: it is a parameter of the embedding. *)
Variable pi : Q.

(** Lines 393-420: the body of the scanning loop.  Lines 403-404 test and
    assign [lower0], a name that nothing else reads or writes: they change
    none of the variables below. *)
Definition scan_step (check_mask : bool) (cmask : list Z)
    (cpos0 dpos0 cpos1 dpos1 : list Q) (chiDiscAtPi : bool)
    (s : scan_state) (idx : nat) : scan_state :=
  if masked check_mask cmask idx then s
  else
    let c0 := getq cpos0 idx in
    let d0 := getq dpos0 idx in
    let min0 := c0 - d0 in
    let max0 := c0 + d0 in
    let c1 := getq cpos1 idx in
    let d1 := getq dpos1 idx in
    let min1 := c1 - d1 in
    let max1 := c1 + d1 in
    let max1 := if Qltb ((2 - b2q chiDiscAtPi) * pi) max1
                then (2 - b2q chiDiscAtPi) * pi else max1 in
    let min1 := if Qltb min1 ((- b2q chiDiscAtPi) * pi)
                then (- b2q chiDiscAtPi) * pi else min1 in
    {| s_upper0 := set_nth idx max0 (s_upper0 s);
       s_lower0 := set_nth idx min0 (s_lower0 s);
       s_upper1 := set_nth idx max1 (s_upper1 s);
       s_lower1 := set_nth idx min1 (s_lower1 s);
       s_max0 := if Qltb (s_max0 s) max0 then max0 else s_max0 s;
       s_min0 := if Qltb min0 (s_min0 s) then min0 else s_min0 s;
       s_max1 := if Qltb (s_max1 s) max1 then max1 else s_max1 s;
       s_min1 := if Qltb min1 (s_min1 s) then min1 else s_min1 s |}.

(** Lines 386-420.  The four arrays are allocated with [numpy.empty]; an
    entry is read only after the loop has written it. *)
Definition scan (check_mask : bool) (cmask : list Z)
    (cpos0 dpos0 cpos1 dpos1 : list Q) (chiDiscAtPi : bool) (size : nat)
  : scan_state :=
  fold_left (scan_step check_mask cmask cpos0 dpos0 cpos1 dpos1 chiDiscAtPi)
    (seq 0 size)
    {| s_min0 := getq cpos0 0; s_max0 := getq cpos0 0;
       s_min1 := getq cpos1 0; s_max1 := getq cpos1 0;
       s_lower0 := zeros size; s_upper0 := zeros size;
       s_lower1 := zeros size; s_upper1 := zeros size |}.

End WithPi.

(** Lines 422-435: the resolved [(pos0_min, pos0_maxin)]. *)
Definition resolve_range0 (scanned_min scanned_max : Q)
    (pos0Range : option (list Q)) (allow_pos0_neg : bool) : Q * Q :=
  let '(pmin, pmaxin) :=
    if range_given pos0Range
    then (py_min (range_list pos0Range), py_max (range_list pos0Range))
    else (scanned_min, scanned_max) in
  let pmin := if negb allow_pos0_neg && Qltb pmin 0 then 0 else pmin in
  (pmin, pmaxin).

(** Lines 428-432: the resolved [(pos1_min, pos1_maxin)]. *)
Definition resolve_range1 (scanned_min scanned_max : Q)
    (pos1Range : option (list Q)) : Q * Q :=
  if range_given pos1Range
  then (py_min (range_list pos1Range), py_max (range_list pos1Range))
  else (scanned_min, scanned_max).

(** Lines 452-459, with checked divisions. *)
Definition corrected (L : locals) (idx : nat) (data : Q) : result Q :=
  let data := if do_dark L then data - getq (cdark L) idx else data in
  data <- (if do_flat L then qdiv data (getq (cflat L) idx) else Ok data) ;;
  data <- (if do_polarization L then qdiv data (getq (cpolarization L) idx)
           else Ok data) ;;
  if do_solidangle L then qdiv data (getq (csolidangle L) idx) else Ok data.

(** [outCount[i, j] += fraction; outData[i, j] += data * fraction] *)
Definition deposit (i j : Z) (fraction weighted : Q) (out : matrix * matrix)
  : result (matrix * matrix) :=
  let '(outData, outCount) := out in
  outCount <- madd i j fraction outCount ;;
  outData <- madd i j weighted outData ;;
  Ok (outData, outCount).

(** Lines 488-560: accumulation of one pixel into [(outData, outCount)]. *)
Definition accumulate (bin0_min bin0_max bin1_min bin1_max : Z)
    (fbin0_min fbin0_max fbin1_min fbin1_max data : Q)
    (out : matrix * matrix) : result (matrix * matrix) :=
  if (bin0_min =? bin0_max)%Z then
    if (bin1_min =? bin1_max)%Z then
      deposit bin0_min bin1_min 1 data out
    else
      let deltaD := inject_Z (bin1_min + 1) - fbin1_min in
      let deltaU := fbin1_max - inject_Z bin1_max in
      let area_pixel := fbin1_max - fbin1_min in
      one_over_area <- qdiv 1 area_pixel ;;
      out <- deposit bin0_min bin1_min
               (one_over_area * deltaD) (data * one_over_area * deltaD) out ;;
      out <- deposit bin0_min bin1_max
               (one_over_area * deltaU) (data * one_over_area * deltaU) out ;;
      foldM (fun o j => deposit bin0_min j one_over_area (data * one_over_area) o)
            (Zrange (bin1_min + 1) bin1_max) out
  else
    if (bin1_min =? bin1_max)%Z then
      let area_pixel := fbin0_max - fbin0_min in
      one_over_area <- qdiv 1 area_pixel ;;
      let deltaL := inject_Z (bin0_min + 1) - fbin0_min in
      out <- deposit bin0_min bin1_min
               (one_over_area * deltaL) (data * one_over_area * deltaL) out ;;
      let deltaR := fbin0_max - inject_Z bin0_max in
      out <- deposit bin0_max bin1_min
               (one_over_area * deltaR) (data * one_over_area * deltaR) out ;;
      foldM (fun o i => deposit i bin1_min one_over_area (data * one_over_area) o)
            (Zrange (bin0_min + 1) bin0_max) out
    else
      let area_pixel := (fbin0_max - fbin0_min) * (fbin1_max - fbin1_min) in
      one_over_area <- qdiv 1 area_pixel ;;
      let deltaL := inject_Z (bin0_min + 1) - fbin0_min in
      let deltaR := fbin0_max - inject_Z bin0_max in
      let deltaD := inject_Z (bin1_min + 1) - fbin1_min in
      let deltaU := fbin1_max - inject_Z bin1_max in
      out <- deposit bin0_min bin1_min (one_over_area * deltaL * deltaD)
               (data * one_over_area * deltaL * deltaD) out ;;
      out <- deposit bin0_min bin1_max (one_over_area * deltaL * deltaU)
               (data * one_over_area * deltaL * deltaU) out ;;
      out <- deposit bin0_max bin1_min (one_over_area * deltaR * deltaD)
               (data * one_over_area * deltaR * deltaD) out ;;
      out <- deposit bin0_max bin1_max (one_over_area * deltaR * deltaU)
               (data * one_over_area * deltaR * deltaU) out ;;
      out <- foldM
               (fun o i =>
                  o <- deposit i bin1_min (one_over_area * deltaD)
                         (data * one_over_area * deltaD) o ;;
                  o <- foldM (fun o j => deposit i j one_over_area
                                           (data * one_over_area) o)
                         (Zrange (bin1_min + 1) bin1_max) o ;;
                  deposit i bin1_max (one_over_area * deltaU)
                    (data * one_over_area * deltaU) o)
               (Zrange (bin0_min + 1) bin0_max) out ;;
      foldM
        (fun o j =>
           o <- deposit bin0_min j (one_over_area * deltaL)
                  (data * one_over_area * deltaL) o ;;
           deposit bin0_max j (one_over_area * deltaR)
             (data * one_over_area * deltaR) o)
        (Zrange (bin1_min + 1) bin1_max) out.

(** Line 449. *)
Definition is_dummy (L : locals) (data : Q) : bool :=
  check_dummy L && Qle_bool (fabs (data - cdummy L)) (ddummy L).

(** Line 466: no overlap with the active range on one of the axes. *)
Definition outside_range (L : locals) (min0 max0 min1 max1 : Q) : bool :=
  Qltb max0 (pos0_min L) || Qltb max1 (pos1_min L)
  || Qltb (pos0_maxin L) min0 || Qltb (pos1_maxin L) min1.

(** Lines 469-476. *)
Definition clip_lower (v lo : Q) : Q := if Qltb v lo then lo else v.
Definition clip_upper (v hi : Q) : Q := if Qltb hi v then hi else v.

(** Lines 445-560: the body of the accumulation loop. *)
Definition pixel (L : locals) (out : matrix * matrix) (idx : nat)
  : result (matrix * matrix) :=
  if masked (check_mask L) (cmask L) idx then Ok out
  else
    let data := getq (cdata L) idx in
    if is_dummy L data then Ok out
    else
      data <- corrected L idx data ;;
      let min0 := getq (cpos0_lower L) idx in
      let max0 := getq (cpos0_upper L) idx in
      let min1 := getq (cpos1 L) idx - getq (dpos1 L) idx in
      let max1 := getq (cpos1 L) idx + getq (dpos1 L) idx in
      if outside_range L min0 max0 min1 max1 then Ok out
      else
        let min0 := clip_lower min0 (pos0_min L) in
        let min1 := clip_lower min1 (pos1_min L) in
        let max0 := clip_upper max0 (pos0_maxin L) in
        let max1 := clip_upper max1 (pos1_maxin L) in
        let fbin0_min := get_bin_number min0 (pos0_min L) (delta0 L) in
        let fbin0_max := get_bin_number max0 (pos0_min L) (delta0 L) in
        let fbin1_min := get_bin_number min1 (pos1_min L) (delta1 L) in
        let fbin1_max := get_bin_number max1 (pos1_min L) (delta1 L) in
        let bin0_min := trunc fbin0_min in
        let bin0_max := trunc fbin0_max in
        let bin1_min := trunc fbin1_min in
        let bin1_max := trunc fbin1_max in
        accumulate bin0_min bin0_max bin1_min bin1_max
          fbin0_min fbin0_max fbin1_min fbin1_max data out.

(** Lines 443-560. *)
Definition accumulate_all (L : locals) : result (matrix * matrix) :=
  foldM (pixel L) (seq 0 (size L))
    (mzeros (Z.to_nat (bins0 L)) (Z.to_nat (bins1 L)),
     mzeros (Z.to_nat (bins0 L)) (Z.to_nat (bins1 L))).

(** Lines 564-567: the merged value of one bin. *)
Definition merge_bin (cdummy normalization_factor : Q) (sum count : Q)
  : result Q :=
  if Qltb epsilon count then
    q <- qdiv sum count ;; qdiv q normalization_factor
  else Ok cdummy.

(** [mapM] over a list. *)
Fixpoint mapM {A B : Type} (f : A -> result B) (l : list A) : result (list B) :=
  match l with
  | [] => Ok []
  | x :: r => y <- f x ;; ys <- mapM f r ;; Ok (y :: ys)
  end.

(** Lines 562-567. *)
Definition merge (cdummy normalization_factor : Q) (outData outCount : matrix)
    (bins0 bins1 : Z) : result matrix :=
  mapM (fun i =>
          mapM (fun j => merge_bin cdummy normalization_factor
                           (mget outData i j) (mget outCount i j))
               (seq 0 (Z.to_nat bins1)))
       (seq 0 (Z.to_nat bins0)).

Section WithConstants.

(** [calc_upper_bound] and [pi] come from regrid_common.pxi, which is not
    part of the source: both are parameters of the embedding. *)
Variable calc_upper_bound : Q -> Q.
Variable pi : Q.

(** Lines 312-441: argument checks and resolution of the local
    variables. *)
Definition setup (a : args) : result locals :=
  let size := length (weights a) in
  py_assert (length (pos0 a) =? size)%nat "pos0.size == size" ;;;
  py_assert (length (pos1 a) =? size)%nat "pos1.size == size" ;;;
  py_assert (length (delta_pos0 a) =? size)%nat "delta_pos0.size == size" ;;;
  py_assert (length (delta_pos1 a) =? size)%nat "delta_pos1.size == size" ;;;
  let bins0 := clamp_bins (fst (unpack_bins (bins a))) in
  let bins1 := clamp_bins (snd (unpack_bins (bins a))) in
  m <- optional_mask (mask a) size ;;
  dc <- dummy_config (dummy a) (delta_dummy a) (empty a) ;;
  let '(check_dummy, cdummy, ddummy) := dc in
  dk <- optional_array (dark a) size "dark current array size" ;;
  fl <- optional_array (flat a) size "flat-field array size" ;;
  po <- optional_array (polarization a) size "polarization array size" ;;
  sa <- optional_array (solidangle a) size "Solid angle array size" ;;
  (* cpos0[0] on an empty array *)
  if (size =? 0)%nat then Raise IndexError
  else
    let s := scan pi (fst m) (snd m) (pos0 a) (delta_pos0 a)
               (pos1 a) (delta_pos1 a) (chiDiscAtPi a) size in
    let r0 := resolve_range0 (s_min0 s) (s_max0 s) (pos0Range a)
                (allow_pos0_neg a) in
    let r1 := resolve_range1 (s_min1 s) (s_max1 s) (pos1Range a) in
    let pos0_max := calc_upper_bound (snd r0) in
    let pos1_max := calc_upper_bound (snd r1) in
    Ok {| size := size; bins0 := bins0; bins1 := bins1;
          cdata := weights a;
          cpos0 := pos0 a; dpos0 := delta_pos0 a;
          cpos1 := pos1 a; dpos1 := delta_pos1 a;
          check_mask := fst m; cmask := snd m;
          check_dummy := check_dummy; cdummy := cdummy; ddummy := ddummy;
          do_dark := fst dk; cdark := snd dk;
          do_flat := fst fl; cflat := snd fl;
          do_polarization := fst po; cpolarization := snd po;
          do_solidangle := fst sa; csolidangle := snd sa;
          cpos0_lower := s_lower0 s; cpos0_upper := s_upper0 s;
          cpos1_lower := s_lower1 s; cpos1_upper := s_upper1 s;
          pos0_min := fst r0; pos0_maxin := snd r0; pos0_max := pos0_max;
          pos1_min := fst r1; pos1_maxin := snd r1; pos1_max := pos1_max;
          delta0 := (pos0_max - fst r0) / inject_Z bins0;
          delta1 := (pos1_max - fst r1) / inject_Z bins1 |}.

(** The value returned by [histoBBox2d] (lines 571-575):
    [(outMerge.T, edges0, edges1, outData.T, outCount.T)]. *)
Record output : Type := {
  I : matrix;
  edges0 : list Q;
  edges1 : list Q;
  sumData : matrix;
  sumCount : matrix
}.

Definition histoBBox2d (a : args) : result output :=
  L <- setup a ;;
  out <- accumulate_all L ;;
  let '(outData, outCount) := out in
  outMerge <- merge (cdummy L) (normalization_factor a) outData outCount
                (bins0 L) (bins1 L) ;;
  Ok {| I := transpose_cols (Z.to_nat (bins1 L)) outMerge;
        edges0 := linspace (pos0_min L + (1 # 2) * delta0 L)
                           (pos0_maxin L - (1 # 2) * delta0 L) (bins0 L);
        edges1 := linspace (pos1_min L + (1 # 2) * delta1 L)
                           (pos1_maxin L - (1 # 2) * delta1 L) (bins1 L);
        sumData := transpose_cols (Z.to_nat (bins1 L)) outData;
        sumCount := transpose_cols (Z.to_nat (bins1 L)) outCount |}.

End WithConstants.

(** ** Notions used to state the properties of [histoBBox2d] *)

(** [m] has [n0] rows of [n1] entries. *)
Definition shape (n0 n1 : nat) (m : matrix) : Prop :=
  length m = n0 /\ Forall (fun r => length r = n1) m.

(** The arguments [a] with [b] as the requested bin counts. *)
Definition set_bins (a : args) (b : bins_arg) : args :=
  {| weights := weights a; pos0 := pos0 a; delta_pos0 := delta_pos0 a;
     pos1 := pos1 a; delta_pos1 := delta_pos1 a; bins := b;
     pos0Range := pos0Range a; pos1Range := pos1Range a;
     dummy := dummy a; delta_dummy := delta_dummy a; mask := mask a;
     dark := dark a; flat := flat a; solidangle := solidangle a;
     polarization := polarization a; allow_pos0_neg := allow_pos0_neg a;
     chiDiscAtPi := chiDiscAtPi a; empty := empty a;
     normalization_factor := normalization_factor a |}.

(** Both accumulators are [n0] by [n1]. *)
Definition both_shape (n0 n1 : nat) (out : matrix * matrix) : Prop :=
  shape n0 n1 (fst out) /\ shape n0 n1 (snd out).

(** The denominators of the divisions that [accumulate] evaluates (lines
    499, 515 and 529): none in the single-bin branch. *)
Definition denominators (bin0_min bin0_max bin1_min bin1_max : Z)
    (fbin0_min fbin0_max fbin1_min fbin1_max : Q) : list Q :=
  if (bin0_min =? bin0_max)%Z then
    if (bin1_min =? bin1_max)%Z then [] else [fbin1_max - fbin1_min]
  else
    if (bin1_min =? bin1_max)%Z then [fbin0_max - fbin0_min]
    else [(fbin0_max - fbin0_min) * (fbin1_max - fbin1_min)].

(** The footprint of pixel [idx] lies fully inside the active range on
    both axes. *)
Definition inside_range (L : locals) (idx : nat) : Prop :=
  (pos0_min L <= getq (cpos0_lower L) idx /\
   getq (cpos0_lower L) idx <= getq (cpos0_upper L) idx /\
   getq (cpos0_upper L) idx <= pos0_maxin L) /\
  (pos1_min L <= getq (cpos1 L) idx - getq (dpos1 L) idx /\
   getq (cpos1 L) idx - getq (dpos1 L) idx
     <= getq (cpos1 L) idx + getq (dpos1 L) idx /\
   getq (cpos1 L) idx + getq (dpos1 L) idx <= pos1_maxin L).

(** On both axes the bins have a positive width and the user-visible
    maximum lies strictly inside the last one. *)
Definition bins_cover (L : locals) : Prop :=
  ((0 < bins0 L)%Z /\ 0 < delta0 L /\
   pos0_maxin L < pos0_min L + inject_Z (bins0 L) * delta0 L) /\
  ((0 < bins1 L)%Z /\ 0 < delta1 L /\
   pos1_maxin L < pos1_min L + inject_Z (bins1 L) * delta1 L).

(** The invariant of the accumulators: both are [n0] by [n1] and the
    counts sum to [s]. *)
Definition grid_inv (n0 n1 : nat) (s : Q) (out : matrix * matrix) : Prop :=
  shape n0 n1 (fst out) /\ shape n0 n1 (snd out) /\ Msum (snd out) == s.

End Hist2d.
(** Modelled from the spec: [calc_upper_bound] of regrid_common.pxi, which
    is not part of the source.  The spec says the upper limit is nudged
    outward by epsilon relative to the true maximum, so that the
    maximum-valued pixel falls strictly inside the last bin; the relative
    epsilon taken here is that of single precision, 2^-23.  It is used
    only to run the embedding on concrete inputs. *)
Definition eps32 : Q := 1 # 8388608.

Definition calc_upper_bound_eps (maximum_value : Q) : Q :=
  if Qltb 0 maximum_value then maximum_value * (1 + eps32)
  else maximum_value / (1 + eps32).

Definition ex_split : Hist1d.args :=
  {| Hist1d.weights := [100]; Hist1d.pos0 := [1]; Hist1d.delta_pos0 := [6 # 10];
     Hist1d.pos1 := None; Hist1d.delta_pos1 := None; Hist1d.bins := 2;
     Hist1d.pos0Range := Some [0; 2]; Hist1d.pos1Range := None;
     Hist1d.dummy := None; Hist1d.delta_dummy := None; Hist1d.mask := None;
     Hist1d.dark := None; Hist1d.flat := None; Hist1d.solidangle := None;
     Hist1d.polarization := None; Hist1d.empty := None;
     Hist1d.normalization_factor := 1 |}.

Definition pi_approx : Q := 355 # 113.

(** Two pixels on a 2 by 3 grid; the second one has the dummy value as its
    raw weight, and no [delta_dummy] is given. *)
Definition ex_grid : Hist2d.args :=
  {| Hist2d.weights := [100; 7]; Hist2d.pos0 := [1; 1];
     Hist2d.delta_pos0 := [6 # 10; 1 # 10];
     Hist2d.pos1 := [1; 1 # 2]; Hist2d.delta_pos1 := [6 # 10; 1 # 10];
     Hist2d.bins := Hist2d.BinsPair 2 3;
     Hist2d.pos0Range := Some [0; 2]; Hist2d.pos1Range := Some [0; 3];
     Hist2d.dummy := Some 7; Hist2d.delta_dummy := None; Hist2d.mask := None;
     Hist2d.dark := None; Hist2d.flat := None; Hist2d.solidangle := None;
     Hist2d.polarization := None; Hist2d.allow_pos0_neg := false;
     Hist2d.chiDiscAtPi := true; Hist2d.empty := Some 0;
     Hist2d.normalization_factor := 1 |}.

(** One pixel of footprint [[0.5, 3.5]], clipped by the range [[0, 2]]. *)
Definition ex_clipped : Hist1d.args :=
  {| Hist1d.weights := [10]; Hist1d.pos0 := [2]; Hist1d.delta_pos0 := [3 # 2];
     Hist1d.pos1 := None; Hist1d.delta_pos1 := None; Hist1d.bins := 2;
     Hist1d.pos0Range := Some [0; 2]; Hist1d.pos1Range := None;
     Hist1d.dummy := None; Hist1d.delta_dummy := None; Hist1d.mask := None;
     Hist1d.dark := None; Hist1d.flat := None; Hist1d.solidangle := None;
     Hist1d.polarization := None; Hist1d.empty := None;
     Hist1d.normalization_factor := 1 |}.

(** One pixel whose raw weight is the dummy value; no [delta_dummy]. *)
Definition ex_dummy1d : Hist1d.args :=
  {| Hist1d.weights := [7]; Hist1d.pos0 := [1 # 2]; Hist1d.delta_pos0 := [1 # 10];
     Hist1d.pos1 := None; Hist1d.delta_pos1 := None; Hist1d.bins := 2;
     Hist1d.pos0Range := Some [0; 2]; Hist1d.pos1Range := None;
     Hist1d.dummy := Some 7; Hist1d.delta_dummy := None; Hist1d.mask := None;
     Hist1d.dark := None; Hist1d.flat := None; Hist1d.solidangle := None;
     Hist1d.polarization := None; Hist1d.empty := None;
     Hist1d.normalization_factor := 1 |}.

Definition ex_dummy2d : Hist2d.args :=
  {| Hist2d.weights := [7]; Hist2d.pos0 := [1 # 2]; Hist2d.delta_pos0 := [1 # 10];
     Hist2d.pos1 := [1 # 2]; Hist2d.delta_pos1 := [1 # 10];
     Hist2d.bins := Hist2d.BinsPair 2 3;
     Hist2d.pos0Range := Some [0; 2]; Hist2d.pos1Range := Some [0; 3];
     Hist2d.dummy := Some 7; Hist2d.delta_dummy := None; Hist2d.mask := None;
     Hist2d.dark := None; Hist2d.flat := None; Hist2d.solidangle := None;
     Hist2d.polarization := None; Hist2d.allow_pos0_neg := false;
     Hist2d.chiDiscAtPi := true; Hist2d.empty := Some 0;
     Hist2d.normalization_factor := 1 |}.

(** [ex_grid] with non-positive bin counts. *)
Definition ex_nobins : Hist2d.args :=
  Hist2d.set_bins ex_grid (Hist2d.BinsPair 0 (-3)).

(** [ex_split] with a bin count of zero. *)
Definition ex_zero_bins : Hist1d.args :=
  {| Hist1d.weights := [100]; Hist1d.pos0 := [1]; Hist1d.delta_pos0 := [6 # 10];
     Hist1d.pos1 := None; Hist1d.delta_pos1 := None; Hist1d.bins := 0;
     Hist1d.pos0Range := Some [0; 2]; Hist1d.pos1Range := None;
     Hist1d.dummy := None; Hist1d.delta_dummy := None; Hist1d.mask := None;
     Hist1d.dark := None; Hist1d.flat := None; Hist1d.solidangle := None;
     Hist1d.polarization := None; Hist1d.empty := None;
     Hist1d.normalization_factor := 1 |}.

(** A user range whose minimum is negative. *)
Definition ex_neg_range : Hist1d.args :=
  {| Hist1d.weights := [100]; Hist1d.pos0 := [1]; Hist1d.delta_pos0 := [6 # 10];
     Hist1d.pos1 := None; Hist1d.delta_pos1 := None; Hist1d.bins := 2;
     Hist1d.pos0Range := Some [-1; 2]; Hist1d.pos1Range := None;
     Hist1d.dummy := None; Hist1d.delta_dummy := None; Hist1d.mask := None;
     Hist1d.dark := None; Hist1d.flat := None; Hist1d.solidangle := None;
     Hist1d.polarization := None; Hist1d.empty := None;
     Hist1d.normalization_factor := 1 |}.

Definition ex_neg_range2d : Hist2d.args :=
  {| Hist2d.weights := [100]; Hist2d.pos0 := [1]; Hist2d.delta_pos0 := [6 # 10];
     Hist2d.pos1 := [1]; Hist2d.delta_pos1 := [6 # 10];
     Hist2d.bins := Hist2d.BinsPair 2 3;
     Hist2d.pos0Range := Some [-1; 2]; Hist2d.pos1Range := None;
     Hist2d.dummy := None; Hist2d.delta_dummy := None; Hist2d.mask := None;
     Hist2d.dark := None; Hist2d.flat := None; Hist2d.solidangle := None;
     Hist2d.polarization := None; Hist2d.allow_pos0_neg := false;
     Hist2d.chiDiscAtPi := true; Hist2d.empty := Some 0;
     Hist2d.normalization_factor := 1 |}.

(** A single, masked pixel whose centre is negative on axis 0; no user
    range. *)
Definition ex_masked_neg : Hist1d.args :=
  {| Hist1d.weights := [100]; Hist1d.pos0 := [-1]; Hist1d.delta_pos0 := [1 # 10];
     Hist1d.pos1 := None; Hist1d.delta_pos1 := None; Hist1d.bins := 2;
     Hist1d.pos0Range := None; Hist1d.pos1Range := None;
     Hist1d.dummy := None; Hist1d.delta_dummy := None; Hist1d.mask := Some [1%Z];
     Hist1d.dark := None; Hist1d.flat := None; Hist1d.solidangle := None;
     Hist1d.polarization := None; Hist1d.empty := None;
     Hist1d.normalization_factor := 1 |}.

(** Two pixels, the first one masked; no user range. *)
Definition ex_masked_first : Hist1d.args :=
  {| Hist1d.weights := [100; 50]; Hist1d.pos0 := [3; 1];
     Hist1d.delta_pos0 := [1 # 10; 1 # 10];
     Hist1d.pos1 := None; Hist1d.delta_pos1 := None; Hist1d.bins := 2;
     Hist1d.pos0Range := None; Hist1d.pos1Range := None;
     Hist1d.dummy := None; Hist1d.delta_dummy := None;
     Hist1d.mask := Some [1%Z; 0%Z];
     Hist1d.dark := None; Hist1d.flat := None; Hist1d.solidangle := None;
     Hist1d.polarization := None; Hist1d.empty := None;
     Hist1d.normalization_factor := 1 |}.

Definition ex_masked_first2d : Hist2d.args :=
  {| Hist2d.weights := [100; 50]; Hist2d.pos0 := [3; 1];
     Hist2d.delta_pos0 := [1 # 10; 1 # 10];
     Hist2d.pos1 := [2; 1]; Hist2d.delta_pos1 := [1 # 10; 1 # 10];
     Hist2d.bins := Hist2d.BinsPair 2 3;
     Hist2d.pos0Range := None; Hist2d.pos1Range := None;
     Hist2d.dummy := None; Hist2d.delta_dummy := None;
     Hist2d.mask := Some [1%Z; 0%Z];
     Hist2d.dark := None; Hist2d.flat := None; Hist2d.solidangle := None;
     Hist2d.polarization := None; Hist2d.allow_pos0_neg := false;
     Hist2d.chiDiscAtPi := true; Hist2d.empty := Some 0;
     Hist2d.normalization_factor := 1 |}.


(** The local variables of [histoBBox1d] on [ex_split], when the rounded
    maximum [calc_upper_bound 2] is [u]. *)
Definition split_locals (u : Q) : Hist1d.locals :=
  {| Hist1d.size := 1; Hist1d.nbins := 2;
     Hist1d.cdata := [100]; Hist1d.cpos0 := [1]; Hist1d.dpos0 := [6 # 10];
     Hist1d.check_mask := false; Hist1d.cmask := [];
     Hist1d.check_dummy := false; Hist1d.cdummy := 0; Hist1d.ddummy := 0;
     Hist1d.do_dark := false; Hist1d.cdark := [];
     Hist1d.do_flat := false; Hist1d.cflat := [];
     Hist1d.do_polarization := false; Hist1d.cpolarization := [];
     Hist1d.do_solidangle := false; Hist1d.csolidangle := [];
     Hist1d.cpos0_lower := [1 - (6 # 10)]; Hist1d.cpos0_upper := [1 + (6 # 10)];
     Hist1d.check_pos1 := false; Hist1d.cpos1 := []; Hist1d.dpos1 := [];
     Hist1d.pos1_min := 0; Hist1d.pos1_max := 0;
     Hist1d.pos0_min := 0; Hist1d.pos0_maxin := 2; Hist1d.pos0_max := u;
     Hist1d.delta := (u - 0) / inject_Z 2 |}.

(** * Further notions, for the properties beyond the specification *)

(** An optional array is absent or has [n] items. *)
Definition opt_sized {A : Type} (o : option (list A)) (n : nat) : Prop :=
  match o with
  | Some arr => length arr = n
  | None => True
  end.

(** An optional correction array, when present, has no zero entry. *)
Definition nonzero_opt (o : option (list Q)) : Prop :=
  match o with
  | Some arr => Forall (fun x => ~ x == 0) arr
  | None => True
  end.

(** The flag and the array that lines 369-384 derive from an optional
    array. *)
Definition opt_flag (o : option (list Q)) : bool :=
  match o with Some _ => true | None => false end.

Definition opt_array (o : option (list Q)) : list Q :=
  match o with Some arr => arr | None => [] end.

(** ** [histoBBox1d] *)

(** The checks that [histoBBox1d] makes on its arguments (lines 94-96,
    119, 136-149, 179-180). *)
Definition checks1d (a : Hist1d.args) : Prop :=
  let size := length (Hist1d.weights a) in
  (2 <= Hist1d.bins a)%Z /\
  length (Hist1d.pos0 a) = size /\
  length (Hist1d.delta_pos0 a) = size /\
  opt_sized (Hist1d.mask a) size /\
  opt_sized (Hist1d.dark a) size /\
  opt_sized (Hist1d.flat a) size /\
  opt_sized (Hist1d.polarization a) size /\
  opt_sized (Hist1d.solidangle a) size /\
  (range_given (Hist1d.pos1Range a) = true ->
   exists p d, Hist1d.pos1 a = Some p /\ Hist1d.delta_pos1 a = Some d /\
               length p = size /\ length d = size).



(** The invariant that every [+=] pair of the accumulation keeps: both
    arrays have [n] bins and the weighted sum minus [data] times the
    count sum is [k]. *)
Definition lin1d (n : nat) (data k : Q) (out : list Q * list Q) : Prop :=
  length (fst out) = n /\ length (snd out) = n /\
  Qsum (fst out) - data * Qsum (snd out) == k.

(** [check_mask] and [cmask] as lines 118-121 set them. *)
Definition mask_flag (mask : option (list Z)) : bool :=
  match mask with Some _ => true | None => false end.

Definition mask_array (mask : option (list Z)) : list Z :=
  match mask with Some arr => arr | None => [] end.


(** The arguments [a] with another [pos0Range]. *)
Definition set_pos0Range1d (a : Hist1d.args) (r : option (list Q)) : Hist1d.args :=
  {| Hist1d.weights := Hist1d.weights a; Hist1d.pos0 := Hist1d.pos0 a;
     Hist1d.delta_pos0 := Hist1d.delta_pos0 a; Hist1d.pos1 := Hist1d.pos1 a;
     Hist1d.delta_pos1 := Hist1d.delta_pos1 a; Hist1d.bins := Hist1d.bins a;
     Hist1d.pos0Range := r;
     Hist1d.pos1Range := Hist1d.pos1Range a;
     Hist1d.dummy := Hist1d.dummy a; Hist1d.delta_dummy := Hist1d.delta_dummy a;
     Hist1d.mask := Hist1d.mask a; Hist1d.dark := Hist1d.dark a;
     Hist1d.flat := Hist1d.flat a; Hist1d.solidangle := Hist1d.solidangle a;
     Hist1d.polarization := Hist1d.polarization a;
     Hist1d.empty := Hist1d.empty a;
     Hist1d.normalization_factor := Hist1d.normalization_factor a |}.


(** The range that the scanning loop of [histoBBox1d] finds (lines
    152-167), before a user range or the clamp at zero is applied. *)
Definition natural_scan1d (a : Hist1d.args) : Hist1d.scan_state :=
  Hist1d.scan (mask_flag (Hist1d.mask a)) (mask_array (Hist1d.mask a))
    (Hist1d.pos0 a) (Hist1d.delta_pos0 a) (length (Hist1d.weights a)).

(** ** [histoBBox2d] *)

(** The corrected weight of lines 452-459, where no divisor is zero. *)
Definition corrected_value2d (L : Hist2d.locals) (idx : nat) (data : Q) : Q :=
  let data := if Hist2d.do_dark L then data - getq (Hist2d.cdark L) idx else data in
  let data := if Hist2d.do_flat L then data / getq (Hist2d.cflat L) idx else data in
  let data := if Hist2d.do_polarization L
              then data / getq (Hist2d.cpolarization L) idx else data in
  let data := if Hist2d.do_solidangle L
              then data / getq (Hist2d.csolidangle L) idx else data in
  data.

(** The pixel is deposited by the accumulation loop of [histoBBox2d]: it
    passes the mask, dummy and out-of-range tests (lines 445-467). *)
Definition deposited2d (L : Hist2d.locals) (idx : nat) : bool :=
  negb (Hist2d.masked (Hist2d.check_mask L) (Hist2d.cmask L) idx)
  && negb (Hist2d.is_dummy L (getq (Hist2d.cdata L) idx))
  && negb (Hist2d.outside_range L
             (getq (Hist2d.cpos0_lower L) idx) (getq (Hist2d.cpos0_upper L) idx)
             (getq (Hist2d.cpos1 L) idx - getq (Hist2d.dpos1 L) idx)
             (getq (Hist2d.cpos1 L) idx + getq (Hist2d.dpos1 L) idx)).

Definition count_deposited2d (L : Hist2d.locals) (l : list nat) : Z :=
  Z.of_nat (length (filter (deposited2d L) l)).

Definition total_weight2d (L : Hist2d.locals) (l : list nat) : Q :=
  Qsum (map (fun idx => corrected_value2d L idx (getq (Hist2d.cdata L) idx))
            (filter (deposited2d L) l)).

(** Both accumulators are [n0] by [n1], the counts sum to [sc] and the
    weights to [sd]. *)
Definition sums2d (n0 n1 : nat) (sc sd : Q) (out : matrix * matrix) : Prop :=
  Hist2d.both_shape n0 n1 out /\ Msum (snd out) == sc /\ Msum (fst out) == sd.

(** The invariant that every [+=] pair of the accumulation keeps: the
    weighted sum minus [data] times the count sum is [k]. *)
Definition lin2d (n0 n1 : nat) (data k : Q) (out : matrix * matrix) : Prop :=
  Hist2d.both_shape n0 n1 out /\
  Msum (fst out) - data * Msum (snd out) == k.

(** The checks that [histoBBox2d] makes on its arguments (lines 314-317,
    356, 367, 370-383). *)
Definition checks2d (a : Hist2d.args) : Prop :=
  let size := length (Hist2d.weights a) in
  length (Hist2d.pos0 a) = size /\
  length (Hist2d.pos1 a) = size /\
  length (Hist2d.delta_pos0 a) = size /\
  length (Hist2d.delta_pos1 a) = size /\
  opt_sized (Hist2d.mask a) size /\
  (Hist2d.dummy a = None -> Hist2d.empty a <> None) /\
  opt_sized (Hist2d.dark a) size /\
  opt_sized (Hist2d.flat a) size /\
  opt_sized (Hist2d.polarization a) size /\
  opt_sized (Hist2d.solidangle a) size.

(** After the scanning loop of [histoBBox2d] has visited pixel [idx], the
    axis-0 arrays hold its footprint (lines 395-398, 409-410). *)
Definition bounds_at2d (cpos0 dpos0 : list Q) (idx : nat)
    (s : Hist2d.scan_state) : Prop :=
  getq (Hist2d.s_lower0 s) idx = getq cpos0 idx - getq dpos0 idx /\
  getq (Hist2d.s_upper0 s) idx = getq cpos0 idx + getq dpos0 idx.

(** The range that the scanning loop of [histoBBox2d] finds (lines
    386-420), before a user range or the clamp at zero is applied. *)
Definition natural_scan2d (pi : Q) (a : Hist2d.args) : Hist2d.scan_state :=
  Hist2d.scan pi (mask_flag (Hist2d.mask a)) (mask_array (Hist2d.mask a))
    (Hist2d.pos0 a) (Hist2d.delta_pos0 a) (Hist2d.pos1 a) (Hist2d.delta_pos1 a)
    (Hist2d.chiDiscAtPi a) (length (Hist2d.weights a)).

(** The azimuthal limits of lines 405-408. *)
Definition chi_upper (pi : Q) (chiDiscAtPi : bool) : Q :=
  (2 - Hist2d.b2q chiDiscAtPi) * pi.

Definition chi_lower (pi : Q) (chiDiscAtPi : bool) : Q :=
  (- Hist2d.b2q chiDiscAtPi) * pi.

(** Three pixels on a 2 by 3 grid, with a mask and the four correction
    arrays: the first pixel is masked, the second lies across two bins
    on both axes, the third is outside the range. *)
Definition ex_corrected2d : Hist2d.args :=
  {| Hist2d.weights := [100; 26; 9]; Hist2d.pos0 := [1; 1; 5];
     Hist2d.delta_pos0 := [1 # 10; 6 # 10; 1 # 10];
     Hist2d.pos1 := [1; 1; 1]; Hist2d.delta_pos1 := [1 # 10; 6 # 10; 1 # 10];
     Hist2d.bins := Hist2d.BinsPair 2 3;
     Hist2d.pos0Range := Some [0; 2]; Hist2d.pos1Range := Some [0; 3];
     Hist2d.dummy := None; Hist2d.delta_dummy := None;
     Hist2d.mask := Some [1%Z; 0%Z; 0%Z];
     Hist2d.dark := Some [0; 2; 0]; Hist2d.flat := Some [1; 2; 1];
     Hist2d.solidangle := Some [1; 3; 1]; Hist2d.polarization := Some [1; 2; 1];
     Hist2d.allow_pos0_neg := false;
     Hist2d.chiDiscAtPi := true; Hist2d.empty := Some 0;
     Hist2d.normalization_factor := 1 |}.

(** One of the divisions of lines 454-459 has a zero denominator at pixel
    [idx]. *)
Definition zero_divisor2d (L : Hist2d.locals) (idx : nat) : Prop :=
  (Hist2d.do_flat L = true /\ getq (Hist2d.cflat L) idx == 0) \/
  (Hist2d.do_polarization L = true /\ getq (Hist2d.cpolarization L) idx == 0) \/
  (Hist2d.do_solidangle L = true /\ getq (Hist2d.csolidangle L) idx == 0).



(** Two pixels with a flat field: the second one lies outside the range
    and its flat-field entry is zero. *)
Definition ex_zero_flat2d : Hist2d.args :=
  {| Hist2d.weights := [100; 5]; Hist2d.pos0 := [1; 9];
     Hist2d.delta_pos0 := [1 # 10; 1 # 10];
     Hist2d.pos1 := [1; 1]; Hist2d.delta_pos1 := [1 # 10; 1 # 10];
     Hist2d.bins := Hist2d.BinsPair 2 3;
     Hist2d.pos0Range := Some [0; 2]; Hist2d.pos1Range := Some [0; 3];
     Hist2d.dummy := None; Hist2d.delta_dummy := None; Hist2d.mask := None;
     Hist2d.dark := None; Hist2d.flat := Some [1; 0];
     Hist2d.solidangle := None; Hist2d.polarization := None;
     Hist2d.allow_pos0_neg := false;
     Hist2d.chiDiscAtPi := true; Hist2d.empty := Some 0;
     Hist2d.normalization_factor := 1 |}.

(** * Basic facts *)

Lemma bind_Ok {A B : Type} (m : result A) (k : A -> result B) (b : B) :
  bind m k = Ok b -> exists a, m = Ok a /\ k a = Ok b.
Proof.
  destruct m as [a|e]; simpl; intro H; [exists a; split; auto | discriminate].
Qed.

Lemma py_assert_Ok (c : bool) (msg : string) (u : unit) :
  py_assert c msg = Ok u -> c = true.
Proof. unfold py_assert. destruct c; [reflexivity | discriminate]. Qed.

Lemma optional_mask_Ok (o : option (list Z)) (size : nat) (m : bool * list Z) :
  optional_mask o size = Ok m ->
  m = match o with Some arr => (true, arr) | None => (false, []) end.
Proof.
  unfold optional_mask. destruct o as [arr|]; [|intro H; inversion H; reflexivity].
  intro H. apply bind_Ok in H. destruct H as (u & _ & H). inversion H. reflexivity.
Qed.

Lemma Qltb_lt (x y : Q) : Qltb x y = true <-> x < y.
Proof.
  unfold Qltb. rewrite negb_true_iff.
  split; intro H.
  - apply Qnot_le_lt. intro Hle. apply Qle_bool_iff in Hle. congruence.
  - destruct (Qle_bool y x) eqn:E; [|reflexivity].
    apply Qle_bool_iff in E. exfalso. apply (Qlt_not_le _ _ H E).
Qed.

Lemma Qltb_ge (x y : Q) : Qltb x y = false <-> y <= x.
Proof.
  unfold Qltb. rewrite negb_false_iff. apply Qle_bool_iff.
Qed.

Lemma Qle_bool_false (x y : Q) : Qle_bool x y = false <-> y < x.
Proof.
  rewrite <- Qltb_lt. unfold Qltb. rewrite negb_true_iff. tauto.
Qed.

Lemma inject_Z_succ (z : Z) : inject_Z (z + 1) == inject_Z z + 1.
Proof. rewrite inject_Z_plus. reflexivity. Qed.

Lemma inject_Z_sub (a b : Z) : inject_Z (a - b) == inject_Z a - inject_Z b.
Proof.
  unfold Z.sub. rewrite inject_Z_plus, inject_Z_opp. reflexivity.
Qed.

Lemma inject_Z_le (a b : Z) : (a <= b)%Z -> inject_Z a <= inject_Z b.
Proof. intro H. rewrite <- Zle_Qle. exact H. Qed.

Lemma inject_Z_lt (a b : Z) : (a < b)%Z -> inject_Z a < inject_Z b.
Proof. intro H. rewrite <- Zlt_Qlt. exact H. Qed.

(** Truncation of a non-negative number is its floor. *)
Lemma trunc_floor (x : Q) : 0 <= x -> trunc x = Qfloor x.
Proof.
  destruct x as [n d]. unfold Qle, trunc, Qfloor. simpl. intro H.
  apply Z.quot_div_nonneg; lia.
Qed.

Lemma trunc_nonneg (x : Q) : 0 <= x -> (0 <= trunc x)%Z.
Proof.
  intro H. rewrite (trunc_floor x H).
  change 0%Z with (Qfloor 0). apply Qfloor_resp_le. exact H.
Qed.

Lemma trunc_le (x : Q) : 0 <= x -> inject_Z (trunc x) <= x.
Proof. intro H. rewrite (trunc_floor x H). apply Qfloor_le. Qed.

Lemma trunc_lt (x : Q) : 0 <= x -> x < inject_Z (trunc x) + 1.
Proof.
  intro H. rewrite (trunc_floor x H), <- inject_Z_succ. apply Qlt_floor.
Qed.

Lemma trunc_below (x : Q) (n : Z) : 0 <= x -> x < inject_Z n -> (trunc x < n)%Z.
Proof.
  intros H0 Hn. rewrite Zlt_Qlt.
  apply Qle_lt_trans with x; [apply trunc_le; exact H0 | exact Hn].
Qed.

Lemma trunc_mono (x y : Q) : 0 <= x -> x <= y -> (trunc x <= trunc y)%Z.
Proof.
  intros H0 Hxy.
  rewrite (trunc_floor x H0), (trunc_floor y (Qle_trans _ _ _ H0 Hxy)).
  apply Qfloor_resp_le. exact Hxy.
Qed.

(** Fractional bin coordinates for a positive bin width. *)
Lemma get_bin_number_nonneg (x pmin delta : Q) :
  0 < delta -> pmin <= x -> 0 <= get_bin_number x pmin delta.
Proof.
  intros Hd Hx. unfold get_bin_number.
  apply Qle_shift_div_l; [exact Hd | lra].
Qed.

Lemma get_bin_number_mono (x y pmin delta : Q) :
  0 < delta -> x <= y -> get_bin_number x pmin delta <= get_bin_number y pmin delta.
Proof.
  intros Hd Hxy. unfold get_bin_number, Qdiv.
  apply Qmult_le_compat_r; [lra|].
  apply Qlt_le_weak, Qinv_lt_0_compat. exact Hd.
Qed.

Lemma get_bin_number_below (x pmin delta n : Q) :
  0 < delta -> x < pmin + n * delta -> get_bin_number x pmin delta < n.
Proof.
  intros Hd Hx. unfold get_bin_number.
  apply Qlt_shift_div_r; [exact Hd | lra].
Qed.

(** ** Sums of arrays under [+=] *)

Lemma add_nth_length (i : nat) (v : Q) (l : list Q) :
  length (add_nth i v l) = length l.
Proof.
  revert i. induction l as [|x r IH]; intros [|j]; simpl; auto.
Qed.

Lemma add_nth_Qsum (i : nat) (v : Q) (l : list Q) :
  (i < length l)%nat -> Qsum (add_nth i v l) == Qsum l + v.
Proof.
  revert i. induction l as [|x r IH]; intros [|j] H; simpl in *; try lia.
  - ring.
  - rewrite IH by lia. ring.
Qed.

Lemma add_nth_Forall (ok : Q -> Prop) (i : nat) (v : Q) (l : list Q) :
  (forall x, ok x -> ok (x + v)) -> Forall ok l -> Forall ok (add_nth i v l).
Proof.
  intros Hv. revert i. induction l as [|x r IH]; intros [|j] H; simpl; auto.
  - inversion H; subst. constructor; [apply Hv; assumption | assumption].
  - inversion H; subst. constructor; auto.
Qed.

Lemma add_at_length (i : Z) (v : Q) (l : list Q) :
  length (add_at i v l) = length l.
Proof.
  unfold add_at. destruct (0 <=? i)%Z; [apply add_nth_length | reflexivity].
Qed.

Lemma add_at_Qsum (i : Z) (v : Q) (l : list Q) :
  (0 <= i < Z.of_nat (length l))%Z -> Qsum (add_at i v l) == Qsum l + v.
Proof.
  intros H. unfold add_at.
  destruct (0 <=? i)%Z eqn:E; [|apply Z.leb_gt in E; lia].
  apply add_nth_Qsum. lia.
Qed.

Lemma add_at_Forall (ok : Q -> Prop) (i : Z) (v : Q) (l : list Q) :
  (forall x, ok x -> ok (x + v)) -> Forall ok l -> Forall ok (add_at i v l).
Proof.
  intros Hv Hl. unfold add_at.
  destruct (0 <=? i)%Z; [apply add_nth_Forall; assumption | assumption].
Qed.

Lemma upward_nonneg : Hist1d.upward (Qle 0).
Proof. intros x c Hc Hx. lra. Qed.


Lemma zeros_length (n : nat) : length (zeros n) = n.
Proof. apply repeat_length. Qed.

Lemma zeros_Qsum (n : nat) : Qsum (zeros n) == 0.
Proof. induction n as [|n IH]; simpl; [reflexivity | rewrite IH; ring]. Qed.

Lemma zeros_nonneg (n : nat) : Forall (Qle 0) (zeros n).
Proof.
  induction n as [|n IH]; simpl; constructor; [apply Qle_refl | exact IH].
Qed.

Lemma Zrange_nil (lo hi : Z) : (hi <= lo)%Z -> Zrange lo hi = [].
Proof.
  intro H. unfold Zrange. replace (Z.to_nat (hi - lo)) with O by lia. reflexivity.
Qed.

Lemma Zrange_cons (lo hi : Z) :
  (lo < hi)%Z -> Zrange lo hi = lo :: Zrange (lo + 1) hi.
Proof.
  intro H. unfold Zrange.
  replace (Z.to_nat (hi - lo)) with (S (Z.to_nat (hi - (lo + 1)))) by lia.
  simpl. f_equal; [lia|].
  rewrite <- seq_shift, map_map. apply map_ext. intro k. lia.
Qed.

Lemma Zrange_ind (P : Z -> Z -> Prop) :
  (forall lo hi, (hi <= lo)%Z -> P lo hi) ->
  (forall lo hi, (lo < hi)%Z -> P (lo + 1)%Z hi -> P lo hi) ->
  forall lo hi, P lo hi.
Proof.
  intros Hnil Hcons lo hi.
  remember (Z.to_nat (hi - lo)) as n eqn:En. revert lo En.
  induction n as [|n IH]; intros lo En.
  - apply Hnil. lia.
  - apply Hcons; [lia|]. apply IH. lia.
Qed.

(** ** One pixel of [histoBBox1d] *)

Module Hist1dFacts.
Import Hist1d.

Section Accumulators.

Variable ok : Q -> Prop.
Hypothesis Hok : upward ok.

Lemma acc_inv_eq (n : nat) (s s' : Q) (out : list Q * list Q) :
  s == s' -> acc_inv ok n s out -> acc_inv ok n s' out.
Proof.
  intros E (H1 & H2 & H3 & H4). repeat split; try assumption.
  rewrite H4. exact E.
Qed.

Lemma acc_inv_add (n : nat) (s : Q) (i : Z) (d c : Q) (oD oC : list Q) :
  (0 <= i < Z.of_nat n)%Z -> 0 <= c ->
  acc_inv ok n s (oD, oC) ->
  acc_inv ok n (s + c) (add_at i d oD, add_at i c oC).
Proof.
  intros Hi Hc (H1 & H2 & H3 & H4). simpl in *.
  repeat split; simpl.
  - rewrite add_at_length. exact H1.
  - rewrite add_at_length. exact H2.
  - apply add_at_Forall; [intros x Hx; apply Hok; assumption | assumption].
  - rewrite add_at_Qsum by lia. rewrite H4. reflexivity.
Qed.

(** Lines 246-248: the loop over the interior bins. *)
Lemma interior_inv (n : nat) (d c : Q) (lo hi : Z) :
  forall (s : Q) (out : list Q * list Q),
    (0 <= lo)%Z -> (hi <= Z.of_nat n)%Z -> 0 <= c ->
    acc_inv ok n s out ->
    acc_inv ok n (s + inject_Z (Z.max 0 (hi - lo)) * c)
      (fold_left (fun o idx => (add_at idx d (fst o), add_at idx c (snd o)))
         (Zrange lo hi) out).
Proof.
  revert lo hi. apply (Zrange_ind (fun lo hi => forall s out,
    (0 <= lo)%Z -> (hi <= Z.of_nat n)%Z -> 0 <= c -> acc_inv ok n s out ->
    acc_inv ok n (s + inject_Z (Z.max 0 (hi - lo)) * c)
      (fold_left (fun o idx => (add_at idx d (fst o), add_at idx c (snd o)))
         (Zrange lo hi) out))).
  - intros lo hi Hle s out Hlo Hhi Hc Hinv.
    rewrite Zrange_nil by exact Hle. simpl.
    replace (Z.max 0 (hi - lo)) with 0%Z by lia.
    apply (acc_inv_eq n s); [ring | exact Hinv].
  - intros lo hi Hlt IH s out Hlo Hhi Hc Hinv.
    rewrite Zrange_cons by exact Hlt. simpl.
    destruct out as [oD oC].
    apply (acc_inv_eq n (s + c + inject_Z (Z.max 0 (hi - (lo + 1))) * c)).
    + replace (Z.max 0 (hi - lo)) with (Z.max 0 (hi - (lo + 1)) + 1)%Z by lia.
      rewrite inject_Z_succ. ring.
    + apply IH; try assumption; try lia.
      apply acc_inv_add; [lia | exact Hc | exact Hinv].
Qed.

(** Lines 227-248: a pixel deposited between two bins of the array adds a
    total count of exactly one, made of non-negative parts. *)
Lemma accumulate_inv (n : nat) (s : Q) (bmin bmax : Z) (fmin fmax data : Q)
    (out : list Q * list Q) :
  (0 <= bmin)%Z -> (bmin <= bmax)%Z -> (bmax < Z.of_nat n)%Z ->
  ((bmin < bmax)%Z -> fmin < fmax) ->
  0 <= inject_Z (bmin + 1) - fmin ->
  0 <= fmax - inject_Z bmax ->
  acc_inv ok n s out ->
  acc_inv ok n (s + 1) (accumulate bmin bmax fmin fmax data out).
Proof.
  intros H0 Hle Hn Hf HL HR Hinv. unfold accumulate.
  destruct out as [oD oC].
  destruct (bmin =? bmax)%Z eqn:E.
  - apply Z.eqb_eq in E. subst bmax.
    apply acc_inv_add; [lia | lra | exact Hinv].
  - apply Z.eqb_neq in E. assert (Hlt : (bmin < bmax)%Z) by lia.
    specialize (Hf Hlt).
    set (deltaA := 1 / (fmax - fmin)).
    set (deltaL := inject_Z (bmin + 1) - fmin) in *.
    set (deltaR := fmax - inject_Z bmax) in *.
    assert (HA : 0 < deltaA).
    { unfold deltaA. apply Qlt_shift_div_l; lra. }
    assert (HAL : 0 <= deltaA * deltaL) by (apply Qmult_le_0_compat; lra).
    assert (HAR : 0 <= deltaA * deltaR) by (apply Qmult_le_0_compat; lra).
    pose proof (acc_inv_add n s bmin (data * deltaA * deltaL) (deltaA * deltaL)
                  oD oC ltac:(lia) HAL Hinv) as I1.
    pose proof (acc_inv_add n _ bmax (data * deltaA * deltaR) (deltaA * deltaR)
                  _ _ ltac:(lia) HAR I1) as I2.
    assert (Etot : s + deltaA * deltaL + deltaA * deltaR
                   + inject_Z (Z.max 0 (bmax - (bmin + 1))) * deltaA == s + 1).
    { replace (Z.max 0 (bmax - (bmin + 1))) with (bmax - (bmin + 1))%Z by lia.
      unfold deltaA, deltaL, deltaR.
      rewrite !inject_Z_sub, !inject_Z_succ. field. lra. }
    destruct (bmin + 1 <? bmax)%Z eqn:E2.
    + apply (acc_inv_eq n _ _ _ Etot).
      apply interior_inv; [lia | lia | lra | exact I2].
    + apply Z.ltb_ge in E2.
      apply (acc_inv_eq n (s + deltaA * deltaL + deltaA * deltaR)); [|exact I2].
      rewrite <- Etot.
      replace (Z.max 0 (bmax - (bmin + 1))) with 0%Z by lia. ring.
Qed.

End Accumulators.

(** Lines 207-216: the bin indices of a pixel that is not skipped. *)
Lemma split1d_index_bounds (bins : Z) (fmin fmax : Q) :
  (0 < bins)%Z -> outside_bins bins fmin fmax = false ->
  (0 <= clamp_bin0_min fmin < bins)%Z /\ (0 <= clamp_bin0_max bins fmax < bins)%Z.
Proof.
  intros Hb Hout. unfold outside_bins in Hout.
  apply orb_false_iff in Hout. destruct Hout as [H1 H2].
  apply Qltb_ge in H1. apply Qle_bool_false in H2.
  unfold clamp_bin0_min, clamp_bin0_max. split.
  - destruct (Qltb fmin 0) eqn:E; [lia|].
    apply Qltb_ge in E. split; [apply trunc_nonneg; exact E|].
    apply trunc_below; assumption.
  - destruct (Qle_bool (inject_Z bins) fmax) eqn:E; [lia|].
    apply Qle_bool_false in E. split; [apply trunc_nonneg; exact H1|].
    apply trunc_below; assumption.
Qed.

Lemma clamp_deltaL_nonneg (fmin : Q) :
  0 <= inject_Z (clamp_bin0_min fmin + 1) - fmin.
Proof.
  unfold clamp_bin0_min. destruct (Qltb fmin 0) eqn:E.
  - apply Qltb_lt in E. change (inject_Z (0 + 1)) with 1. lra.
  - apply Qltb_ge in E. rewrite inject_Z_succ.
    pose proof (trunc_lt fmin E). lra.
Qed.

Lemma clamp_deltaR_nonneg (bins : Z) (fmin fmax : Q) :
  outside_bins bins fmin fmax = false ->
  0 <= fmax - inject_Z (clamp_bin0_max bins fmax).
Proof.
  intros Hout. unfold outside_bins in Hout.
  apply orb_false_iff in Hout. destruct Hout as [H1 _]. apply Qltb_ge in H1.
  unfold clamp_bin0_max. destruct (Qle_bool (inject_Z bins) fmax) eqn:E.
  - apply Qle_bool_iff in E. rewrite inject_Z_sub.
    change (inject_Z 1) with 1. lra.
  - pose proof (trunc_le fmax H1). lra.
Qed.

Lemma clamp_order (bins : Z) (fmin fmax : Q) :
  (0 < bins)%Z -> outside_bins bins fmin fmax = false -> fmin <= fmax ->
  (clamp_bin0_min fmin <= clamp_bin0_max bins fmax)%Z.
Proof.
  intros Hb Hout Hle.
  pose proof (split1d_index_bounds bins fmin fmax Hb Hout) as [Hmin Hmax].
  unfold outside_bins in Hout.
  apply orb_false_iff in Hout. destruct Hout as [H1 H2].
  apply Qltb_ge in H1. apply Qle_bool_false in H2.
  unfold clamp_bin0_min, clamp_bin0_max in *.
  destruct (Qltb fmin 0) eqn:E1; destruct (Qle_bool (inject_Z bins) fmax) eqn:E2;
    try lia.
  apply Qltb_ge in E1. apply trunc_mono; assumption.
Qed.

Lemma clamp_split_strict (bins : Z) (fmin fmax : Q) :
  outside_bins bins fmin fmax = false -> fmin <= fmax ->
  (clamp_bin0_min fmin < clamp_bin0_max bins fmax)%Z -> fmin < fmax.
Proof.
  intros Hout Hle Hlt.
  pose proof (clamp_deltaL_nonneg fmin) as HL.
  pose proof (clamp_deltaR_nonneg bins fmin fmax Hout) as HR.
  assert (inject_Z (clamp_bin0_min fmin + 1) <= inject_Z (clamp_bin0_max bins fmax))
    by (apply inject_Z_le; lia).
  destruct (Qlt_le_dec fmin fmax) as [Hs|Hge]; [exact Hs|].
  assert (Heq : fmin == fmax) by lra.
  (* equal coordinates are clamped to the same bin *)
  exfalso.
  unfold outside_bins in Hout.
  apply orb_false_iff in Hout. destruct Hout as [H1 H2].
  apply Qltb_ge in H1. apply Qle_bool_false in H2.
  rewrite inject_Z_succ in HL.
  unfold clamp_bin0_min, clamp_bin0_max in *.
  destruct (Qltb fmin 0) eqn:E1.
  - apply Qltb_lt in E1. lra.
  - destruct (Qle_bool (inject_Z bins) fmax) eqn:E2.
    + apply Qle_bool_iff in E2. lra.
    + apply Qltb_ge in E1.
      pose proof (trunc_lt fmin E1). pose proof (trunc_le fmax H1).
      rewrite inject_Z_succ in H. lra.
Qed.

End Hist1dFacts.

Module Hist1dLoop.
Import Hist1d Hist1dFacts.

Lemma set_nth_length (i : nat) (v : Q) (l : list Q) :
  length (set_nth i v l) = length l.
Proof. revert i. induction l as [|x r IH]; intros [|j]; simpl; auto. Qed.

Lemma getq_set_nth_same (i : nat) (v : Q) (l : list Q) :
  (i < length l)%nat -> getq (set_nth i v l) i = v.
Proof.
  unfold getq. revert i. induction l as [|x r IH]; intros [|j] H; simpl in *;
    try lia; auto. apply IH. lia.
Qed.

Lemma getq_set_nth_other (i j : nat) (v : Q) (l : list Q) :
  i <> j -> getq (set_nth j v l) i = getq l i.
Proof.
  unfold getq. revert i j. induction l as [|x r IH]; intros [|i] [|j] H; simpl;
    try reflexivity; try congruence.
  apply IH. congruence.
Qed.

Section Scan.

Variables (check_mask : bool) (cmask : list Z) (cpos0 dpos0 : list Q).

Let step := scan_step check_mask cmask cpos0 dpos0.

Lemma scan_step_lengths (s : scan_state) (idx : nat) :
  length (s_lower (step s idx)) = length (s_lower s) /\
  length (s_upper (step s idx)) = length (s_upper s).
Proof.
  unfold step, scan_step. destruct (masked check_mask cmask idx); simpl.
  - split; reflexivity.
  - rewrite !set_nth_length. split; reflexivity.
Qed.

Lemma scan_step_keeps (idx x : nat) (s : scan_state) :
  (idx < length (s_lower s))%nat -> (idx < length (s_upper s))%nat ->
  bounds_at cpos0 dpos0 idx s -> bounds_at cpos0 dpos0 idx (step s x).
Proof.
  intros Hl Hu [H1 H2]. unfold step, scan_step, bounds_at.
  destruct (masked check_mask cmask x) eqn:M; simpl; [split; assumption|].
  destruct (Nat.eq_dec idx x) as [->|Hne].
  - rewrite !getq_set_nth_same by assumption. split; reflexivity.
  - rewrite !getq_set_nth_other by assumption. split; assumption.
Qed.

Lemma scan_fold_keeps (idx : nat) (l : list nat) :
  forall s, (idx < length (s_lower s))%nat -> (idx < length (s_upper s))%nat ->
    bounds_at cpos0 dpos0 idx s -> bounds_at cpos0 dpos0 idx (fold_left step l s).
Proof.
  induction l as [|x r IH]; intros s Hl Hu Hb; simpl; [exact Hb|].
  pose proof (scan_step_lengths s x) as [E1 E2].
  apply IH; try (rewrite ?E1, ?E2; assumption).
  apply scan_step_keeps; assumption.
Qed.

Lemma scan_fold_sets (idx : nat) (l : list nat) :
  forall s, (idx < length (s_lower s))%nat -> (idx < length (s_upper s))%nat ->
    In idx l -> masked check_mask cmask idx = false ->
    bounds_at cpos0 dpos0 idx (fold_left step l s).
Proof.
  induction l as [|x r IH]; intros s Hl Hu Hin M; simpl; [destruct Hin|].
  pose proof (scan_step_lengths s x) as [E1 E2].
  destruct (Nat.eq_dec x idx) as [->|Hne].
  - apply scan_fold_keeps; try (rewrite ?E1, ?E2; assumption).
    unfold step, scan_step, bounds_at. rewrite M. simpl.
    rewrite !getq_set_nth_same by assumption. split; reflexivity.
  - destruct Hin as [->|Hin]; [congruence|].
    apply IH; try (rewrite ?E1, ?E2; assumption).
Qed.

(** After the scanning loop, the arrays hold the footprint of every
    unmasked pixel. *)
Lemma scan_bounds (size idx : nat) :
  (idx < size)%nat -> masked check_mask cmask idx = false ->
  bounds_at cpos0 dpos0 idx (scan check_mask cmask cpos0 dpos0 size).
Proof.
  intros Hi M. unfold scan. apply scan_fold_sets; simpl;
    rewrite ?zeros_length; try assumption.
  apply in_seq. lia.
Qed.

(** The scanned range contains the centre of pixel 0 whatever the mask. *)
Lemma scan_fold_contains (c : Q) (l : list nat) :
  forall s, s_min s <= c <= s_max s ->
    s_min (fold_left step l s) <= c <= s_max (fold_left step l s).
Proof.
  induction l as [|x r IH]; intros s H; simpl; [exact H|].
  apply IH. unfold step, scan_step.
  destruct (masked check_mask cmask x); simpl; [exact H|].
  destruct H as [H1 H2]. split.
  - destruct (Qltb _ (s_min s)) eqn:E; [apply Qltb_lt in E; lra | exact H1].
  - destruct (Qltb (s_max s) _) eqn:E; [apply Qltb_lt in E; lra | exact H2].
Qed.

Lemma scan_fold_all_masked (l : list nat) :
  forall s, (forall idx, In idx l -> masked check_mask cmask idx = true) ->
    fold_left step l s = s.
Proof.
  induction l as [|x r IH]; intros s H; simpl; [reflexivity|].
  unfold step at 2, scan_step. rewrite (H x (or_introl eq_refl)).
  apply IH. intros idx Hin. apply H. right. exact Hin.
Qed.

End Scan.

Section Accumulators.

Variable ok : Q -> Prop.
Hypothesis Hok : upward ok.

Lemma pixel_skipped (L : locals) (out : list Q * list Q) (idx : nat) :
  deposited L idx = false -> pixel L out idx = out.
Proof.
  unfold deposited, pixel, fbin0_min_of, fbin0_max_of. intro H.
  destruct (masked _ _ idx); [reflexivity|].
  destruct (is_dummy L _); [reflexivity|].
  destruct (outside_pos1 L idx); [reflexivity|].
  destruct (outside_bins _ _ _); [reflexivity|].
  discriminate.
Qed.

Lemma pixel_deposited (L : locals) (out : list Q * list Q) (idx : nat) (s : Q) :
  (0 < nbins L)%Z ->
  deposited L idx = true ->
  fbin0_min_of L idx <= fbin0_max_of L idx ->
  acc_inv ok (Z.to_nat (nbins L)) s out ->
  acc_inv ok (Z.to_nat (nbins L)) (s + 1) (pixel L out idx).
Proof.
  unfold deposited, pixel, fbin0_min_of, fbin0_max_of. intros Hb H Hle Hinv.
  destruct (masked _ _ idx); [discriminate|].
  destruct (is_dummy L _); [discriminate|].
  destruct (outside_pos1 L idx); [discriminate|].
  destruct (outside_bins _ _ _) eqn:Hout; [discriminate|].
  pose proof (split1d_index_bounds _ _ _ Hb Hout) as [Hmin Hmax].
  apply accumulate_inv; try lia; try exact Hok.
  - apply clamp_order; assumption.
  - apply clamp_split_strict; assumption.
  - apply clamp_deltaL_nonneg.
  - eapply clamp_deltaR_nonneg. exact Hout.
  - exact Hinv.
Qed.

Lemma pixels_inv (L : locals) (l : list nat) :
  (0 < nbins L)%Z ->
  (forall idx, In idx l -> deposited L idx = true ->
               fbin0_min_of L idx <= fbin0_max_of L idx) ->
  forall (s : Q) (out : list Q * list Q),
    acc_inv ok (Z.to_nat (nbins L)) s out ->
    acc_inv ok (Z.to_nat (nbins L)) (s + inject_Z (count_deposited L l))
      (fold_left (pixel L) l out).
Proof.
  intros Hb. induction l as [|x r IH]; intros Hord s out Hinv; simpl.
  - apply (acc_inv_eq ok _ s); [unfold count_deposited; simpl; ring | exact Hinv].
  - assert (Hr : forall idx, In idx r -> deposited L idx = true ->
                   fbin0_min_of L idx <= fbin0_max_of L idx)
      by (intros idx Hin; apply Hord; right; exact Hin).
    unfold count_deposited. simpl. destruct (deposited L x) eqn:D.
    + apply (acc_inv_eq ok _ (s + 1 + inject_Z (count_deposited L r))).
      * unfold count_deposited. simpl length. rewrite Nat2Z.inj_succ.
        unfold Z.succ. rewrite inject_Z_succ. ring.
      * apply IH; [exact Hr|].
        apply pixel_deposited; try assumption.
        apply Hord; [left; reflexivity | exact D].
    + rewrite pixel_skipped by exact D. apply IH; assumption.
Qed.

End Accumulators.

End Hist1dLoop.

Module Hist1dSetup.
Import Hist1d Hist1dFacts Hist1dLoop.

Section Setup.

Variable calc_upper_bound : Q -> Q.

(** What a successful [setup] has established. *)
Lemma setup1d_inv (a : args) (L : locals) :
  setup calc_upper_bound a = Ok L ->
  let sc := scan (check_mask L) (cmask L) (pos0 a) (delta_pos0 a) (size L) in
  nbins L = bins a /\ (1 < bins a)%Z /\
  size L = length (weights a) /\ (0 < size L)%nat /\
  cdata L = weights a /\
  (check_mask L, cmask L)
    = match mask a with Some arr => (true, arr) | None => (false, []) end /\
  (check_dummy L, cdummy L, ddummy L)
    = dummy_config (dummy a) (delta_dummy a) (empty a) /\
  cpos0_lower L = s_lower sc /\ cpos0_upper L = s_upper sc /\
  (pos0_min L, pos0_maxin L) = resolve_range0 (s_min sc) (s_max sc) (pos0Range a) /\
  pos0_max L = calc_upper_bound (pos0_maxin L) /\
  delta L = (pos0_max L - pos0_min L) / inject_Z (bins a).
Proof.
  unfold setup. intro H.
  destruct (bins a <? 0)%Z; [discriminate|].
  apply bind_Ok in H. destruct H as (u1 & _ & H).
  apply bind_Ok in H. destruct H as (u2 & _ & H).
  apply bind_Ok in H. destruct H as (u3 & Hb & H).
  apply py_assert_Ok in Hb. apply Z.ltb_lt in Hb.
  apply bind_Ok in H. destruct H as (m & Hm & H).
  apply optional_mask_Ok in Hm.
  destruct (dummy_config (dummy a) (delta_dummy a) (empty a))
    as [[chk cd] dd] eqn:Hd.
  apply bind_Ok in H. destruct H as (dk & _ & H).
  apply bind_Ok in H. destruct H as (fl & _ & H).
  apply bind_Ok in H. destruct H as (po & _ & H).
  apply bind_Ok in H. destruct H as (sa & _ & H).
  destruct (length (weights a) =? 0)%nat eqn:Hs; [discriminate|].
  apply Nat.eqb_neq in Hs.
  destruct (resolve_range0 _ _ (pos0Range a)) as [pmin pmaxin] eqn:Hr.
  apply bind_Ok in H. destruct H as (p1 & _ & H).
  destruct p1 as [[[[c1 p] d] mn] mx].
  inversion H; subst L; clear H. simpl.
  rewrite Hr. repeat split; try reflexivity; try lia.
  rewrite <- Hm. destruct m; reflexivity.
Qed.

End Setup.

End Hist1dSetup.

(** ** One pixel of [histoBBox2d] *)

Module Hist2dFacts.
Import Hist2d.

Lemma py_index_in (n : nat) (i : Z) :
  (0 <= i < Z.of_nat n)%Z -> py_index n i = Ok (Z.to_nat i).
Proof.
  intro H. unfold py_index.
  destruct (i <? 0)%Z eqn:E; [apply Z.ltb_lt in E; lia|].
  destruct (0 <=? i)%Z eqn:E1; [|apply Z.leb_gt in E1; lia].
  destruct (i <? Z.of_nat n)%Z eqn:E2; [|apply Z.ltb_ge in E2; lia].
  reflexivity.
Qed.

Lemma qdiv_ok (x y : Q) : ~ y == 0 -> qdiv x y = Ok (x / y).
Proof.
  intro H. unfold qdiv. destruct (Qeq_bool y 0) eqn:E; [|reflexivity].
  apply Qeq_bool_iff in E. contradiction.
Qed.

Lemma update_row_shape (n0 n1 i : nat) (f : list Q -> list Q) (m : matrix) :
  (forall r, length r = n1 -> length (f r) = n1) ->
  shape n0 n1 m -> shape n0 n1 (update_row i f m).
Proof.
  intros Hf. revert n0 i.
  induction m as [|r rest IH]; intros n0 i [Hl Hr]; [destruct i; split; assumption|].
  inversion Hr; subst. destruct i as [|k]; simpl.
  - split; [reflexivity|]. constructor; [apply Hf; reflexivity | assumption].
  - destruct (IH (length rest) k) as [E F]; [split; [reflexivity | assumption]|].
    split; [simpl; rewrite E; reflexivity|]. constructor; [reflexivity | exact F].
Qed.

Lemma update_row_Msum (i : nat) (f : list Q -> list Q) (v : Q) (m : matrix) :
  (i < length m)%nat ->
  Qsum (f (nth i m [])) == Qsum (nth i m []) + v ->
  Msum (update_row i f m) == Msum m + v.
Proof.
  unfold Msum. revert i.
  induction m as [|r rest IH]; intros [|k] Hi Hf; simpl in *; try lia.
  - rewrite Hf. ring.
  - rewrite (IH k) by (try lia; exact Hf). ring.
Qed.

Lemma shape_row (n0 n1 i : nat) (m : matrix) :
  shape n0 n1 m -> (i < n0)%nat -> length (nth i m []) = n1.
Proof.
  intros [Hl Hr] Hi. rewrite Forall_forall in Hr. apply Hr.
  apply nth_In. lia.
Qed.

Lemma madd_ok (n0 n1 : nat) (i j : Z) (v : Q) (m : matrix) :
  shape n0 n1 m -> (0 <= i < Z.of_nat n0)%Z -> (0 <= j < Z.of_nat n1)%Z ->
  exists m', madd i j v m = Ok m' /\ shape n0 n1 m' /\ Msum m' == Msum m + v.
Proof.
  intros Hs Hi Hj. unfold madd.
  pose proof Hs as [Hl _].
  rewrite py_index_in by (rewrite Hl; exact Hi). cbn [bind].
  rewrite (shape_row n0 n1 _ m Hs) by lia.
  rewrite py_index_in by exact Hj. cbn [bind].
  eexists. split; [reflexivity|]. split.
  - apply update_row_shape; [|exact Hs].
    intros r Hr. rewrite add_nth_length. exact Hr.
  - apply update_row_Msum; [lia|].
    apply add_nth_Qsum. rewrite (shape_row n0 n1 _ m Hs) by lia. lia.
Qed.

Lemma grid_inv_eq (n0 n1 : nat) (s s' : Q) (out : matrix * matrix) :
  s == s' -> grid_inv n0 n1 s out -> grid_inv n0 n1 s' out.
Proof.
  intros E (H1 & H2 & H3). repeat split; try apply H1; try apply H2.
  rewrite H3. exact E.
Qed.

Lemma deposit_ok (n0 n1 : nat) (s : Q) (i j : Z) (c d : Q) (out : matrix * matrix) :
  (0 <= i < Z.of_nat n0)%Z -> (0 <= j < Z.of_nat n1)%Z ->
  grid_inv n0 n1 s out ->
  exists out', deposit i j c d out = Ok out' /\ grid_inv n0 n1 (s + c) out'.
Proof.
  intros Hi Hj (HD & HC & Hs). destruct out as [oD oC]. simpl in *.
  destruct (madd_ok n0 n1 i j c oC HC Hi Hj) as (oC' & EC & SC & MC).
  destruct (madd_ok n0 n1 i j d oD HD Hi Hj) as (oD' & ED & SD & _).
  unfold deposit. rewrite EC. cbn [bind]. rewrite ED. cbn [bind].
  eexists. split; [reflexivity|].
  repeat split; simpl; try apply SD; try apply SC.
  rewrite MC, Hs. reflexivity.
Qed.

(** A loop over [range(lo, hi)] whose body adds [c] to the total count. *)
Lemma foldM_range_inv (n0 n1 : nat) (f : matrix * matrix -> Z -> result (matrix * matrix))
    (c : Q) (lo hi : Z) :
  (forall i s out, (lo <= i < hi)%Z -> grid_inv n0 n1 s out ->
     exists out', f out i = Ok out' /\ grid_inv n0 n1 (s + c) out') ->
  forall s out, grid_inv n0 n1 s out ->
    exists out', foldM f (Zrange lo hi) out = Ok out' /\
                 grid_inv n0 n1 (s + inject_Z (Z.max 0 (hi - lo)) * c) out'.
Proof.
  revert lo hi. apply (Zrange_ind (fun lo hi =>
    (forall i s out, (lo <= i < hi)%Z -> grid_inv n0 n1 s out ->
       exists out', f out i = Ok out' /\ grid_inv n0 n1 (s + c) out') ->
    forall s out, grid_inv n0 n1 s out ->
      exists out', foldM f (Zrange lo hi) out = Ok out' /\
                   grid_inv n0 n1 (s + inject_Z (Z.max 0 (hi - lo)) * c) out')).
  - intros lo hi Hle _ s out Hinv. rewrite Zrange_nil by exact Hle.
    exists out. split; [reflexivity|].
    replace (Z.max 0 (hi - lo)) with 0%Z by lia.
    apply (grid_inv_eq n0 n1 s); [ring | exact Hinv].
  - intros lo hi Hlt IH Hf s out Hinv. rewrite Zrange_cons by exact Hlt.
    destruct (Hf lo s out ltac:(lia) Hinv) as (out1 & E1 & I1).
    destruct (IH (fun i s out Hi => Hf i s out ltac:(lia)) _ _ I1)
      as (out2 & E2 & I2).
    exists out2. split; [simpl; rewrite E1; exact E2|].
    apply (grid_inv_eq n0 n1 (s + c + inject_Z (Z.max 0 (hi - (lo + 1))) * c));
      [|exact I2].
    replace (Z.max 0 (hi - lo)) with (Z.max 0 (hi - (lo + 1)) + 1)%Z by lia.
    rewrite inject_Z_succ. ring.
Qed.

End Hist2dFacts.

Module Hist2dSplit.
Import Hist2d Hist2dFacts.

Section OnePixel.

Variables (n0 n1 : nat).
Variables (b0min b0max b1min b1max : Z).
Variables (f0min f0max f1min f1max data : Q).

Hypothesis Hb0 : (0 <= b0min)%Z /\ (b0min <= b0max)%Z /\ (b0max < Z.of_nat n0)%Z.
Hypothesis Hb1 : (0 <= b1min)%Z /\ (b1min <= b1max)%Z /\ (b1max < Z.of_nat n1)%Z.
Hypothesis Hf0 : (b0min < b0max)%Z -> f0min < f0max.
Hypothesis Hf1 : (b1min < b1max)%Z -> f1min < f1max.

(** Run the next [deposit] of the goal under the invariant [I]. *)
Ltac run_deposit I I' :=
  match goal with
  | |- context [deposit ?i ?j ?c ?d ?o] =>
      let o' := fresh "o" in
      let E := fresh "E" in
      destruct (deposit_ok n0 n1 _ i j c d o ltac:(lia) ltac:(lia) I)
        as (o' & E & I');
      rewrite E; cbn [bind]; clear E
  end.

Ltac run_loop I I' c body :=
  match goal with
  | |- context [foldM ?f (Zrange ?lo ?hi) ?o] =>
      let o' := fresh "o" in
      let E := fresh "E" in
      destruct (foldM_range_inv n0 n1 f c lo hi body _ o I) as (o' & E & I');
      rewrite E; cbn [bind]; clear E
  end.

(** Lines 488-560: a pixel whose bins lie inside the grid is deposited
    without error, and adds a total count of exactly one. *)
Lemma accumulate_ok (s : Q) (out : matrix * matrix) :
  grid_inv n0 n1 s out ->
  exists out',
    accumulate b0min b0max b1min b1max f0min f0max f1min f1max data out = Ok out'
    /\ grid_inv n0 n1 (s + 1) out'.
Proof.
  intros I0. unfold accumulate.
  destruct (Z.eqb_spec b0min b0max) as [E0|E0];
    destruct (Z.eqb_spec b1min b1max) as [E1|E1].
  - (* one bin *)
    run_deposit I0 J1. eexists. split; [reflexivity | exact J1].
  - (* spread along axis 1 *)
    assert (Hlt : f1min < f1max) by (apply Hf1; lia).
    rewrite qdiv_ok by lra. cbn [bind].
    run_deposit I0 J1. run_deposit J1 J2.
    assert (body : forall i s out, (b1min + 1 <= i < b1max)%Z ->
              grid_inv n0 n1 s out ->
              exists out', deposit b0min i (1 / (f1max - f1min))
                             (data * (1 / (f1max - f1min))) out = Ok out'
                           /\ grid_inv n0 n1 (s + 1 / (f1max - f1min)) out').
    { intros i s' out' Hi I'. apply deposit_ok; [lia | lia | exact I']. }
    run_loop J2 J3 (1 / (f1max - f1min)) body.
    eexists. split; [reflexivity|].
    eapply grid_inv_eq; [|exact J3].
    replace (Z.max 0 (b1max - (b1min + 1))) with (b1max - (b1min + 1))%Z by lia.
    rewrite !inject_Z_sub, !inject_Z_succ. field. lra.
  - (* spread along axis 0 *)
    assert (Hlt : f0min < f0max) by (apply Hf0; lia).
    rewrite qdiv_ok by lra. cbn [bind].
    run_deposit I0 J1. run_deposit J1 J2.
    assert (body : forall i s out, (b0min + 1 <= i < b0max)%Z ->
              grid_inv n0 n1 s out ->
              exists out', deposit i b1min (1 / (f0max - f0min))
                             (data * (1 / (f0max - f0min))) out = Ok out'
                           /\ grid_inv n0 n1 (s + 1 / (f0max - f0min)) out').
    { intros i s' out' Hi I'. apply deposit_ok; [lia | lia | exact I']. }
    run_loop J2 J3 (1 / (f0max - f0min)) body.
    eexists. split; [reflexivity|].
    eapply grid_inv_eq; [|exact J3].
    replace (Z.max 0 (b0max - (b0min + 1))) with (b0max - (b0min + 1))%Z by lia.
    rewrite !inject_Z_sub, !inject_Z_succ. field. lra.
  - (* spread along both axes *)
    assert (Hlt0 : f0min < f0max) by (apply Hf0; lia).
    assert (Hlt1 : f1min < f1max) by (apply Hf1; lia).
    assert (Harea : 0 < (f0max - f0min) * (f1max - f1min)).
    { apply Qmult_lt_0_compat; lra. }
    rewrite qdiv_ok by lra. cbn [bind].
    set (ooa := 1 / ((f0max - f0min) * (f1max - f1min))).
    set (deltaL := inject_Z (b0min + 1) - f0min).
    set (deltaR := f0max - inject_Z b0max).
    set (deltaD := inject_Z (b1min + 1) - f1min).
    set (deltaU := f1max - inject_Z b1max).
    run_deposit I0 J1. run_deposit J1 J2. run_deposit J2 J3. run_deposit J3 J4.
    set (row := ooa * deltaD + inject_Z (Z.max 0 (b1max - (b1min + 1))) * ooa
                + ooa * deltaU).
    assert (inner : forall i s out, (b0min + 1 <= i < b0max)%Z ->
              grid_inv n0 n1 s out ->
              exists out',
                (o <- deposit i b1min (ooa * deltaD) (data * ooa * deltaD) out ;;
                 o <- foldM (fun o j => deposit i j ooa (data * ooa) o)
                        (Zrange (b1min + 1) b1max) o ;;
                 deposit i b1max (ooa * deltaU) (data * ooa * deltaU) o) = Ok out'
                /\ grid_inv n0 n1 (s + row) out').
    { intros i s' out' Hi I'.
      run_deposit I' K1.
      assert (body : forall j s out, (b1min + 1 <= j < b1max)%Z ->
                grid_inv n0 n1 s out ->
                exists out', deposit i j ooa (data * ooa) out = Ok out'
                             /\ grid_inv n0 n1 (s + ooa) out').
      { intros j s'' out'' Hj I''. apply deposit_ok; [lia | lia | exact I'']. }
      run_loop K1 K2 ooa body.
      run_deposit K2 K3.
      eexists. split; [reflexivity|].
      eapply grid_inv_eq; [|exact K3]. unfold row. ring. }
    run_loop J4 J5 row inner.
    assert (outer : forall j s out, (b1min + 1 <= j < b1max)%Z ->
              grid_inv n0 n1 s out ->
              exists out',
                (o <- deposit b0min j (ooa * deltaL) (data * ooa * deltaL) out ;;
                 deposit b0max j (ooa * deltaR) (data * ooa * deltaR) o) = Ok out'
                /\ grid_inv n0 n1 (s + (ooa * deltaL + ooa * deltaR)) out').
    { intros j s' out' Hj I'.
      run_deposit I' K1. run_deposit K1 K2.
      eexists. split; [reflexivity|].
      eapply grid_inv_eq; [|exact K2]. ring. }
    run_loop J5 J6 (ooa * deltaL + ooa * deltaR) outer.
    eexists. split; [reflexivity|].
    eapply grid_inv_eq; [|exact J6].
    unfold row, ooa, deltaL, deltaR, deltaD, deltaU.
    replace (Z.max 0 (b1max - (b1min + 1))) with (b1max - (b1min + 1))%Z by lia.
    replace (Z.max 0 (b0max - (b0min + 1))) with (b0max - (b0min + 1))%Z by lia.
    rewrite !inject_Z_sub, !inject_Z_succ. field. lra.
Qed.

End OnePixel.

End Hist2dSplit.

Module Hist2dPixel.
Import Hist2d Hist2dFacts Hist2dSplit.



(** The two bin indices of an interval of one axis that lies inside the
    active range. *)
Lemma axis_bins (lo hi pmin pmaxin delta : Q) (bins : Z) :
  (0 < bins)%Z -> 0 < delta -> pmaxin < pmin + inject_Z bins * delta ->
  pmin <= lo -> lo <= hi -> hi <= pmaxin ->
  let fmin := get_bin_number lo pmin delta in
  let fmax := get_bin_number hi pmin delta in
  ((0 <= trunc fmin)%Z /\ (trunc fmin <= trunc fmax)%Z /\ (trunc fmax < bins)%Z)
  /\ ((trunc fmin < trunc fmax)%Z -> fmin < fmax).
Proof.
  intros Hb Hd Htop Hlo Hle Hhi fmin fmax.
  assert (H0 : 0 <= fmin) by (apply get_bin_number_nonneg; assumption).
  assert (H1 : fmin <= fmax) by (apply get_bin_number_mono; assumption).
  assert (H2 : fmax < inject_Z bins) by (apply get_bin_number_below; [assumption | lra]).
  assert (H3 : 0 <= fmax) by lra.
  split; [split; [|split]|].
  - apply trunc_nonneg. exact H0.
  - apply trunc_mono; assumption.
  - apply trunc_below; assumption.
  - intro Hlt.
    pose proof (trunc_lt fmin H0) as Ha. pose proof (trunc_le fmax H3) as Hb'.
    assert (inject_Z (trunc fmin) + 1 <= inject_Z (trunc fmax)).
    { rewrite <- inject_Z_succ. apply inject_Z_le. lia. }
    lra.
Qed.


End Hist2dPixel.

(** ** Dummy exclusion *)

(** In [histoBBox1d] a supplied dummy value switches the test on, with a
    tolerance of zero when [delta_dummy] is absent. *)
Lemma dummy_config_1d (d : Q) (dd e : option Q) :
  Hist1d.dummy_config (Some d) dd e
  = (true, d, match dd with Some t => t | None => 0 end).
Proof. destruct dd; reflexivity. Qed.

Lemma is_dummy_1d (L : Hist1d.locals) (w : Q) :
  Hist1d.is_dummy L w = true <->
  Hist1d.check_dummy L = true /\ Qabs (w - Hist1d.cdummy L) <= Hist1d.ddummy L.
Proof.
  unfold Hist1d.is_dummy, fabs. rewrite andb_true_iff, Qle_bool_iff. tauto.
Qed.

(** A pixel that the dummy test excludes leaves both accumulators of
    [histoBBox1d] as they are; the corrections are not evaluated. *)
Lemma dummy_pixel_skipped_1d (L : Hist1d.locals) (out : list Q * list Q) (idx : nat) :
  Hist1d.is_dummy L (getq (Hist1d.cdata L) idx) = true ->
  Hist1d.pixel L out idx = out.
Proof.
  intro H. apply Hist1dLoop.pixel_skipped. unfold Hist1d.deposited.
  rewrite H. destruct (Hist1d.masked _ _ idx); reflexivity.
Qed.

(** In [histoBBox2d] the test is switched on only when [delta_dummy] is
    supplied as well. *)
Lemma dummy_config_2d (d : Q) (dd e : option Q) :
  Hist2d.dummy_config (Some d) dd e
  = Ok (match dd with Some _ => true | None => false end, d,
        match dd with Some t => t | None => 0 end).
Proof. destruct dd; reflexivity. Qed.

(** ** Shapes of the arrays of [histoBBox2d] *)

Module Hist2dShape.
Import Hist2d Hist2dFacts.

Lemma madd_shape (n0 n1 : nat) (i j : Z) (v : Q) (m m' : matrix) :
  madd i j v m = Ok m' -> shape n0 n1 m -> shape n0 n1 m'.
Proof.
  unfold madd. intros H Hs.
  apply bind_Ok in H. destruct H as (r & _ & H).
  apply bind_Ok in H. destruct H as (c & _ & H).
  inversion H; subst m'. apply update_row_shape; [|exact Hs].
  intros row Hr. rewrite add_nth_length. exact Hr.
Qed.

Lemma deposit_shape (n0 n1 : nat) (i j : Z) (c d : Q) (out out' : matrix * matrix) :
  deposit i j c d out = Ok out' -> both_shape n0 n1 out -> both_shape n0 n1 out'.
Proof.
  unfold deposit, both_shape. destruct out as [oD oC]. intros H [HD HC]. simpl in *.
  apply bind_Ok in H. destruct H as (oC' & EC & H).
  apply bind_Ok in H. destruct H as (oD' & ED & H).
  inversion H; subst out'. simpl.
  split; [eapply madd_shape; eassumption | eapply madd_shape; eassumption].
Qed.

Lemma foldM_preserves {A B : Type} (P : A -> Prop) (f : A -> B -> result A) (l : list B) :
  (forall a x a', f a x = Ok a' -> P a -> P a') ->
  forall a a', foldM f l a = Ok a' -> P a -> P a'.
Proof.
  intro Hf. induction l as [|x r IH]; intros a a' H Pa; simpl in H.
  - inversion H; subst. exact Pa.
  - apply bind_Ok in H. destruct H as (a1 & E1 & H).
    eapply IH; [exact H|]. eapply Hf; eassumption.
Qed.

(** Run a [bind] of hypothesis [H] and carry the shapes along. *)
Ltac shape_step H S :=
  match type of H with
  | bind (qdiv _ _) _ = Ok _ =>
      let q := fresh "q" in
      apply bind_Ok in H; destruct H as (q & _ & H)
  | bind (deposit _ _ _ _ _) _ = Ok _ =>
      let o := fresh "o" in
      let E := fresh "E" in
      apply bind_Ok in H; destruct H as (o & E & H);
      apply (deposit_shape _ _ _ _ _ _ _ _ E) in S; clear E
  | deposit _ _ _ _ _ = Ok _ =>
      apply (deposit_shape _ _ _ _ _ _ _ _ H) in S
  end.

Lemma row_loop_shape (n0 n1 : nat) (i : Z) (c d : Q) (l : list Z)
    (out out' : matrix * matrix) :
  foldM (fun o j => deposit i j c d o) l out = Ok out' ->
  both_shape n0 n1 out -> both_shape n0 n1 out'.
Proof.
  apply (foldM_preserves (both_shape n0 n1)).
  intros a x a' H S. shape_step H S. exact S.
Qed.

Lemma col_loop_shape (n0 n1 : nat) (j : Z) (c d : Q) (l : list Z)
    (out out' : matrix * matrix) :
  foldM (fun o i => deposit i j c d o) l out = Ok out' ->
  both_shape n0 n1 out -> both_shape n0 n1 out'.
Proof.
  apply (foldM_preserves (both_shape n0 n1)).
  intros a x a' H S. shape_step H S. exact S.
Qed.

(** Lines 488-560 keep the shape of the accumulators. *)
Lemma accumulate_shape (n0 n1 : nat) (b0min b0max b1min b1max : Z)
    (f0min f0max f1min f1max data : Q) (out out' : matrix * matrix) :
  accumulate b0min b0max b1min b1max f0min f0max f1min f1max data out = Ok out' ->
  both_shape n0 n1 out -> both_shape n0 n1 out'.
Proof.
  unfold accumulate. intros H S.
  destruct (b0min =? b0max)%Z; destruct (b1min =? b1max)%Z.
  - shape_step H S. exact S.
  - shape_step H S. shape_step H S. shape_step H S.
    eapply row_loop_shape; eassumption.
  - shape_step H S. shape_step H S. shape_step H S.
    eapply col_loop_shape; eassumption.
  - shape_step H S. do 4 shape_step H S.
    apply bind_Ok in H. destruct H as (mid & E & H).
    assert (S3 : both_shape n0 n1 mid).
    { revert E S. apply (foldM_preserves (both_shape n0 n1)).
      intros a x a' Ha Sa. shape_step Ha Sa.
      apply bind_Ok in Ha. destruct Ha as (inner & E4 & Ha).
      apply (row_loop_shape n0 n1 _ _ _ _ _ _ E4) in Sa.
      shape_step Ha Sa. exact Sa. }
    revert H S3. apply (foldM_preserves (both_shape n0 n1)).
    intros a x a' Ha Sa. shape_step Ha Sa. shape_step Ha Sa. exact Sa.
Qed.

Lemma pixel_shape (n0 n1 : nat) (L : locals) (out out' : matrix * matrix) (idx : nat) :
  pixel L out idx = Ok out' -> both_shape n0 n1 out -> both_shape n0 n1 out'.
Proof.
  unfold pixel. intros H S.
  destruct (masked _ _ idx); [inversion H; subst; exact S|].
  destruct (is_dummy L _); [inversion H; subst; exact S|].
  apply bind_Ok in H. destruct H as (d & _ & H).
  destruct (outside_range L _ _ _ _); [inversion H; subst; exact S|].
  eapply accumulate_shape; eassumption.
Qed.

Lemma mzeros_shape (n0 n1 : nat) : shape n0 n1 (mzeros n0 n1).
Proof.
  unfold shape, mzeros. split; [apply repeat_length|].
  apply Forall_forall. intros r Hr. apply repeat_spec in Hr. subst r.
  apply zeros_length.
Qed.

Lemma accumulate_all_shape (L : locals) (out : matrix * matrix) :
  accumulate_all L = Ok out ->
  both_shape (Z.to_nat (bins0 L)) (Z.to_nat (bins1 L)) out.
Proof.
  unfold accumulate_all. intro H.
  revert H. intro H.
  eapply (foldM_preserves (both_shape _ _)); [|exact H|].
  - intros a x a'. apply pixel_shape.
  - split; apply mzeros_shape.
Qed.

Lemma mapM_length {A B : Type} (f : A -> result B) (l : list A) :
  forall r, mapM f l = Ok r -> length r = length l.
Proof.
  induction l as [|x t IH]; intros r H; simpl in H.
  - inversion H. reflexivity.
  - apply bind_Ok in H. destruct H as (y & _ & H).
    apply bind_Ok in H. destruct H as (ys & E & H).
    inversion H; subst r. simpl. rewrite (IH ys E). reflexivity.
Qed.

Lemma mapM_nth {A B : Type} (f : A -> result B) (da : A) (db : B) (l : list A) :
  forall r k, mapM f l = Ok r -> (k < length l)%nat ->
    f (nth k l da) = Ok (nth k r db).
Proof.
  induction l as [|x t IH]; intros r k H Hk; simpl in *; [lia|].
  apply bind_Ok in H. destruct H as (y & Ey & H).
  apply bind_Ok in H. destruct H as (ys & E & H).
  inversion H; subst r. destruct k as [|k]; simpl; [exact Ey|].
  apply IH; [exact E | lia].
Qed.

(** Lines 562-567: the merged array has the shape of the accumulators and
    holds the merged value of every bin. *)
Lemma merge_shape (cd nf : Q) (oD oC m : matrix) (b0 b1 : Z) :
  merge cd nf oD oC b0 b1 = Ok m -> shape (Z.to_nat b0) (Z.to_nat b1) m.
Proof.
  unfold merge. intro H. split.
  - rewrite (mapM_length _ _ _ H). apply length_seq.
  - apply Forall_forall. intros row Hrow.
    destruct (In_nth _ _ [] Hrow) as (k & Hk & Ek).
    rewrite (mapM_length _ _ _ H), length_seq in Hk.
    pose proof (mapM_nth _ O [] _ _ k H ltac:(rewrite length_seq; exact Hk)) as E.
    rewrite Ek in E. rewrite (mapM_length _ _ _ E). apply length_seq.
Qed.

Lemma merge_entry (cd nf : Q) (oD oC m : matrix) (b0 b1 : Z) (i j : nat) :
  merge cd nf oD oC b0 b1 = Ok m ->
  (i < Z.to_nat b0)%nat -> (j < Z.to_nat b1)%nat ->
  merge_bin cd nf (mget oD i j) (mget oC i j) = Ok (mget m i j).
Proof.
  unfold merge. intros H Hi Hj.
  pose proof (mapM_nth _ O [] _ _ i H ltac:(rewrite length_seq; exact Hi)) as E.
  rewrite seq_nth in E by exact Hi. simpl in E.
  pose proof (mapM_nth _ O 0 _ _ j E ltac:(rewrite length_seq; exact Hj)) as E'.
  rewrite seq_nth in E' by exact Hj. simpl in E'. exact E'.
Qed.

(** Transposition. *)
Lemma transpose_cols_length (n : nat) (m : matrix) :
  length (transpose_cols n m) = n.
Proof.
  induction n as [|n IH]; simpl; [reflexivity|].
  rewrite length_app, IH. simpl. lia.
Qed.

Lemma transpose_cols_row (n : nat) (m : matrix) (j : nat) :
  (j < n)%nat -> nth j (transpose_cols n m) [] = map (fun row => getq row j) m.
Proof.
  induction n as [|n IH]; intro Hj; [lia|]. simpl.
  destruct (Nat.eq_dec j n) as [->|Hne].
  - rewrite app_nth2 by (rewrite transpose_cols_length; lia).
    rewrite transpose_cols_length, Nat.sub_diag. reflexivity.
  - rewrite app_nth1 by (rewrite transpose_cols_length; lia).
    apply IH. lia.
Qed.

Lemma transpose_cols_shape (n : nat) (m : matrix) :
  shape n (length m) (transpose_cols n m).
Proof.
  split; [apply transpose_cols_length|].
  apply Forall_forall. intros row Hrow.
  destruct (In_nth _ _ [] Hrow) as (k & Hk & Ek).
  rewrite transpose_cols_length in Hk.
  rewrite transpose_cols_row in Ek by exact Hk. subst row. apply length_map.
Qed.

Lemma transpose_cols_get (n : nat) (m : matrix) (i j : nat) :
  (j < n)%nat -> mget (transpose_cols n m) j i = mget m i j.
Proof.
  intro Hj. unfold mget. rewrite transpose_cols_row by exact Hj.
  unfold getq at 1.
  replace 0 with (getq [] j) at 1 by (destruct j; reflexivity).
  apply (map_nth (fun row => getq row j)).
Qed.

Lemma linspace_length (start stop : Q) (num : Z) :
  (0 < num)%Z -> length (linspace start stop num) = Z.to_nat num.
Proof.
  intro H. unfold linspace. destruct (num =? 1)%Z eqn:E.
  - apply Z.eqb_eq in E. subst. reflexivity.
  - rewrite length_map. unfold Zrange. rewrite length_map, length_seq. lia.
Qed.

Lemma clamp_bins_max (b : Z) : clamp_bins b = Z.max 1 b.
Proof.
  unfold clamp_bins. destruct (b <=? 0)%Z eqn:E;
    [apply Z.leb_le in E | apply Z.leb_gt in E]; lia.
Qed.

End Hist2dShape.

Module Hist2dSetup.
Import Hist2d Hist2dFacts Hist2dShape.

Lemma dummy_config_Ok (dummy delta_dummy empty : option Q) (c : bool * Q * Q) :
  dummy_config dummy delta_dummy empty = Ok c ->
  snd (fst c) = match dummy with
                | Some d => d
                | None => match empty with Some e => e | None => 0 end
                end.
Proof.
  unfold dummy_config. destruct dummy as [d|]; [destruct delta_dummy|];
    [| |destruct empty]; intro H; inversion H; reflexivity.
Qed.

Section Setup.

Variable calc_upper_bound : Q -> Q.
Variable pi : Q.

(** What a successful [setup] has established. *)
Lemma setup2d_inv (a : args) (L : locals) :
  setup calc_upper_bound pi a = Ok L ->
  let sc := scan pi (check_mask L) (cmask L) (pos0 a) (delta_pos0 a)
              (pos1 a) (delta_pos1 a) (chiDiscAtPi a) (size L) in
  bins0 L = Z.max 1 (fst (unpack_bins (bins a))) /\
  bins1 L = Z.max 1 (snd (unpack_bins (bins a))) /\
  size L = length (weights a) /\ (0 < size L)%nat /\
  cdata L = weights a /\
  (check_mask L, cmask L)
    = match mask a with Some arr => (true, arr) | None => (false, []) end /\
  dummy_config (dummy a) (delta_dummy a) (empty a)
    = Ok (check_dummy L, cdummy L, ddummy L) /\
  cpos0_lower L = s_lower0 sc /\ cpos0_upper L = s_upper0 sc /\
  cpos1 L = pos1 a /\ dpos1 L = delta_pos1 a /\
  (pos0_min L, pos0_maxin L)
    = resolve_range0 (s_min0 sc) (s_max0 sc) (pos0Range a) (allow_pos0_neg a) /\
  (pos1_min L, pos1_maxin L)
    = resolve_range1 (s_min1 sc) (s_max1 sc) (pos1Range a) /\
  pos0_max L = calc_upper_bound (pos0_maxin L) /\
  pos1_max L = calc_upper_bound (pos1_maxin L) /\
  delta0 L = (pos0_max L - pos0_min L) / inject_Z (bins0 L) /\
  delta1 L = (pos1_max L - pos1_min L) / inject_Z (bins1 L).
Proof.
  unfold setup. intro H.
  apply bind_Ok in H. destruct H as (u1 & _ & H).
  apply bind_Ok in H. destruct H as (u2 & _ & H).
  apply bind_Ok in H. destruct H as (u3 & _ & H).
  apply bind_Ok in H. destruct H as (u4 & _ & H).
  apply bind_Ok in H. destruct H as (m & Hm & H).
  apply optional_mask_Ok in Hm.
  apply bind_Ok in H. destruct H as (dc & Hd & H).
  destruct dc as [[chk cd] dd].
  apply bind_Ok in H. destruct H as (dk & _ & H).
  apply bind_Ok in H. destruct H as (fl & _ & H).
  apply bind_Ok in H. destruct H as (po & _ & H).
  apply bind_Ok in H. destruct H as (sa & _ & H).
  destruct (length (weights a) =? 0)%nat eqn:Hs; [discriminate|].
  apply Nat.eqb_neq in Hs.
  inversion H; subst L; clear H. simpl.
  rewrite !clamp_bins_max.
  repeat split; try reflexivity; try lia; try assumption.
  - rewrite <- Hm. destruct m; reflexivity.
  - destruct (resolve_range0 _ _ _ _); reflexivity.
  - destruct (resolve_range1 _ _ _); reflexivity.
Qed.

(** The steps of a call that returns. *)
Lemma histoBBox2d_inv (a : args) (o : output) :
  histoBBox2d calc_upper_bound pi a = Ok o ->
  exists L oD oC m,
    setup calc_upper_bound pi a = Ok L /\
    accumulate_all L = Ok (oD, oC) /\
    merge (cdummy L) (normalization_factor a) oD oC (bins0 L) (bins1 L) = Ok m /\
    I o = transpose_cols (Z.to_nat (bins1 L)) m /\
    sumData o = transpose_cols (Z.to_nat (bins1 L)) oD /\
    sumCount o = transpose_cols (Z.to_nat (bins1 L)) oC /\
    length (edges0 o) = Z.to_nat (bins0 L) /\
    length (edges1 o) = Z.to_nat (bins1 L).
Proof.
  unfold histoBBox2d. intro H.
  apply bind_Ok in H. destruct H as (L & HL & H).
  apply bind_Ok in H. destruct H as ([oD oC] & Hacc & H).
  apply bind_Ok in H. destruct H as (m & Hm & H).
  inversion H; subst o; clear H. simpl.
  pose proof (setup2d_inv a L HL) as (Hb0 & Hb1 & _).
  exists L, oD, oC, m. repeat split; try assumption; try reflexivity.
  - apply linspace_length. lia.
  - apply linspace_length. lia.
Qed.

(** The bin counts enter [setup] only through their clamped values. *)
Lemma setup_clamped (a : args) :
  setup calc_upper_bound pi
    (set_bins a (BinsPair (Z.max 1 (fst (unpack_bins (bins a))))
                          (Z.max 1 (snd (unpack_bins (bins a))))))
  = setup calc_upper_bound pi a.
Proof.
  unfold setup, set_bins. cbn -[Z.max clamp_bins scan resolve_range0 resolve_range1].
  rewrite !clamp_bins_max, !Z.max_assoc, !Z.max_id. reflexivity.
Qed.

End Setup.

End Hist2dSetup.

Lemma histoBBox1d_inv (calc_upper_bound : Q -> Q) (a : Hist1d.args)
    (o : Hist1d.output) :
  Hist1d.histoBBox1d calc_upper_bound a = Ok o ->
  exists L,
    Hist1d.setup calc_upper_bound a = Ok L /\
    Hist1d.accumulate_all L = (Hist1d.outData o, Hist1d.outCount o) /\
    Hist1d.outMerge o
      = Hist1d.merge (Hist1d.cdummy L) (Hist1d.normalization_factor a)
          (Hist1d.outData o) (Hist1d.outCount o) (Hist1d.nbins L).
Proof.
  unfold Hist1d.histoBBox1d. intro H.
  apply bind_Ok in H. destruct H as (L & HL & H).
  destruct (Hist1d.accumulate_all L) as [oD oC] eqn:E.
  inversion H; subst o; clear H. simpl.
  exists L. repeat split; assumption.
Qed.

Lemma getq_merge (cd nf : Q) (oD oC : list Q) (bins : Z) (b : nat) :
  (b < Z.to_nat bins)%nat ->
  getq (Hist1d.merge cd nf oD oC bins) b
  = Hist1d.merge_bin cd nf (getq oD b) (getq oC b).
Proof.
  intro Hb. unfold Hist1d.merge, getq at 1.
  set (f := fun idx : nat => Hist1d.merge_bin cd nf (getq oD idx) (getq oC idx)).
  transitivity (nth b (map f (seq 0 (Z.to_nat bins))) (f O)).
  - apply nth_indep. rewrite length_map, length_seq. exact Hb.
  - rewrite map_nth, seq_nth by exact Hb. reflexivity.
Qed.

(** ** Range resolution *)

Lemma fold_min_le_acc (l : list Q) : forall x, fold_left Qmin l x <= x.
Proof.
  induction l as [|y r IH]; intro x; simpl; [apply Qle_refl|].
  eapply Qle_trans; [apply IH | apply Q.le_min_l].
Qed.

Lemma fold_min_le_item (l : list Q) :
  forall x y, In y l -> fold_left Qmin l x <= y.
Proof.
  induction l as [|z r IH]; intros x y Hin; simpl; [destruct Hin|].
  destruct Hin as [->|Hin]; [|apply IH; exact Hin].
  eapply Qle_trans; [apply fold_min_le_acc | apply Q.le_min_r].
Qed.

Lemma fold_max_ge_acc (l : list Q) : forall x, x <= fold_left Qmax l x.
Proof.
  induction l as [|y r IH]; intro x; simpl; [apply Qle_refl|].
  eapply Qle_trans; [apply Q.le_max_l | apply IH].
Qed.

Lemma fold_max_ge_item (l : list Q) :
  forall x y, In y l -> y <= fold_left Qmax l x.
Proof.
  induction l as [|z r IH]; intros x y Hin; simpl; [destruct Hin|].
  destruct Hin as [->|Hin]; [|apply IH; exact Hin].
  eapply Qle_trans; [apply Q.le_max_r | apply fold_max_ge_acc].
Qed.

(** [min(r)] and [max(r)] bound every item of [r]. *)
Lemma py_min_max_bound (r : list Q) (x : Q) :
  In x r -> py_min r <= x /\ x <= py_max r.
Proof.
  destruct r as [|y t]; [intros []|]. simpl. intros [->|Hin]; split.
  - apply fold_min_le_acc.
  - apply fold_max_ge_acc.
  - apply fold_min_le_item. exact Hin.
  - apply fold_max_ge_item. exact Hin.
Qed.

Module Hist2dScan.
Import Hist2d.

Section Scan.

Variables (pi : Q) (check_mask : bool) (cmask : list Z).
Variables (cpos0 dpos0 cpos1 dpos1 : list Q) (chiDiscAtPi : bool).

Let step := scan_step pi check_mask cmask cpos0 dpos0 cpos1 dpos1 chiDiscAtPi.

(** The scanned ranges contain whatever they contained before the loop. *)
Lemma scan2d_fold_contains (c0 c1 : Q) (l : list nat) :
  forall s,
    s_min0 s <= c0 <= s_max0 s /\ s_min1 s <= c1 <= s_max1 s ->
    s_min0 (fold_left step l s) <= c0 <= s_max0 (fold_left step l s) /\
    s_min1 (fold_left step l s) <= c1 <= s_max1 (fold_left step l s).
Proof.
  induction l as [|x r IH]; intros s H; simpl; [exact H|].
  apply IH. unfold step, scan_step.
  destruct (masked check_mask cmask x); simpl; [exact H|].
  destruct H as [[A0 B0] [A1 B1]].
  repeat split;
    match goal with
    | |- context [if Qltb ?u ?v then _ else _] =>
        destruct (Qltb u v) eqn:E; [apply Qltb_lt in E; lra | assumption]
    end.
Qed.

Lemma scan2d_fold_all_masked (l : list nat) :
  forall s, (forall idx, In idx l -> masked check_mask cmask idx = true) ->
    fold_left step l s = s.
Proof.
  induction l as [|x r IH]; intros s H; simpl; [reflexivity|].
  unfold step at 2, scan_step. rewrite (H x (or_introl eq_refl)).
  apply IH. intros idx Hin. apply H. right. exact Hin.
Qed.

End Scan.

End Hist2dScan.

(** ** Degenerate footprints and denominators *)

Lemma get_bin_number_eq (x y pmin delta : Q) :
  x == y -> get_bin_number x pmin delta == get_bin_number y pmin delta.
Proof. intro H. unfold get_bin_number. rewrite H. reflexivity. Qed.




Module Hist2dClip.
Import Hist2d Hist2dFacts Hist2dSplit Hist2dPixel.

(** Lines 466-476 on one axis: a footprint that overlaps the range is
    clipped to an interval inside it. *)
Lemma clip_inside (lo hi pmin pmaxin : Q) :
  pmin <= pmaxin -> lo <= hi ->
  Qltb hi pmin = false -> Qltb pmaxin lo = false ->
  pmin <= clip_lower lo pmin /\
  clip_lower lo pmin <= clip_upper hi pmaxin /\
  clip_upper hi pmaxin <= pmaxin.
Proof.
  intros Hr Hf H1 H2. apply Qltb_ge in H1. apply Qltb_ge in H2.
  unfold clip_lower, clip_upper.
  destruct (Qltb lo pmin) eqn:E1; [apply Qltb_lt in E1 | apply Qltb_ge in E1];
    (destruct (Qltb pmaxin hi) eqn:E2;
     [apply Qltb_lt in E2 | apply Qltb_ge in E2]);
    repeat split; lra.
Qed.

(** The bins of a clipped interval, without the assumption that the range
    ends inside the last bin. *)
Lemma clipped_bins (lo hi pmin delta : Q) :
  0 < delta -> pmin <= lo -> lo <= hi ->
  let fmin := get_bin_number lo pmin delta in
  let fmax := get_bin_number hi pmin delta in
  (lo == hi -> fmin == fmax) /\
  (fmin == fmax -> trunc fmin = trunc fmax) /\
  (trunc fmin <> trunc fmax -> 0 < fmax - fmin).
Proof.
  intros Hd Hlo Hle fmin fmax.
  assert (H0 : 0 <= fmin) by (apply get_bin_number_nonneg; assumption).
  assert (H1 : fmin <= fmax) by (apply get_bin_number_mono; assumption).
  assert (H3 : 0 <= fmax) by lra.
  pose proof (trunc_mono fmin fmax H0 H1) as Hm.
  split; [|split].
  - intro Heq. apply get_bin_number_eq. exact Heq.
  - intro Heq.
    assert (E : fmax <= fmin) by (rewrite Heq; apply Qle_refl).
    pose proof (trunc_mono fmax fmin H3 E). lia.
  - intro Hne. assert (Hlt : (trunc fmin < trunc fmax)%Z) by lia.
    pose proof (trunc_lt fmin H0) as Ha. pose proof (trunc_le fmax H3) as Hb.
    assert (inject_Z (trunc fmin) + 1 <= inject_Z (trunc fmax)).
    { rewrite <- inject_Z_succ. apply inject_Z_le. lia. }
    lra.
Qed.


End Hist2dClip.

(** ** The concrete split scenario *)

Lemma trunc_unique (x : Q) (n : Z) :
  inject_Z n <= x -> x < inject_Z n + 1 -> (0 <= n)%Z -> trunc x = n.
Proof.
  intros Hlo Hhi Hn.
  assert (H0 : 0 <= x).
  { eapply Qle_trans; [|exact Hlo].
    change 0 with (inject_Z 0). apply inject_Z_le. exact Hn. }
  pose proof (trunc_le x H0) as A. pose proof (trunc_lt x H0) as B.
  assert (C : inject_Z (trunc x) < inject_Z (n + 1)) by (rewrite inject_Z_succ; lra).
  assert (D : inject_Z n < inject_Z (trunc x + 1)) by (rewrite inject_Z_succ; lra).
  rewrite <- Zlt_Qlt in C, D. lia.
Qed.

Lemma get_bin_number_above (x pmin delta n : Q) :
  0 < delta -> pmin + n * delta <= x -> n <= get_bin_number x pmin delta.
Proof.
  intros Hd Hx. unfold get_bin_number.
  apply Qle_shift_div_l; [exact Hd | lra].
Qed.

Lemma setup_split (calc_upper_bound : Q -> Q) :
  Hist1d.setup calc_upper_bound ex_split = Ok (split_locals (calc_upper_bound 2)).
Proof. reflexivity. Qed.

(** The pixel of [ex_split] is split between bins 0 and 1. *)
Lemma accumulate_split (u : Q) :
  2 <= u -> u <= 2 * (1 + (1 # 1000000)) ->
  let delta := (u - 0) / inject_Z 2 in
  let fmin := get_bin_number (1 - (6 # 10)) 0 delta in
  let fmax := get_bin_number (1 + (6 # 10)) 0 delta in
  1 <= delta <= 1 + (1 # 1000000) /\
  Hist1d.accumulate_all (split_locals u)
  = ([0 + 100 * (1 / (fmax - fmin)) * (inject_Z 1 - fmin);
      0 + 100 * (1 / (fmax - fmin)) * (fmax - inject_Z 1)],
     [0 + 1 / (fmax - fmin) * (inject_Z 1 - fmin);
      0 + 1 / (fmax - fmin) * (fmax - inject_Z 1)]).
Proof.
  intros Hu1 Hu2 delta fmin fmax.
  assert (Ed : delta == u / 2) by (unfold delta; change (inject_Z 2) with 2; field).
  assert (Hd1 : 1 <= delta) by (rewrite Ed; apply Qle_shift_div_l; lra).
  assert (Hd2 : delta <= 1 + (1 # 1000000))
    by (rewrite Ed; apply Qle_shift_div_r; lra).
  split; [split; assumption|].
  assert (Hd : 0 < delta) by lra.
  assert (A1 : 0 <= fmin) by (apply get_bin_number_nonneg; lra).
  assert (A2 : fmin < 1) by (apply get_bin_number_below; lra).
  assert (B1 : 1 <= fmax) by (apply get_bin_number_above; lra).
  assert (B2 : fmax < 2) by (apply get_bin_number_below; lra).
  assert (O : Hist1d.outside_bins 2 fmin fmax = false).
  { unfold Hist1d.outside_bins. apply orb_false_iff. split.
    - apply Qltb_ge. lra.
    - apply Qle_bool_false. change (inject_Z 2) with 2. lra. }
  assert (C1 : Hist1d.clamp_bin0_min fmin = 0%Z).
  { unfold Hist1d.clamp_bin0_min.
    replace (Qltb fmin 0) with false by (symmetry; apply Qltb_ge; lra).
    apply trunc_unique; [exact A1 | change (inject_Z 0) with 0; lra | lia]. }
  assert (C2 : Hist1d.clamp_bin0_max 2 fmax = 1%Z).
  { unfold Hist1d.clamp_bin0_max.
    replace (Qle_bool (inject_Z 2) fmax) with false
      by (symmetry; apply Qle_bool_false; change (inject_Z 2) with 2; lra).
    apply trunc_unique; [exact B1 | change (inject_Z 1) with 1; lra | lia]. }
  unfold Hist1d.accumulate_all. simpl fold_left.
  unfold Hist1d.pixel.
  cbn [Hist1d.masked Hist1d.check_mask split_locals andb Hist1d.is_dummy
       Hist1d.check_dummy Hist1d.outside_pos1 Hist1d.check_pos1 Hist1d.cmask
       Hist1d.cdata Hist1d.cpos0_lower Hist1d.cpos0_upper getq nth
       Hist1d.pos0_min Hist1d.delta Hist1d.nbins Hist1d.corrected
       Hist1d.do_dark Hist1d.do_flat Hist1d.do_polarization
       Hist1d.do_solidangle].
  fold delta. fold fmin fmax.
  rewrite O, C1, C2. reflexivity.
Qed.

(** * Tactics for closed goals *)

(** Closed goals about concrete numbers. *)
Ltac closed :=
  vm_compute;
  repeat match goal with
         | |- _ /\ _ => split
         end;
  first [ reflexivity | discriminate | (intro; discriminate)
        | (let H := fresh "H" in intro H; apply H; reflexivity) ].

(** Name the result [o] of the closed call [t], with [E : t = Ok o]. *)
Ltac evaluate t o E :=
  destruct t as [o|?] eqn:E; [|vm_compute in E; discriminate].

(** Replace [o] by its value in the context. *)
Ltac reveal o E :=
  let E' := fresh "E" in
  pose proof E as E'; vm_compute in E'; injection E' as E'; subst o.

(** Discharge the closed premises of hypothesis [H]. *)
Ltac discharge H :=
  cbv zeta in H;
  repeat match type of H with
         | ?A -> _ =>
             let HA := fresh "HA" in
             assert (HA : A) by closed; specialize (H HA); clear HA
         end.

(** * The properties of the specification *)



(** C2, as the source has it.  After [histoBBox1d] completes, for
    non-negative half-widths and a positive bin width: every count is
    non-negative, there is one count per bin, and the counts sum to the
    number of deposited pixels (unmasked, non-dummy, inside the axis-1
    range, footprint not entirely outside the bins).  Each deposited pixel
    adds exactly one, also when its footprint is clipped by the range; the
    loop visits the indices [0 .. size-1] once each. *)
Theorem count_total_is_deposited_pixels
    (calc_upper_bound : Q -> Q) (a : Hist1d.args) (L : Hist1d.locals)
    (o : Hist1d.output) :
  Hist1d.setup calc_upper_bound a = Ok L ->
  Hist1d.histoBBox1d calc_upper_bound a = Ok o ->
  0 < Hist1d.delta L ->
  (forall idx, (idx < Hist1d.size L)%nat -> 0 <= getq (Hist1d.delta_pos0 a) idx) ->
  Forall (Qle 0) (Hist1d.outCount o) /\
  length (Hist1d.outCount o) = Z.to_nat (Hist1d.bins a) /\
  Qsum (Hist1d.outCount o)
    == inject_Z (Hist1d.count_deposited L (seq 0 (Hist1d.size L))) /\
  NoDup (seq 0 (Hist1d.size L)).
Proof.
  intros Hsetup Hrun Hdelta Hhw.
  pose proof (Hist1dSetup.setup1d_inv calc_upper_bound a L Hsetup)
    as (Hn & Hb & Hsz & Hpos & Hdata & Hmask & Hdum & Hlo & Hup & _).
  unfold Hist1d.histoBBox1d in Hrun. rewrite Hsetup in Hrun. cbn [bind] in Hrun.
  destruct (Hist1d.accumulate_all L) as [oD oC] eqn:Eacc.
  inversion Hrun; subst o; clear Hrun. simpl.
  assert (Hinv : Hist1d.acc_inv (Qle 0) (Z.to_nat (Hist1d.nbins L))
                   (0 + inject_Z (Hist1d.count_deposited L (seq 0 (Hist1d.size L))))
                   (oD, oC)).
  { rewrite <- Eacc. unfold Hist1d.accumulate_all.
    apply Hist1dLoop.pixels_inv.
    - exact upward_nonneg.
    - lia.
    - intros idx Hin Hdep. apply in_seq in Hin.
      unfold Hist1d.fbin0_min_of, Hist1d.fbin0_max_of.
      apply get_bin_number_mono; [exact Hdelta|].
      assert (HM : Hist1d.masked (Hist1d.check_mask L) (Hist1d.cmask L) idx = false).
      { unfold Hist1d.deposited in Hdep.
        destruct (Hist1d.masked _ _ idx); [discriminate | reflexivity]. }
      destruct (Hist1dLoop.scan_bounds (Hist1d.check_mask L) (Hist1d.cmask L)
                  (Hist1d.pos0 a) (Hist1d.delta_pos0 a) (Hist1d.size L) idx
                  ltac:(lia) HM) as [E1 E2].
      rewrite Hlo, Hup, E1, E2.
      specialize (Hhw idx ltac:(lia)). lra.
    - split; [apply zeros_length|]. split; [apply zeros_length|].
      split; [apply zeros_nonneg | apply zeros_Qsum]. }
  destruct Hinv as (_ & Hlen & Hnn & Hsum). simpl in *.
  split; [exact Hnn|]. split; [rewrite Hlen, Hn; reflexivity|].
  split; [rewrite Hsum; ring | apply seq_NoDup].
Qed.

Lemma count_total_is_deposited_pixels_witness :
  exists L o,
    Hist1d.setup calc_upper_bound_eps ex_clipped = Ok L /\
    Hist1d.histoBBox1d calc_upper_bound_eps ex_clipped = Ok o /\
    Forall (Qle 0) (Hist1d.outCount o) /\
    length (Hist1d.outCount o) = 2%nat /\
    Qsum (Hist1d.outCount o) == 1.
Proof.
  eexists. eexists. split; [vm_compute; reflexivity|]. split; [vm_compute; reflexivity|].
  destruct (count_total_is_deposited_pixels calc_upper_bound_eps ex_clipped _ _
              eq_refl eq_refl) as (H1 & H2 & H3 & _).
  - closed.
  - intros [|[|idx]] _; closed.
  - split; [exact H1|]. split; [exact H2|]. rewrite H3. closed.
Defined.

(** C2 as the spec states it fails: a pixel clipped by the range overlaps
    it by less than one, yet [histoBBox1d] gives it a total count of
    one. *)
Lemma clipped_pixel_counts_one :
  exists L o,
    Hist1d.setup calc_upper_bound_eps ex_clipped = Ok L /\
    Hist1d.histoBBox1d calc_upper_bound_eps ex_clipped = Ok o /\
    Qsum (Hist1d.outCount o) == 1 /\
    Hist1d.spec_total_overlap L (Hist1d.pos0_maxin L) == 1 # 2 /\
    Hist1d.spec_total_overlap L (Hist1d.pos0_max L) < 51 # 100 /\
    ~ Qsum (Hist1d.outCount o) == Hist1d.spec_total_overlap L (Hist1d.pos0_maxin L) /\
    ~ Qsum (Hist1d.outCount o) == Hist1d.spec_total_overlap L (Hist1d.pos0_max L).
Proof.
  eexists. eexists. split; [vm_compute; reflexivity|]. split; [vm_compute; reflexivity|].
  closed.
Qed.

(** C3.  The dummy value is supplied without [delta_dummy], and the only
    pixel has the dummy value as its raw weight.  [histoBBox1d] excludes
    the pixel: every count is zero and the bins are filled with the dummy
    value.  [histoBBox2d] deposits it: the counts sum to one. *)
Theorem dummy_without_delta_is_deposited_in_2d :
  (exists o, Hist1d.histoBBox1d calc_upper_bound_eps ex_dummy1d = Ok o /\
             Hist1d.outCount o = [0; 0] /\ Hist1d.outMerge o = [7; 7])
  /\
  (exists o, Hist2d.histoBBox2d calc_upper_bound_eps pi_approx ex_dummy2d = Ok o /\
             Msum (Hist2d.sumCount o) == 1 /\
             mget (Hist2d.sumCount o) 0 0 == 1 /\
             mget (Hist2d.sumData o) 0 0 == 7).
Proof.
  split.
  - eexists. split; [vm_compute; reflexivity|]. closed.
  - eexists. split; [vm_compute; reflexivity|]. closed.
Qed.

(** C4, as the source has it.  [histoBBox2d] clamps each requested bin
    count that is zero or negative up to one: the call behaves exactly as
    the call with the clamped counts, and a result has at least one bin on
    each axis.  [histoBBox1d] does not clamp: a bin count that is zero or
    negative never yields a result, and a count of zero with well-sized
    arrays fails the assertion of line 96. *)
Theorem bin_count_clamped_in_2d_rejected_in_1d :
  (forall (calc_upper_bound : Q -> Q) (pi : Q) (a : Hist2d.args),
      let b0 := Z.max 1 (fst (Hist2d.unpack_bins (Hist2d.bins a))) in
      let b1 := Z.max 1 (snd (Hist2d.unpack_bins (Hist2d.bins a))) in
      Hist2d.histoBBox2d calc_upper_bound pi a
      = Hist2d.histoBBox2d calc_upper_bound pi
          (Hist2d.set_bins a (Hist2d.BinsPair b0 b1))
      /\ (1 <= b0)%Z /\ (1 <= b1)%Z
      /\ forall o, Hist2d.histoBBox2d calc_upper_bound pi a = Ok o ->
           length (Hist2d.edges0 o) = Z.to_nat b0 /\
           length (Hist2d.edges1 o) = Z.to_nat b1 /\
           Hist2d.shape (Z.to_nat b1) (Z.to_nat b0) (Hist2d.I o))
  /\
  (forall (calc_upper_bound : Q -> Q) (a : Hist1d.args),
      (Hist1d.bins a <= 0)%Z ->
      (forall o, Hist1d.histoBBox1d calc_upper_bound a <> Ok o) /\
      (Hist1d.bins a = 0%Z ->
       length (Hist1d.pos0 a) = length (Hist1d.weights a) ->
       length (Hist1d.delta_pos0 a) = length (Hist1d.weights a) ->
       Hist1d.histoBBox1d calc_upper_bound a
       = Raise (AssertionError "at lease one bin"))).
Proof.
  split.
  - intros cub pi a b0 b1. split; [|split; [lia | split; [lia|]]].
    + unfold Hist2d.histoBBox2d. unfold b0, b1.
      rewrite Hist2dSetup.setup_clamped. reflexivity.
    + intros o Ho.
      destruct (Hist2dSetup.histoBBox2d_inv cub pi a o Ho)
        as (L & oD & oC & m & HL & Hacc & Hm & HI & _ & _ & He0 & He1).
      pose proof (Hist2dSetup.setup2d_inv cub pi a L HL) as (Hb0 & Hb1 & _).
      fold b0 in Hb0. fold b1 in Hb1. rewrite <- Hb0, <- Hb1.
      split; [exact He0|]. split; [exact He1|].
      rewrite HI. destruct (Hist2dShape.merge_shape _ _ _ _ _ _ _ Hm) as [Hlen _].
      rewrite <- Hlen. apply Hist2dShape.transpose_cols_shape.
  - intros cub a Hb. split.
    + intros o Ho. destruct (histoBBox1d_inv cub a o Ho) as (L & HL & _).
      pose proof (Hist1dSetup.setup1d_inv cub a L HL) as (_ & Hb' & _). lia.
    + intros Hz Hp Hd. unfold Hist1d.histoBBox1d, Hist1d.setup.
      rewrite Hz, Hp, Hd, Nat.eqb_refl. reflexivity.
Qed.

Lemma bin_count_clamped_in_2d_rejected_in_1d_witness :
  (exists o, Hist2d.histoBBox2d calc_upper_bound_eps pi_approx ex_nobins = Ok o /\
             length (Hist2d.edges0 o) = 1%nat /\
             length (Hist2d.edges1 o) = 1%nat /\
             Hist2d.shape 1 1 (Hist2d.I o))
  /\ Hist1d.histoBBox1d calc_upper_bound_eps ex_zero_bins
     = Raise (AssertionError "at lease one bin").
Proof.
  split.
  - evaluate (Hist2d.histoBBox2d calc_upper_bound_eps pi_approx ex_nobins) o E.
    exists o. split; [reflexivity|].
    apply (proj1 bin_count_clamped_in_2d_rejected_in_1d
             calc_upper_bound_eps pi_approx ex_nobins). exact E.
  - apply (proj2 bin_count_clamped_in_2d_rejected_in_1d
             calc_upper_bound_eps ex_zero_bins); vm_compute;
      first [reflexivity | discriminate].
Defined.

(** C4 as the spec states it fails for [histoBBox1d]: a requested bin
    count of zero is rejected, not clamped. *)
Lemma zero_bins_rejected_in_1d :
  Hist1d.histoBBox1d calc_upper_bound_eps ex_zero_bins
  = Raise (AssertionError "at lease one bin")
  /\ forall o, Hist1d.histoBBox1d calc_upper_bound_eps ex_zero_bins <> Ok o.
Proof.
  split; [vm_compute; reflexivity|].
  intros o H. vm_compute in H. discriminate.
Qed.

(** C5, as the source has it.  When a user range with at least two items
    is supplied, the user-visible maximum is [max(pos0Range)] and the
    rounded maximum is its upper bound, but the minimum is
    [min(pos0Range)] clamped at zero: the clamp of a negative minimum comes
    after the override, always in [histoBBox1d] and unless
    [allow_pos0_neg] is set in [histoBBox2d]. *)
Theorem explicit_range_then_clamp :
  (forall (calc_upper_bound : Q -> Q) (a : Hist1d.args) (L : Hist1d.locals)
          (r : list Q),
      Hist1d.setup calc_upper_bound a = Ok L ->
      Hist1d.pos0Range a = Some r -> (1 < length r)%nat ->
      Hist1d.pos0_min L = (if Qltb (py_min r) 0 then 0 else py_min r) /\
      Hist1d.pos0_maxin L = py_max r /\
      Hist1d.pos0_max L = calc_upper_bound (py_max r) /\
      0 <= Hist1d.pos0_min L)
  /\
  (forall (calc_upper_bound : Q -> Q) (pi : Q) (a : Hist2d.args)
          (L : Hist2d.locals) (r : list Q),
      Hist2d.setup calc_upper_bound pi a = Ok L ->
      Hist2d.pos0Range a = Some r -> (1 < length r)%nat ->
      Hist2d.pos0_min L
      = (if negb (Hist2d.allow_pos0_neg a) && Qltb (py_min r) 0
         then 0 else py_min r) /\
      Hist2d.pos0_maxin L = py_max r /\
      Hist2d.pos0_max L = calc_upper_bound (py_max r)).
Proof.
  split.
  - intros cub a L r HL Hr Hlen.
    pose proof (Hist1dSetup.setup1d_inv cub a L HL)
      as (_ & _ & _ & _ & _ & _ & _ & _ & _ & Hres & Hmax & _).
    unfold Hist1d.resolve_range0, range_given, range_list in Hres.
    rewrite Hr in Hres. apply Nat.ltb_lt in Hlen. rewrite Hlen in Hres.
    inversion Hres as [[Hmin Hmaxin]].
    rewrite Hmax, Hmaxin, Hmin.
    split; [reflexivity|]. split; [reflexivity|]. split; [reflexivity|].
    destruct (Qltb (py_min r) 0) eqn:E; [apply Qle_refl | apply Qltb_ge; exact E].
  - intros cub pi a L r HL Hr Hlen.
    pose proof (Hist2dSetup.setup2d_inv cub pi a L HL)
      as (_ & _ & _ & _ & _ & _ & _ & _ & _ & _ & _ & Hres & _ & Hmax & _).
    unfold Hist2d.resolve_range0, range_given, range_list in Hres.
    rewrite Hr in Hres. apply Nat.ltb_lt in Hlen. rewrite Hlen in Hres.
    inversion Hres as [[Hmin Hmaxin]].
    rewrite Hmax, Hmaxin, Hmin. repeat split.
Qed.

Lemma explicit_range_then_clamp_witness :
  (exists L, Hist1d.setup calc_upper_bound_eps ex_split = Ok L /\
             Hist1d.pos0_min L = 0 /\ Hist1d.pos0_maxin L = 2)
  /\
  (exists L, Hist2d.setup calc_upper_bound_eps pi_approx ex_grid = Ok L /\
             Hist2d.pos0_min L = 0 /\ Hist2d.pos0_maxin L = 2).
Proof.
  split.
  - evaluate (Hist1d.setup calc_upper_bound_eps ex_split) L E.
    exists L. split; [reflexivity|].
    destruct (proj1 explicit_range_then_clamp calc_upper_bound_eps ex_split L
                [0; 2] E eq_refl ltac:(simpl; lia)) as (H1 & H2 & _).
    split; [exact H1 | exact H2].
  - evaluate (Hist2d.setup calc_upper_bound_eps pi_approx ex_grid) L E.
    exists L. split; [reflexivity|].
    destruct (proj2 explicit_range_then_clamp calc_upper_bound_eps pi_approx
                ex_grid L [0; 2] E eq_refl ltac:(simpl; lia)) as (H1 & H2 & _).
    split; [exact H1 | exact H2].
Defined.

(** C5 as the spec states it fails: with [pos0Range = [-1, 2]] the
    resolved minimum is 0, not [min(pos0Range) = -1], in [histoBBox1d] and,
    by default, in [histoBBox2d]. *)
Lemma negative_range_minimum_is_clamped :
  py_min [-1; 2] == -1 /\
  (exists L, Hist1d.setup calc_upper_bound_eps ex_neg_range = Ok L /\
             Hist1d.pos0_min L == 0 /\ ~ Hist1d.pos0_min L == py_min [-1; 2])
  /\
  (exists L, Hist2d.setup calc_upper_bound_eps pi_approx ex_neg_range2d = Ok L /\
             Hist2d.pos0_min L == 0 /\ ~ Hist2d.pos0_min L == py_min [-1; 2]).
Proof.
  split; [closed|]. split.
  - eexists. split; [vm_compute; reflexivity|]. closed.
  - eexists. split; [vm_compute; reflexivity|]. closed.
Qed.

(** C6.  Every bin of the merged output is [sum / count /
    normalization_factor] when its count exceeds [epsilon], and otherwise
    the dummy value, or the empty value when no dummy is configured, or
    zero when neither is. *)
Theorem merged_value_of_every_bin :
  (forall (calc_upper_bound : Q -> Q) (a : Hist1d.args) (o : Hist1d.output),
      Hist1d.histoBBox1d calc_upper_bound a = Ok o ->
      let fill := match Hist1d.dummy a with
                  | Some d => d
                  | None => match Hist1d.empty a with Some e => e | None => 0 end
                  end in
      length (Hist1d.outMerge o) = Z.to_nat (Hist1d.bins a) /\
      forall b, (b < Z.to_nat (Hist1d.bins a))%nat ->
        (epsilon < getq (Hist1d.outCount o) b ->
         getq (Hist1d.outMerge o) b
         == getq (Hist1d.outData o) b / getq (Hist1d.outCount o) b
            / Hist1d.normalization_factor a) /\
        (getq (Hist1d.outCount o) b <= epsilon ->
         getq (Hist1d.outMerge o) b == fill))
  /\
  (forall (calc_upper_bound : Q -> Q) (pi : Q) (a : Hist2d.args) (o : Hist2d.output),
      Hist2d.histoBBox2d calc_upper_bound pi a = Ok o ->
      let fill := match Hist2d.dummy a with
                  | Some d => d
                  | None => match Hist2d.empty a with Some e => e | None => 0 end
                  end in
      let bins0 := Z.max 1 (fst (Hist2d.unpack_bins (Hist2d.bins a))) in
      let bins1 := Z.max 1 (snd (Hist2d.unpack_bins (Hist2d.bins a))) in
      forall i j, (i < Z.to_nat bins0)%nat -> (j < Z.to_nat bins1)%nat ->
        (epsilon < mget (Hist2d.sumCount o) j i ->
         mget (Hist2d.I o) j i
         == mget (Hist2d.sumData o) j i / mget (Hist2d.sumCount o) j i
            / Hist2d.normalization_factor a) /\
        (mget (Hist2d.sumCount o) j i <= epsilon ->
         mget (Hist2d.I o) j i == fill)).
Proof.
  split.
  - intros cub a o Ho fill.
    destruct (histoBBox1d_inv cub a o Ho) as (L & HL & _ & HM).
    pose proof (Hist1dSetup.setup1d_inv cub a L HL)
      as (Hn & _ & _ & _ & _ & _ & Hdum & _).
    assert (Hfill : Hist1d.cdummy L == fill).
    { assert (Hc : Hist1d.cdummy L
                   = snd (fst (Hist1d.dummy_config (Hist1d.dummy a)
                                 (Hist1d.delta_dummy a) (Hist1d.empty a))))
        by (rewrite <- Hdum; reflexivity).
      rewrite Hc. unfold fill, Hist1d.dummy_config.
      destruct (Hist1d.dummy a) as [d|]; [destruct (Hist1d.delta_dummy a)|];
        simpl; try reflexivity.
      destruct (Hist1d.empty a) as [e|]; [|reflexivity].
      destruct (Qeq_bool e 0) eqn:E; [|reflexivity].
      apply Qeq_bool_iff in E. symmetry. exact E. }
    rewrite HM, Hn. split.
    + unfold Hist1d.merge. rewrite length_map, length_seq. reflexivity.
    + intros b Hb. rewrite (getq_merge _ _ _ _ _ _ Hb).
      unfold Hist1d.merge_bin. split; intro Hc.
      * apply Qltb_lt in Hc. rewrite Hc. reflexivity.
      * apply Qltb_ge in Hc. rewrite Hc. exact Hfill.
  - intros cub pi a o Ho fill bins0 bins1 i j Hi Hj.
    destruct (Hist2dSetup.histoBBox2d_inv cub pi a o Ho)
      as (L & oD & oC & m & HL & Hacc & Hm & HI & HD & HC & _).
    pose proof (Hist2dSetup.setup2d_inv cub pi a L HL)
      as (Hb0 & Hb1 & _ & _ & _ & _ & Hdum & _).
    fold bins0 in Hb0. fold bins1 in Hb1.
    pose proof (Hist2dSetup.dummy_config_Ok _ _ _ _ Hdum) as Hfill. simpl in Hfill.
    fold fill in Hfill.
    rewrite HI, HD, HC, Hb1.
    rewrite !Hist2dShape.transpose_cols_get by exact Hj.
    pose proof (Hist2dShape.merge_entry _ _ _ _ _ _ _ i j Hm
                  ltac:(rewrite Hb0; exact Hi) ltac:(rewrite Hb1; exact Hj)) as E.
    unfold Hist2d.merge_bin in E. split; intro Hc.
    + apply Qltb_lt in Hc. rewrite Hc in E.
      apply bind_Ok in E. destruct E as (q & Eq1 & Eq2).
      unfold qdiv in Eq1, Eq2.
      destruct (Qeq_bool (mget oC i j) 0); [discriminate|].
      destruct (Qeq_bool (Hist2d.normalization_factor a) 0); [discriminate|].
      inversion Eq1; subst q. inversion Eq2. reflexivity.
    + apply Qltb_ge in Hc. rewrite Hc in E. inversion E.
      rewrite Hfill. reflexivity.
Qed.

Lemma merged_value_of_every_bin_witness :
  (exists o, Hist1d.histoBBox1d calc_upper_bound_eps ex_dummy1d = Ok o /\
             length (Hist1d.outMerge o) = 2%nat /\
             getq (Hist1d.outMerge o) 0 == 7)
  /\
  (exists o, Hist2d.histoBBox2d calc_upper_bound_eps pi_approx ex_grid = Ok o /\
             mget (Hist2d.I o) 1 0
             == mget (Hist2d.sumData o) 1 0 / mget (Hist2d.sumCount o) 1 0 / 1 /\
             mget (Hist2d.I o) 2 0 == 7).
Proof.
  split.
  - evaluate (Hist1d.histoBBox1d calc_upper_bound_eps ex_dummy1d) o E.
    exists o. split; [reflexivity|].
    destruct (proj1 merged_value_of_every_bin calc_upper_bound_eps ex_dummy1d o E)
      as [Hlen Hbin].
    split; [exact Hlen|].
    specialize (Hbin 0%nat ltac:(vm_compute; lia)). reveal o E.
    apply (proj2 Hbin). closed.
  - evaluate (Hist2d.histoBBox2d calc_upper_bound_eps pi_approx ex_grid) o E.
    exists o. split; [reflexivity|].
    pose proof (proj2 merged_value_of_every_bin calc_upper_bound_eps pi_approx
                  ex_grid o E) as Hbin.
    pose proof (Hbin 0%nat 1%nat ltac:(vm_compute; lia) ltac:(vm_compute; lia)) as H1.
    pose proof (Hbin 0%nat 2%nat ltac:(vm_compute; lia) ltac:(vm_compute; lia)) as H2.
    clear Hbin. reveal o E. split.
    + apply (proj1 H1). closed.
    + apply (proj2 H2). closed.
Defined.

(** C7, as the source has it.  The accumulators and the merged array of
    [histoBBox2d] are [bins0] by [bins1], axis 0 first; the three arrays it
    returns are their transposes, [bins1] by [bins0]: entry [[j][i]] of a
    returned array is entry [[i][j]] of the array inside. *)
Theorem returned_arrays_are_bins1_by_bins0
    (calc_upper_bound : Q -> Q) (pi : Q) (a : Hist2d.args) (o : Hist2d.output) :
  Hist2d.histoBBox2d calc_upper_bound pi a = Ok o ->
  exists L oD oC outMerge,
    Hist2d.setup calc_upper_bound pi a = Ok L /\
    Hist2d.accumulate_all L = Ok (oD, oC) /\
    Hist2d.merge (Hist2d.cdummy L) (Hist2d.normalization_factor a) oD oC
      (Hist2d.bins0 L) (Hist2d.bins1 L) = Ok outMerge /\
    let n0 := Z.to_nat (Hist2d.bins0 L) in
    let n1 := Z.to_nat (Hist2d.bins1 L) in
    (Hist2d.shape n0 n1 oD /\ Hist2d.shape n0 n1 oC /\
     Hist2d.shape n0 n1 outMerge) /\
    (Hist2d.shape n1 n0 (Hist2d.I o) /\ Hist2d.shape n1 n0 (Hist2d.sumData o) /\
     Hist2d.shape n1 n0 (Hist2d.sumCount o)) /\
    (forall i j, (j < n1)%nat ->
       mget (Hist2d.I o) j i = mget outMerge i j /\
       mget (Hist2d.sumData o) j i = mget oD i j /\
       mget (Hist2d.sumCount o) j i = mget oC i j).
Proof.
  intro Ho.
  destruct (Hist2dSetup.histoBBox2d_inv calc_upper_bound pi a o Ho)
    as (L & oD & oC & m & HL & Hacc & Hm & HI & HD & HC & _).
  exists L, oD, oC, m. split; [exact HL|]. split; [exact Hacc|]. split; [exact Hm|].
  intros n0 n1.
  destruct (Hist2dShape.accumulate_all_shape L _ Hacc) as [SD SC]. simpl in SD, SC.
  pose proof (Hist2dShape.merge_shape _ _ _ _ _ _ _ Hm) as SM.
  split; [split; [exact SD | split; [exact SC | exact SM]]|].
  split.
  - rewrite HI, HD, HC. unfold n0.
    destruct SD as [LD _]. destruct SC as [LC _]. destruct SM as [LM _].
    split; [|split].
    + rewrite <- LM. apply Hist2dShape.transpose_cols_shape.
    + rewrite <- LD. apply Hist2dShape.transpose_cols_shape.
    + rewrite <- LC. apply Hist2dShape.transpose_cols_shape.
  - intros i j Hj. rewrite HI, HD, HC.
    rewrite !Hist2dShape.transpose_cols_get by exact Hj.
    repeat split; reflexivity.
Qed.

Lemma returned_arrays_are_bins1_by_bins0_witness :
  exists o,
    Hist2d.histoBBox2d calc_upper_bound_eps pi_approx ex_grid = Ok o /\
    Hist2d.shape 3 2 (Hist2d.I o) /\ Hist2d.shape 3 2 (Hist2d.sumData o) /\
    Hist2d.shape 3 2 (Hist2d.sumCount o).
Proof.
  evaluate (Hist2d.histoBBox2d calc_upper_bound_eps pi_approx ex_grid) o E.
  exists o. split; [reflexivity|].
  destruct (returned_arrays_are_bins1_by_bins0 calc_upper_bound_eps pi_approx
              ex_grid o E)
    as (L & oD & oC & m & HL & _ & _ & _ & HS & _).
  reveal L HL. exact HS.
Defined.

(** C7 as the spec states it fails: for [bins = (2, 3)] the returned
    arrays have three rows of two entries, not two rows of three. *)
Lemma returned_shape_is_not_bins0_by_bins1 :
  exists o,
    Hist2d.histoBBox2d calc_upper_bound_eps pi_approx ex_grid = Ok o /\
    length (Hist2d.I o) = 3%nat /\
    ~ Hist2d.shape 2 3 (Hist2d.I o) /\
    ~ Hist2d.shape 2 3 (Hist2d.sumData o) /\
    ~ Hist2d.shape 2 3 (Hist2d.sumCount o).
Proof.
  eexists. split; [vm_compute; reflexivity|].
  split; [vm_compute; reflexivity|].
  repeat split; intros [H _]; vm_compute in H; discriminate.
Qed.

(** C8.  One pixel of weight 100 at [pos0 = 1.0] with half-width 0.6, two
    bins over [pos0Range = [0, 2]]: whenever the rounded maximum
    [calc_upper_bound 2] lies between 2 and 2 (1 + 1e-6), [histoBBox1d]
    gives each of the two bins half of the count and half of the weight,
    within 1e-6 of 0.5 and 1e-4 of 50. *)
Theorem concrete_split_scenario (calc_upper_bound : Q -> Q) :
  2 <= calc_upper_bound 2 ->
  calc_upper_bound 2 <= 2 * (1 + (1 # 1000000)) ->
  exists o,
    Hist1d.histoBBox1d calc_upper_bound ex_split = Ok o /\
    length (Hist1d.outCount o) = 2%nat /\ length (Hist1d.outData o) = 2%nat /\
    Qabs (getq (Hist1d.outCount o) 0 - (1 # 2)) <= 1 # 1000000 /\
    Qabs (getq (Hist1d.outCount o) 1 - (1 # 2)) <= 1 # 1000000 /\
    Qabs (getq (Hist1d.outData o) 0 - 50) <= 1 # 10000 /\
    Qabs (getq (Hist1d.outData o) 1 - 50) <= 1 # 10000.
Proof.
  intros Hu1 Hu2.
  destruct (accumulate_split (calc_upper_bound 2) Hu1 Hu2) as [[Hd1 Hd2] Hacc].
  unfold Hist1d.histoBBox1d. rewrite setup_split. cbn [bind].
  rewrite Hacc. eexists. split; [reflexivity|].
  cbn [Hist1d.outCount Hist1d.outData length getq nth].
  set (delta := (calc_upper_bound 2 - 0) / inject_Z 2) in *.
  assert (Hd : ~ delta == 0) by lra.
  assert (E0 : 0 + 1 / (get_bin_number (1 + (6 # 10)) 0 delta
                        - get_bin_number (1 - (6 # 10)) 0 delta)
                   * (inject_Z 1 - get_bin_number (1 - (6 # 10)) 0 delta)
               == (delta - (4 # 10)) * (10 # 12)).
  { unfold get_bin_number. change (inject_Z 1) with 1. field. exact Hd. }
  assert (E1 : 0 + 1 / (get_bin_number (1 + (6 # 10)) 0 delta
                        - get_bin_number (1 - (6 # 10)) 0 delta)
                   * (get_bin_number (1 + (6 # 10)) 0 delta - inject_Z 1)
               == ((16 # 10) - delta) * (10 # 12)).
  { unfold get_bin_number. change (inject_Z 1) with 1. field. exact Hd. }
  assert (F0 : 0 + 100 * (1 / (get_bin_number (1 + (6 # 10)) 0 delta
                              - get_bin_number (1 - (6 # 10)) 0 delta))
                   * (inject_Z 1 - get_bin_number (1 - (6 # 10)) 0 delta)
               == 100 * ((delta - (4 # 10)) * (10 # 12))).
  { unfold get_bin_number. change (inject_Z 1) with 1. field. exact Hd. }
  assert (F1 : 0 + 100 * (1 / (get_bin_number (1 + (6 # 10)) 0 delta
                              - get_bin_number (1 - (6 # 10)) 0 delta))
                   * (get_bin_number (1 + (6 # 10)) 0 delta - inject_Z 1)
               == 100 * (((16 # 10) - delta) * (10 # 12))).
  { unfold get_bin_number. change (inject_Z 1) with 1. field. exact Hd. }
  rewrite E0, E1, F0, F1.
  clearbody delta. clear Hacc.
  split; [reflexivity|]. split; [reflexivity|].
  repeat split; apply Qabs_Qle_condition; split; lra.
Qed.

Lemma concrete_split_scenario_witness :
  exists o,
    Hist1d.histoBBox1d calc_upper_bound_eps ex_split = Ok o /\
    Qabs (getq (Hist1d.outCount o) 0 - (1 # 2)) <= 1 # 1000000 /\
    Qabs (getq (Hist1d.outCount o) 1 - (1 # 2)) <= 1 # 1000000 /\
    Qabs (getq (Hist1d.outData o) 0 - 50) <= 1 # 10000 /\
    Qabs (getq (Hist1d.outData o) 1 - 50) <= 1 # 10000.
Proof.
  destruct (concrete_split_scenario calc_upper_bound_eps
              ltac:(closed) ltac:(closed))
    as (o & E & _ & _ & H).
  exists o. split; [exact E | exact H].
Defined.



(** C10, as the source has it.  With no user range, the scanned range
    starts at the centre of pixel 0 before the mask is read, so the
    user-visible maximum is never below that centre, and the resolved
    minimum is never above it when the centre is non-negative (or, in two
    dimensions, when [allow_pos0_neg] is set); on axis 1 the resolved range
    always contains the centre.  When every pixel is masked, the
    user-visible maximum is the centre and the minimum is the centre
    clamped at zero on axis 0, and both are the centre on axis 1. *)
Theorem first_pixel_centre_in_natural_range :
  (forall (calc_upper_bound : Q -> Q) (a : Hist1d.args) (L : Hist1d.locals),
      Hist1d.setup calc_upper_bound a = Ok L ->
      range_given (Hist1d.pos0Range a) = false ->
      let c := getq (Hist1d.pos0 a) 0 in
      c <= Hist1d.pos0_maxin L /\
      (0 <= c -> Hist1d.pos0_min L <= c) /\
      ((forall idx, (idx < Hist1d.size L)%nat ->
          Hist1d.masked (Hist1d.check_mask L) (Hist1d.cmask L) idx = true) ->
       Hist1d.pos0_maxin L = c /\
       Hist1d.pos0_min L = (if Qltb c 0 then 0 else c)))
  /\
  (forall (calc_upper_bound : Q -> Q) (pi : Q) (a : Hist2d.args)
          (L : Hist2d.locals),
      Hist2d.setup calc_upper_bound pi a = Ok L ->
      let c0 := getq (Hist2d.pos0 a) 0 in
      let c1 := getq (Hist2d.pos1 a) 0 in
      let all_masked :=
        forall idx, (idx < Hist2d.size L)%nat ->
          Hist2d.masked (Hist2d.check_mask L) (Hist2d.cmask L) idx = true in
      (range_given (Hist2d.pos0Range a) = false ->
       c0 <= Hist2d.pos0_maxin L /\
       (Hist2d.allow_pos0_neg a = true \/ 0 <= c0 -> Hist2d.pos0_min L <= c0) /\
       (all_masked ->
        Hist2d.pos0_maxin L = c0 /\
        Hist2d.pos0_min L
        = (if negb (Hist2d.allow_pos0_neg a) && Qltb c0 0 then 0 else c0)))
      /\
      (range_given (Hist2d.pos1Range a) = false ->
       Hist2d.pos1_min L <= c1 <= Hist2d.pos1_maxin L /\
       (all_masked -> Hist2d.pos1_min L = c1 /\ Hist2d.pos1_maxin L = c1))).
Proof.
  split.
  - intros cub a L HL Hr c.
    pose proof (Hist1dSetup.setup1d_inv cub a L HL)
      as (_ & _ & _ & _ & _ & _ & _ & _ & _ & Hres & _).
    unfold Hist1d.resolve_range0 in Hres. rewrite Hr in Hres.
    inversion Hres as [[Hmin Hmaxin]]. clear Hres.
    unfold Hist1d.scan.
    pose proof (Hist1dLoop.scan_fold_contains (Hist1d.check_mask L)
                  (Hist1d.cmask L) (Hist1d.pos0 a) (Hist1d.delta_pos0 a) c
                  (seq 0 (Hist1d.size L))
                  {| Hist1d.s_min := c; Hist1d.s_max := c;
                     Hist1d.s_lower := zeros (Hist1d.size L);
                     Hist1d.s_upper := zeros (Hist1d.size L) |}
                  (conj (Qle_refl c) (Qle_refl c))) as [Hlo Hhi].
    rewrite Hmin, Hmaxin. unfold Hist1d.scan. fold c.
    split; [exact Hhi|]. split.
    + intro Hc. destruct (Qltb _ 0) eqn:E; [exact Hc | exact Hlo].
    + intro Hall.
      rewrite Hist1dLoop.scan_fold_all_masked
        by (intros idx Hin; apply Hall; apply in_seq in Hin; lia).
      simpl. split; reflexivity.
  - intros cub pi a L HL c0 c1 all_masked.
    pose proof (Hist2dSetup.setup2d_inv cub pi a L HL)
      as (_ & _ & _ & _ & _ & _ & _ & _ & _ & _ & _ & Hres0 & Hres1 & _).
    unfold Hist2d.scan in Hres0, Hres1.
    pose proof (Hist2dScan.scan2d_fold_contains pi (Hist2d.check_mask L)
                  (Hist2d.cmask L) (Hist2d.pos0 a) (Hist2d.delta_pos0 a)
                  (Hist2d.pos1 a) (Hist2d.delta_pos1 a) (Hist2d.chiDiscAtPi a)
                  c0 c1 (seq 0 (Hist2d.size L))
                  {| Hist2d.s_min0 := c0; Hist2d.s_max0 := c0;
                     Hist2d.s_min1 := c1; Hist2d.s_max1 := c1;
                     Hist2d.s_lower0 := zeros (Hist2d.size L);
                     Hist2d.s_upper0 := zeros (Hist2d.size L);
                     Hist2d.s_lower1 := zeros (Hist2d.size L);
                     Hist2d.s_upper1 := zeros (Hist2d.size L) |}
                  (conj (conj (Qle_refl c0) (Qle_refl c0))
                        (conj (Qle_refl c1) (Qle_refl c1))))
      as [[Hlo0 Hhi0] [Hlo1 Hhi1]].
    fold c0 c1 in Hres0, Hres1.
    split.
    + intro Hr. unfold Hist2d.resolve_range0 in Hres0. rewrite Hr in Hres0.
      inversion Hres0 as [[Hmin Hmaxin]]. clear Hres0 Hres1.
      rewrite Hmin, Hmaxin.
      split; [exact Hhi0|]. split.
      * intros Hc.
        destruct (negb (Hist2d.allow_pos0_neg a) && Qltb _ 0) eqn:E;
          [|exact Hlo0].
        apply andb_true_iff in E. destruct E as [E1 E2].
        apply negb_true_iff in E1. destruct Hc as [Hc|Hc]; [congruence | exact Hc].
      * intro Hall.
        rewrite Hist2dScan.scan2d_fold_all_masked
          by (intros idx Hin; apply Hall; apply in_seq in Hin; lia).
        simpl. split; reflexivity.
    + intro Hr. unfold Hist2d.resolve_range1 in Hres1. rewrite Hr in Hres1.
      inversion Hres1 as [[Hmin Hmaxin]]. clear Hres0 Hres1.
      rewrite Hmin, Hmaxin.
      split; [split; assumption|].
      intro Hall.
      rewrite Hist2dScan.scan2d_fold_all_masked
        by (intros idx Hin; apply Hall; apply in_seq in Hin; lia).
      simpl. split; reflexivity.
Qed.

Lemma first_pixel_centre_in_natural_range_witness :
  (exists L, Hist1d.setup calc_upper_bound_eps ex_masked_first = Ok L /\
             3 <= Hist1d.pos0_maxin L /\ Hist1d.pos0_min L <= 3)
  /\
  (exists L, Hist2d.setup calc_upper_bound_eps pi_approx ex_masked_first2d = Ok L /\
             3 <= Hist2d.pos0_maxin L /\ Hist2d.pos0_min L <= 3 /\
             Hist2d.pos1_min L <= 2 <= Hist2d.pos1_maxin L).
Proof.
  split.
  - evaluate (Hist1d.setup calc_upper_bound_eps ex_masked_first) L E.
    exists L. split; [reflexivity|].
    destruct (proj1 first_pixel_centre_in_natural_range calc_upper_bound_eps
                ex_masked_first L E eq_refl) as (H1 & H2 & _).
    split; [exact H1|]. apply H2. closed.
  - evaluate (Hist2d.setup calc_upper_bound_eps pi_approx ex_masked_first2d) L E.
    exists L. split; [reflexivity|].
    destruct (proj2 first_pixel_centre_in_natural_range calc_upper_bound_eps
                pi_approx ex_masked_first2d L E) as (H0 & H1).
    destruct (H0 eq_refl) as (A & B & _). destruct (H1 eq_refl) as (C & _).
    split; [exact A|]. split; [|exact C].
    apply B. right. closed.
Defined.

(** C10 as the spec states it fails: a single masked pixel whose centre is
    -1 on axis 0.  The resolved range of [histoBBox1d] is [[0, -1]]: it
    neither contains the centre nor degenerates to it. *)
Lemma masked_negative_centre_not_in_range :
  exists L,
    Hist1d.setup calc_upper_bound_eps ex_masked_neg = Ok L /\
    getq (Hist1d.pos0 ex_masked_neg) 0 == -1 /\
    Hist1d.masked (Hist1d.check_mask L) (Hist1d.cmask L) 0 = true /\
    Hist1d.pos0_min L == 0 /\ Hist1d.pos0_maxin L == -1 /\
    ~ (Hist1d.pos0_min L <= getq (Hist1d.pos0 ex_masked_neg) 0) /\
    ~ (Hist1d.pos0_min L == getq (Hist1d.pos0 ex_masked_neg) 0).
Proof.
  eexists. split; [vm_compute; reflexivity|]. closed.
Qed.

(** * Properties beyond the specification *)

(** Discharge the next premise of hypothesis [H] with [tac]. *)
Ltac premise H tac :=
  match type of H with
  | ?A -> _ =>
      let HA := fresh "HA" in
      assert (HA : A) by tac; specialize (H HA); clear HA
  end.

(** ** [histoBBox1d]: the weighted sums *)

Lemma lin1d_add (n : nat) (data k : Q) (i : Z) (d c : Q) (oD oC : list Q) :
  (0 <= i < Z.of_nat n)%Z -> d == data * c ->
  lin1d n data k (oD, oC) ->
  lin1d n data k (add_at i d oD, add_at i c oC).
Proof.
  intros Hi Hd (H1 & H2 & H3). unfold lin1d. simpl in *.
  split; [rewrite add_at_length; exact H1|].
  split; [rewrite add_at_length; exact H2|].
  rewrite !add_at_Qsum by lia. rewrite Hd, <- H3. ring.
Qed.

Lemma lin1d_interior (n : nat) (data k d c : Q) (lo hi : Z) :
  d == data * c ->
  forall out : list Q * list Q,
    (0 <= lo)%Z -> (hi <= Z.of_nat n)%Z ->
    lin1d n data k out ->
    lin1d n data k
      (fold_left (fun o idx => (add_at idx d (fst o), add_at idx c (snd o)))
         (Zrange lo hi) out).
Proof.
  intro Hd. revert lo hi. apply (Zrange_ind (fun lo hi => forall out,
    (0 <= lo)%Z -> (hi <= Z.of_nat n)%Z -> lin1d n data k out ->
    lin1d n data k
      (fold_left (fun o idx => (add_at idx d (fst o), add_at idx c (snd o)))
         (Zrange lo hi) out))).
  - intros lo hi Hle out _ _ H. rewrite Zrange_nil by exact Hle. exact H.
  - intros lo hi Hlt IH out Hlo Hhi H. rewrite Zrange_cons by exact Hlt. simpl.
    destruct out as [oD oC].
    apply IH; try lia. apply lin1d_add; [lia | exact Hd | exact H].
Qed.

(** Lines 227-248: whatever the branch, the weight deposited in each bin is
    [data] times the count deposited there. *)
Lemma accumulate_lin1d (n : nat) (k : Q) (bmin bmax : Z) (fmin fmax data : Q)
    (out : list Q * list Q) :
  (0 <= bmin < Z.of_nat n)%Z -> (0 <= bmax < Z.of_nat n)%Z ->
  lin1d n data k out ->
  lin1d n data k (Hist1d.accumulate bmin bmax fmin fmax data out).
Proof.
  intros Hmin Hmax H. unfold Hist1d.accumulate. destruct out as [oD oC].
  destruct (bmin =? bmax)%Z.
  - apply lin1d_add; [exact Hmin | ring | exact H].
  - assert (H2 : lin1d n data k
             (add_at bmax (data * (1 / (fmax - fmin)) * (fmax - inject_Z bmax))
                (add_at bmin (data * (1 / (fmax - fmin))
                              * (inject_Z (bmin + 1) - fmin)) oD),
              add_at bmax (1 / (fmax - fmin) * (fmax - inject_Z bmax))
                (add_at bmin (1 / (fmax - fmin)
                              * (inject_Z (bmin + 1) - fmin)) oC))).
    { apply lin1d_add; [exact Hmax | ring|].
      apply lin1d_add; [exact Hmin | ring | exact H]. }
    destruct (bmin + 1 <? bmax)%Z; [|exact H2].
    apply lin1d_interior; [ring | lia | lia | exact H2].
Qed.

Lemma pixel_deposited_eq (L : Hist1d.locals) (out : list Q * list Q) (idx : nat) :
  Hist1d.deposited L idx = true ->
  Hist1d.pixel L out idx
  = Hist1d.accumulate
      (Hist1d.clamp_bin0_min (Hist1d.fbin0_min_of L idx))
      (Hist1d.clamp_bin0_max (Hist1d.nbins L) (Hist1d.fbin0_max_of L idx))
      (Hist1d.fbin0_min_of L idx) (Hist1d.fbin0_max_of L idx)
      (Hist1d.corrected L idx (getq (Hist1d.cdata L) idx)) out.
Proof.
  unfold Hist1d.deposited, Hist1d.pixel, Hist1d.fbin0_min_of, Hist1d.fbin0_max_of.
  intro H.
  destruct (Hist1d.masked _ _ idx); [discriminate|].
  destruct (Hist1d.is_dummy L _); [discriminate|].
  destruct (Hist1d.outside_pos1 L idx); [discriminate|].
  destruct (Hist1d.outside_bins _ _ _); [discriminate|].
  reflexivity.
Qed.

Lemma deposited_outside_bins (L : Hist1d.locals) (idx : nat) :
  Hist1d.deposited L idx = true ->
  Hist1d.outside_bins (Hist1d.nbins L) (Hist1d.fbin0_min_of L idx)
    (Hist1d.fbin0_max_of L idx) = false.
Proof.
  unfold Hist1d.deposited. intro H.
  apply andb_true_iff in H. destruct H as [_ H].
  apply negb_true_iff in H. exact H.
Qed.




(** ** [histoBBox1d]: argument checks and array bounds *)

Lemma optional_array_Ok (o : option (list Q)) (size : nat) (msg : string)
    (r : bool * list Q) :
  optional_array o size msg = Ok r -> opt_sized o size.
Proof.
  unfold optional_array, opt_sized. destruct o as [arr|]; [|trivial].
  intro H. apply bind_Ok in H. destruct H as (u & Hu & _).
  apply py_assert_Ok in Hu. apply Nat.eqb_eq. exact Hu.
Qed.

Lemma optional_array_sized (o : option (list Q)) (size : nat) (msg : string) :
  opt_sized o size -> exists r, optional_array o size msg = Ok r.
Proof.
  unfold optional_array, opt_sized. destruct o as [arr|]; intro H.
  - rewrite H, Nat.eqb_refl. eexists. reflexivity.
  - eexists. reflexivity.
Qed.

Lemma optional_mask_sized_Ok (o : option (list Z)) (size : nat) (r : bool * list Z) :
  optional_mask o size = Ok r -> opt_sized o size.
Proof.
  unfold optional_mask, opt_sized. destruct o as [arr|]; [|trivial].
  intro H. apply bind_Ok in H. destruct H as (u & Hu & _).
  apply py_assert_Ok in Hu. apply Nat.eqb_eq. exact Hu.
Qed.

Lemma optional_mask_sized (o : option (list Z)) (size : nat) :
  opt_sized o size -> exists r, optional_mask o size = Ok r.
Proof.
  unfold optional_mask, opt_sized. destruct o as [arr|]; intro H.
  - rewrite H, Nat.eqb_refl. eexists. reflexivity.
  - eexists. reflexivity.
Qed.

(** A call that returns has passed every check. *)
Lemma setup1d_checks (calc_upper_bound : Q -> Q) (a : Hist1d.args)
    (L : Hist1d.locals) :
  Hist1d.setup calc_upper_bound a = Ok L -> checks1d a.
Proof.
  unfold Hist1d.setup, checks1d. intro H.
  destruct (Hist1d.bins a <? 0)%Z; [discriminate|].
  apply bind_Ok in H. destruct H as (u1 & H1 & H).
  apply bind_Ok in H. destruct H as (u2 & H2 & H).
  apply bind_Ok in H. destruct H as (u3 & H3 & H).
  apply py_assert_Ok in H1, H2, H3.
  apply Nat.eqb_eq in H1, H2. apply Z.ltb_lt in H3.
  apply bind_Ok in H. destruct H as (m & Hm & H).
  apply optional_mask_sized_Ok in Hm.
  destruct (Hist1d.dummy_config _ _ _) as [[chk cd] dd].
  apply bind_Ok in H. destruct H as (dk & Hdk & H).
  apply bind_Ok in H. destruct H as (fl & Hfl & H).
  apply bind_Ok in H. destruct H as (po & Hpo & H).
  apply bind_Ok in H. destruct H as (sa & Hsa & H).
  apply optional_array_Ok in Hdk, Hfl, Hpo, Hsa.
  destruct (length (Hist1d.weights a) =? 0)%nat; [discriminate|].
  destruct (Hist1d.resolve_range0 _ _ _) as [pmin pmaxin].
  apply bind_Ok in H. destruct H as (p1 & Hp1 & _).
  repeat (split; [assumption || lia|]).
  intro Hr. rewrite Hr in Hp1.
  destruct (Hist1d.pos1 a) as [p|]; [|discriminate].
  destruct (Hist1d.delta_pos1 a) as [d|].
  - apply bind_Ok in Hp1. destruct Hp1 as (v1 & E1 & Hp1).
    apply bind_Ok in Hp1. destruct Hp1 as (v2 & E2 & _).
    apply py_assert_Ok in E1, E2. apply Nat.eqb_eq in E1, E2.
    exists p, d. repeat split; assumption.
  - apply bind_Ok in Hp1. destruct Hp1 as (v1 & _ & Hp1). discriminate.
Qed.

(** A call on a non-empty image that passes every check returns. *)
Lemma setup1d_total (calc_upper_bound : Q -> Q) (a : Hist1d.args) :
  checks1d a -> length (Hist1d.weights a) <> 0%nat ->
  exists L, Hist1d.setup calc_upper_bound a = Ok L.
Proof.
  unfold checks1d. intros (Hb & H1 & H2 & Hm & Hdk & Hfl & Hpo & Hsa & Hp1) Hsz.
  unfold Hist1d.setup.
  replace (Hist1d.bins a <? 0)%Z with false by (symmetry; apply Z.ltb_ge; lia).
  rewrite H1, H2, Nat.eqb_refl. cbn [py_assert bind].
  replace (1 <? Hist1d.bins a)%Z with true by (symmetry; apply Z.ltb_lt; lia).
  cbn [bind].
  destruct (optional_mask_sized _ _ Hm) as (m & Em). rewrite Em. cbn [bind].
  destruct (Hist1d.dummy_config _ _ _) as [[chk cd] dd].
  destruct (optional_array_sized _ _ "dark current array size" Hdk) as (dk & Edk).
  destruct (optional_array_sized _ _ "flat-field array size" Hfl) as (fl & Efl).
  destruct (optional_array_sized _ _ "polarization array size" Hpo) as (po & Epo).
  destruct (optional_array_sized _ _ "Solid angle array size" Hsa) as (sa & Esa).
  rewrite Edk, Efl, Epo, Esa. cbn [bind].
  replace (length (Hist1d.weights a) =? 0)%nat with false
    by (symmetry; apply Nat.eqb_neq; exact Hsz).
  destruct (Hist1d.resolve_range0 _ _ _) as [pmin pmaxin].
  destruct (range_given (Hist1d.pos1Range a)) eqn:Er.
  - destruct (Hp1 eq_refl) as (p & d & Ep & Ed & Lp & Ld).
    rewrite Ep, Ed, Lp, Ld, Nat.eqb_refl. cbn [py_assert bind].
    eexists. reflexivity.
  - cbn [bind]. eexists. reflexivity.
Qed.

Lemma pixel_lengths (L : Hist1d.locals) (out : list Q * list Q) (idx : nat) :
  (0 < Hist1d.nbins L)%Z ->
  length (fst out) = Z.to_nat (Hist1d.nbins L) ->
  length (snd out) = Z.to_nat (Hist1d.nbins L) ->
  length (fst (Hist1d.pixel L out idx)) = Z.to_nat (Hist1d.nbins L) /\
  length (snd (Hist1d.pixel L out idx)) = Z.to_nat (Hist1d.nbins L).
Proof.
  intros Hb L1 L2. destruct (Hist1d.deposited L idx) eqn:D.
  - rewrite (pixel_deposited_eq L out idx D).
    pose proof (deposited_outside_bins L idx D) as Hout.
    pose proof (Hist1dFacts.split1d_index_bounds _ _ _ Hb Hout) as [Bmin Bmax].
    set (d := Hist1d.corrected L idx (getq (Hist1d.cdata L) idx)).
    assert (H0 : lin1d (Z.to_nat (Hist1d.nbins L)) d
                   (Qsum (fst out) - d * Qsum (snd out)) out)
      by (split; [exact L1|]; split; [exact L2 | reflexivity]).
    destruct (accumulate_lin1d (Z.to_nat (Hist1d.nbins L))
                (Qsum (fst out) - d * Qsum (snd out))
                (Hist1d.clamp_bin0_min (Hist1d.fbin0_min_of L idx))
                (Hist1d.clamp_bin0_max (Hist1d.nbins L) (Hist1d.fbin0_max_of L idx))
                (Hist1d.fbin0_min_of L idx) (Hist1d.fbin0_max_of L idx) d out
                ltac:(lia) ltac:(lia) H0)
      as (A & B & _).
    split; assumption.
  - rewrite (Hist1dLoop.pixel_skipped L out idx D). split; assumption.
Qed.

Lemma pixels_lengths (L : Hist1d.locals) (l : list nat) :
  (0 < Hist1d.nbins L)%Z ->
  forall out : list Q * list Q,
    length (fst out) = Z.to_nat (Hist1d.nbins L) ->
    length (snd out) = Z.to_nat (Hist1d.nbins L) ->
    length (fst (fold_left (Hist1d.pixel L) l out)) = Z.to_nat (Hist1d.nbins L) /\
    length (snd (fold_left (Hist1d.pixel L) l out)) = Z.to_nat (Hist1d.nbins L).
Proof.
  intro Hb. induction l as [|x r IH]; intros out L1 L2; simpl.
  - split; assumption.
  - destruct (pixel_lengths L out x Hb L1 L2) as [A B]. apply IH; assumption.
Qed.

(** X2.  [histoBBox1d] on a non-empty image returns exactly when its
    arguments pass the checks: at least two bins, and every array of the
    size of [weights].  The four arrays of the result then have one entry
    per bin.  A call that returns has passed every check. *)
Theorem histoBBox1d_returns_when_checked
    (calc_upper_bound : Q -> Q) (a : Hist1d.args) :
  (checks1d a -> length (Hist1d.weights a) <> 0%nat ->
   exists o, Hist1d.histoBBox1d calc_upper_bound a = Ok o /\
             length (Hist1d.edges o) = Z.to_nat (Hist1d.bins a) /\
             length (Hist1d.outMerge o) = Z.to_nat (Hist1d.bins a) /\
             length (Hist1d.outData o) = Z.to_nat (Hist1d.bins a) /\
             length (Hist1d.outCount o) = Z.to_nat (Hist1d.bins a))
  /\
  (forall o, Hist1d.histoBBox1d calc_upper_bound a = Ok o -> checks1d a).
Proof.
  split.
  - intros Hc Hsz.
    destruct (setup1d_total calc_upper_bound a Hc Hsz) as (L & HL).
    pose proof (Hist1dSetup.setup1d_inv calc_upper_bound a L HL) as (Hn & Hb & _).
    unfold Hist1d.histoBBox1d. rewrite HL. cbn [bind].
    destruct (Hist1d.accumulate_all L) as [oD oC] eqn:Eacc.
    eexists. split; [reflexivity|]. simpl.
    destruct (pixels_lengths L (seq 0 (Hist1d.size L)) ltac:(lia)
                (zeros (Z.to_nat (Hist1d.nbins L)), zeros (Z.to_nat (Hist1d.nbins L)))
                (zeros_length _) (zeros_length _)) as [A B].
    unfold Hist1d.accumulate_all in Eacc. rewrite Eacc in A, B. simpl in A, B.
    rewrite <- Hn. split; [apply Hist2dShape.linspace_length; lia|].
    split; [unfold Hist1d.merge; rewrite length_map, length_seq; reflexivity|].
    split; assumption.
  - intros o Ho. destruct (histoBBox1d_inv calc_upper_bound a o Ho) as (L & HL & _).
    exact (setup1d_checks calc_upper_bound a L HL).
Qed.

Lemma histoBBox1d_returns_when_checked_witness :
  exists o, Hist1d.histoBBox1d calc_upper_bound_eps ex_masked_first = Ok o /\
            length (Hist1d.edges o) = 2%nat /\
            length (Hist1d.outMerge o) = 2%nat /\
            length (Hist1d.outData o) = 2%nat /\
            length (Hist1d.outCount o) = 2%nat.
Proof.
  apply (proj1 (histoBBox1d_returns_when_checked calc_upper_bound_eps
                  ex_masked_first)).
  - unfold checks1d. simpl.
    repeat split; try reflexivity; try lia; try (intro H; discriminate).
  - simpl. discriminate.
Defined.








(** ** [histoBBox1d]: masked weights and the natural range *)



Lemma optional_mask_value (o : option (list Z)) (size : nat) (m : bool * list Z) :
  optional_mask o size = Ok m -> m = (mask_flag o, mask_array o).
Proof.
  intro H. apply optional_mask_Ok in H. rewrite H. destruct o; reflexivity.
Qed.



Lemma Qmin_lt_l (x y : Q) : x < y -> Qmin x y = x.
Proof.
  intro H. unfold Qmin, GenericMinMax.gmin.
  rewrite (proj1 (Qlt_alt x y) H). reflexivity.
Qed.

Lemma Qmax_lt_r (x y : Q) : x < y -> Qmax x y = y.
Proof.
  intro H. unfold Qmax, GenericMinMax.gmax.
  rewrite (proj1 (Qlt_alt x y) H). reflexivity.
Qed.

(** X5.  Range override idempotence in [histoBBox1d]: when no range is
    given and the scanned range is not reduced to a point, supplying the
    scanned range as [pos0Range] gives the same result. *)
Theorem natural_range_override_is_identity
    (calc_upper_bound : Q -> Q) (a : Hist1d.args) :
  range_given (Hist1d.pos0Range a) = false ->
  Hist1d.s_min (natural_scan1d a) < Hist1d.s_max (natural_scan1d a) ->
  Hist1d.histoBBox1d calc_upper_bound
    (set_pos0Range1d a (Some [Hist1d.s_min (natural_scan1d a);
                              Hist1d.s_max (natural_scan1d a)]))
  = Hist1d.histoBBox1d calc_upper_bound a.
Proof.
  intros Hr Hlt.
  assert (Hres : Hist1d.resolve_range0 (Hist1d.s_min (natural_scan1d a))
                   (Hist1d.s_max (natural_scan1d a))
                   (Some [Hist1d.s_min (natural_scan1d a);
                          Hist1d.s_max (natural_scan1d a)])
                 = Hist1d.resolve_range0 (Hist1d.s_min (natural_scan1d a))
                     (Hist1d.s_max (natural_scan1d a)) (Hist1d.pos0Range a)).
  { unfold Hist1d.resolve_range0. rewrite Hr.
    cbn [range_given range_list length Nat.ltb Nat.leb py_min py_max fold_left].
    rewrite (Qmin_lt_l _ _ Hlt), (Qmax_lt_r _ _ Hlt). reflexivity. }
  assert (Hs : Hist1d.setup calc_upper_bound
                 (set_pos0Range1d a (Some [Hist1d.s_min (natural_scan1d a);
                                           Hist1d.s_max (natural_scan1d a)]))
               = Hist1d.setup calc_upper_bound a).
  { unfold Hist1d.setup, set_pos0Range1d.
    cbn [Hist1d.weights Hist1d.pos0 Hist1d.delta_pos0 Hist1d.pos1
         Hist1d.delta_pos1 Hist1d.bins Hist1d.pos0Range Hist1d.pos1Range
         Hist1d.dummy Hist1d.delta_dummy Hist1d.mask Hist1d.dark Hist1d.flat
         Hist1d.solidangle Hist1d.polarization Hist1d.empty].
    destruct (Hist1d.bins a <? 0)%Z; [reflexivity|].
    destruct (py_assert (length (Hist1d.pos0 a) =? _)%nat _); [|reflexivity].
    destruct (py_assert (length (Hist1d.delta_pos0 a) =? _)%nat _); [|reflexivity].
    destruct (py_assert (1 <? Hist1d.bins a)%Z _); [|reflexivity].
    cbn [bind].
    destruct (optional_mask _ _) as [m|] eqn:Em; [|reflexivity]. cbn [bind].
    apply optional_mask_value in Em. subst m. cbn [fst snd].
    fold (natural_scan1d a). rewrite Hres. reflexivity. }
  unfold Hist1d.histoBBox1d. rewrite Hs. reflexivity.
Qed.

Lemma natural_range_override_is_identity_witness :
  Hist1d.histoBBox1d calc_upper_bound_eps
    (set_pos0Range1d ex_masked_first (Some [9 # 10; 3]))
  = Hist1d.histoBBox1d calc_upper_bound_eps ex_masked_first.
Proof.
  apply (natural_range_override_is_identity calc_upper_bound_eps ex_masked_first);
    closed.
Defined.

(** ** [histoBBox1d]: the bin centres *)

Lemma getq_linspace (start stop : Q) (num : Z) (b : nat) :
  (1 < num)%Z -> (b < Z.to_nat num)%nat ->
  getq (linspace start stop num) b
  = start + inject_Z (Z.of_nat b) * ((stop - start) / inject_Z (num - 1)).
Proof.
  intros Hn Hb. unfold linspace.
  replace (num =? 1)%Z with false by (symmetry; apply Z.eqb_neq; lia).
  unfold getq, Zrange. rewrite map_map.
  set (f := fun k : nat =>
              start + inject_Z (0 + Z.of_nat k)
                      * ((stop - start) / inject_Z (num - 1))).
  transitivity (nth b (map f (seq 0 (Z.to_nat (num - 0)))) (f O)).
  - apply nth_indep. rewrite length_map, length_seq. lia.
  - rewrite map_nth, seq_nth by lia. reflexivity.
Qed.

(** The centre that [numpy.linspace] gives for bin [b], counted in bin
    widths from the minimum of the range, lies between [b] and [b + 1]
    when the rounded maximum [P] exceeds the user-visible maximum [M] by
    at most half a bin width. *)
Lemma centre_in_bin (m M P delta : Q) (n : Z) (b : nat) :
  (1 <= n)%Z -> 0 < delta -> delta == (P - m) / inject_Z n ->
  M <= P -> P - M <= (1 # 2) * delta -> (b < Z.to_nat n)%nat ->
  let f := get_bin_number
             (getq (linspace (m + (1 # 2) * delta) (M - (1 # 2) * delta) n) b)
             m delta in
  inject_Z (Z.of_nat b) <= f /\ f < inject_Z (Z.of_nat b) + 1 /\
  trunc f = Z.of_nat b.
Proof.
  intros Hn Hd Hdelta Hle Hhalf Hb f.
  assert (Hbounds : inject_Z (Z.of_nat b) <= f /\ f < inject_Z (Z.of_nat b) + 1).
  { unfold f. clear f. destruct (Z.eq_dec n 1) as [->|Hn1].
    - assert (b = 0)%nat by (change (Z.to_nat 1) with 1%nat in Hb; lia). subst b.
      unfold linspace, getq. simpl nth. change (inject_Z (Z.of_nat 0)) with 0.
      split.
      + apply get_bin_number_above; [exact Hd | lra].
      + apply get_bin_number_below; [exact Hd | lra].
    - rewrite getq_linspace by (try lia; exact Hb).
      set (q := inject_Z (Z.of_nat b)).
      set (N := inject_Z (n - 1)).
      assert (HN : 0 < N).
      { unfold N. change 0 with (inject_Z 0). apply inject_Z_lt. lia. }
      assert (Hq0 : 0 <= q).
      { unfold q. change 0 with (inject_Z 0). apply inject_Z_le. lia. }
      assert (HqN : q <= N) by (unfold q, N; apply inject_Z_le; lia).
      assert (HP : N * delta + delta == P - m).
      { rewrite Hdelta. unfold N.
        rewrite inject_Z_sub. change (inject_Z 1) with 1. field.
        intro E. assert (0 < inject_Z n)
          by (change 0 with (inject_Z 0); apply inject_Z_lt; lia). lra. }
      set (t := q * ((P - M) / N)).
      assert (Ht0 : 0 <= t).
      { unfold t. apply Qmult_le_0_compat; [exact Hq0|].
        apply Qle_shift_div_l; [exact HN | lra]. }
      assert (Ht1 : t <= P - M).
      { unfold t. assert (E : P - M == N * ((P - M) / N)) by (field; lra).
        rewrite E at 2. apply Qmult_le_compat_r; [exact HqN|].
        apply Qle_shift_div_l; [exact HN | lra]. }
      assert (Ex : m + (1 # 2) * delta
                   + q * ((M - (1 # 2) * delta - (m + (1 # 2) * delta)) / N)
                   == m + (1 # 2) * delta + q * delta - t).
      { unfold t.
        assert (E : (M - (1 # 2) * delta - (m + (1 # 2) * delta)) / N
                    == delta - (P - M) / N).
        { assert (E' : M - (1 # 2) * delta - (m + (1 # 2) * delta)
                       == N * delta - (P - M)) by lra.
          rewrite E'. field. lra. }
        rewrite E. ring. }
      split.
      + apply get_bin_number_above; [exact Hd|]. rewrite Ex. lra.
      + apply get_bin_number_below; [exact Hd|]. rewrite Ex. lra. }
  destruct Hbounds as [Hlo Hhi].
  split; [exact Hlo|]. split; [exact Hhi|].
  apply trunc_unique; [exact Hlo | exact Hhi | lia].
Qed.

(** X6.  The bin centres that [histoBBox1d] returns are consistent with
    its binning: when the rounded maximum exceeds the user-visible maximum
    by at most half a bin width, the centre returned for bin [b] has a
    fractional bin coordinate between [b] and [b + 1], so it falls in bin
    [b]. *)
Theorem bin_centres_lie_in_their_bins
    (calc_upper_bound : Q -> Q) (a : Hist1d.args) (L : Hist1d.locals)
    (o : Hist1d.output) :
  Hist1d.setup calc_upper_bound a = Ok L ->
  Hist1d.histoBBox1d calc_upper_bound a = Ok o ->
  0 < Hist1d.delta L ->
  Hist1d.pos0_maxin L <= Hist1d.pos0_max L ->
  Hist1d.pos0_max L - Hist1d.pos0_maxin L <= (1 # 2) * Hist1d.delta L ->
  forall b, (b < Z.to_nat (Hist1d.bins a))%nat ->
    let f := get_bin_number (getq (Hist1d.edges o) b) (Hist1d.pos0_min L)
               (Hist1d.delta L) in
    inject_Z (Z.of_nat b) <= f /\ f < inject_Z (Z.of_nat b) + 1 /\
    trunc f = Z.of_nat b.
Proof.
  intros Hsetup Hrun Hd Hle Hhalf b Hb.
  pose proof (Hist1dSetup.setup1d_inv calc_upper_bound a L Hsetup)
    as (Hn & Hbins & _ & _ & _ & _ & _ & _ & _ & _ & _ & Hdelta).
  unfold Hist1d.histoBBox1d in Hrun. rewrite Hsetup in Hrun. cbn [bind] in Hrun.
  destruct (Hist1d.accumulate_all L) as [oD oC].
  inversion Hrun; subst o; clear Hrun. cbn [Hist1d.edges].
  apply (centre_in_bin _ _ (Hist1d.pos0_max L)); try assumption.
  - lia.
  - rewrite Hdelta, Hn. reflexivity.
  - rewrite Hn. exact Hb.
Qed.

Lemma bin_centres_lie_in_their_bins_witness :
  exists L o,
    Hist1d.setup calc_upper_bound_eps ex_split = Ok L /\
    Hist1d.histoBBox1d calc_upper_bound_eps ex_split = Ok o /\
    trunc (get_bin_number (getq (Hist1d.edges o) 1) (Hist1d.pos0_min L)
             (Hist1d.delta L)) = 1%Z.
Proof.
  evaluate (Hist1d.setup calc_upper_bound_eps ex_split) L EL.
  evaluate (Hist1d.histoBBox1d calc_upper_bound_eps ex_split) o Eo.
  exists L, o. split; [reflexivity|]. split; [reflexivity|].
  pose proof (bin_centres_lie_in_their_bins calc_upper_bound_eps ex_split
                L o EL Eo) as H.
  reveal L EL. discharge H.
  exact (proj2 (proj2 (H 1%nat ltac:(vm_compute; lia)))).
Defined.

(** ** [histoBBox2d]: the sums of the accumulators *)

Module Hist2dSums.
Import Hist2d Hist2dFacts Hist2dSplit Hist2dPixel Hist2dShape Hist2dClip.

Lemma py_index_lt (n : nat) (i : Z) (r : nat) :
  py_index n i = Ok r -> (r < n)%nat.
Proof.
  unfold py_index. intro H.
  destruct ((0 <=? (if (i <? 0)%Z then (i + Z.of_nat n)%Z else i))%Z
            && ((if (i <? 0)%Z then (i + Z.of_nat n)%Z else i) <? Z.of_nat n)%Z)
    eqn:E; [|discriminate].
  apply andb_true_iff in E. destruct E as [E1 E2].
  apply Z.leb_le in E1. apply Z.ltb_lt in E2.
  inversion H; subst r. lia.
Qed.

(** [m[i, j] += v], whenever it succeeds, adds [v] to the sum of [m]:
    also when a negative index has counted from the end. *)
Lemma madd_Msum (i j : Z) (v : Q) (m m' : matrix) :
  madd i j v m = Ok m' -> Msum m' == Msum m + v.
Proof.
  unfold madd. intros H.
  apply bind_Ok in H. destruct H as (r & Er & H).
  apply bind_Ok in H. destruct H as (c & Ec & H).
  inversion H; subst m'. clear H.
  apply py_index_lt in Er. apply py_index_lt in Ec.
  apply update_row_Msum; [exact Er|].
  apply add_nth_Qsum. exact Ec.
Qed.

Lemma deposit_lin (n0 n1 : nat) (data k : Q) (i j : Z) (c d : Q)
    (out out' : matrix * matrix) :
  deposit i j c d out = Ok out' -> d == data * c ->
  lin2d n0 n1 data k out -> lin2d n0 n1 data k out'.
Proof.
  unfold deposit, lin2d, both_shape. destruct out as [oD oC].
  intros H Hd [[HD HC] Hk]. simpl in *.
  apply bind_Ok in H. destruct H as (oC' & EC & H).
  apply bind_Ok in H. destruct H as (oD' & ED & H).
  inversion H; subst out'. simpl.
  split; [split; eapply madd_shape; eassumption|].
  rewrite (madd_Msum _ _ _ _ _ ED), (madd_Msum _ _ _ _ _ EC), Hd, <- Hk. ring.
Qed.

(** Run a [bind] of hypothesis [H] and carry the invariant [S] along. *)
Ltac lin_step H S n0 n1 data k :=
  match type of H with
  | bind (qdiv _ _) _ = Ok _ =>
      let q := fresh "q" in
      apply bind_Ok in H; destruct H as (q & _ & H)
  | bind (deposit _ _ _ _ _) _ = Ok _ =>
      let o := fresh "o" in
      let E := fresh "E" in
      let S' := fresh "S" in
      apply bind_Ok in H; destruct H as (o & E & H);
      assert (S' := deposit_lin n0 n1 data k _ _ _ _ _ _ E);
      match type of S' with
      | ?A -> _ =>
          let Hd := fresh "Hd" in
          assert (Hd : A) by ring;
          specialize (S' Hd S); clear Hd E S; rename S' into S
      end
  | deposit _ _ _ _ _ = Ok _ =>
      let S' := fresh "S" in
      assert (S' := deposit_lin n0 n1 data k _ _ _ _ _ _ H);
      match type of S' with
      | ?A -> _ =>
          let Hd := fresh "Hd" in
          assert (Hd : A) by ring;
          specialize (S' Hd S); clear Hd S; rename S' into S
      end
  end.

(** Lines 488-560: whatever the branch, the weight deposited in each bin
    is [data] times the count deposited there. *)
Lemma accumulate_lin (n0 n1 : nat) (k : Q) (b0min b0max b1min b1max : Z)
    (f0min f0max f1min f1max data : Q) (out out' : matrix * matrix) :
  accumulate b0min b0max b1min b1max f0min f0max f1min f1max data out = Ok out' ->
  lin2d n0 n1 data k out -> lin2d n0 n1 data k out'.
Proof.
  unfold accumulate. intros H S.
  destruct (b0min =? b0max)%Z; destruct (b1min =? b1max)%Z.
  - lin_step H S n0 n1 data k. exact S.
  - lin_step H S n0 n1 data k. do 2 lin_step H S n0 n1 data k.
    revert H S. apply (foldM_preserves (lin2d n0 n1 data k)).
    intros a x a' Ha Sa. lin_step Ha Sa n0 n1 data k. exact Sa.
  - lin_step H S n0 n1 data k. do 2 lin_step H S n0 n1 data k.
    revert H S. apply (foldM_preserves (lin2d n0 n1 data k)).
    intros a x a' Ha Sa. lin_step Ha Sa n0 n1 data k. exact Sa.
  - lin_step H S n0 n1 data k. do 4 lin_step H S n0 n1 data k.
    apply bind_Ok in H. destruct H as (mid & E & H).
    assert (S3 : lin2d n0 n1 data k mid).
    { revert E S. apply (foldM_preserves (lin2d n0 n1 data k)).
      intros a x a' Ha Sa. lin_step Ha Sa n0 n1 data k.
      apply bind_Ok in Ha. destruct Ha as (inner & E4 & Ha).
      assert (S4 : lin2d n0 n1 data k inner).
      { revert E4 Sa. apply (foldM_preserves (lin2d n0 n1 data k)).
        intros b y b' Hb Sb. lin_step Hb Sb n0 n1 data k. exact Sb. }
      lin_step Ha S4 n0 n1 data k. exact S4. }
    revert H S3. apply (foldM_preserves (lin2d n0 n1 data k)).
    intros a x a' Ha Sa. do 2 lin_step Ha Sa n0 n1 data k. exact Sa.
Qed.

Lemma corrected2d_ok (L : locals) (idx : nat) (data : Q) :
  (do_flat L = true -> ~ getq (cflat L) idx == 0) ->
  (do_polarization L = true -> ~ getq (cpolarization L) idx == 0) ->
  (do_solidangle L = true -> ~ getq (csolidangle L) idx == 0) ->
  corrected L idx data = Ok (corrected_value2d L idx data).
Proof.
  intros Hf Hp Hs. unfold corrected, corrected_value2d. cbv zeta.
  destruct (do_flat L); [rewrite qdiv_ok by (apply Hf; reflexivity)|];
    cbn [bind];
    (destruct (do_polarization L);
     [rewrite qdiv_ok by (apply Hp; reflexivity)|]; cbn [bind];
     (destruct (do_solidangle L);
      [rewrite qdiv_ok by (apply Hs; reflexivity)|]; reflexivity)).
Qed.

Lemma sums2d_eq (n0 n1 : nat) (sc sc' sd sd' : Q) (out : matrix * matrix) :
  sc == sc' -> sd == sd' -> sums2d n0 n1 sc sd out -> sums2d n0 n1 sc' sd' out.
Proof.
  intros E1 E2 (H1 & H2 & H3). split; [exact H1|].
  split; [rewrite H2; exact E1 | rewrite H3; exact E2].
Qed.

(** Lines 445-560: one pass of the accumulation loop.  A deposited pixel
    adds one to the total count and its corrected weight to the total
    weight; any other pixel adds nothing. *)
Lemma pixel_sums2d (L : locals) (out : matrix * matrix) (idx : nat) (sc sd : Q) :
  bins_cover L ->
  pos0_min L <= pos0_maxin L -> pos1_min L <= pos1_maxin L ->
  (masked (check_mask L) (cmask L) idx = false ->
   getq (cpos0_lower L) idx <= getq (cpos0_upper L) idx) ->
  0 <= getq (dpos1 L) idx ->
  (masked (check_mask L) (cmask L) idx = false ->
   is_dummy L (getq (cdata L) idx) = false ->
   corrected L idx (getq (cdata L) idx)
   = Ok (corrected_value2d L idx (getq (cdata L) idx))) ->
  sums2d (Z.to_nat (bins0 L)) (Z.to_nat (bins1 L)) sc sd out ->
  exists out',
    pixel L out idx = Ok out' /\
    sums2d (Z.to_nat (bins0 L)) (Z.to_nat (bins1 L))
      (sc + (if deposited2d L idx then 1 else 0))
      (sd + (if deposited2d L idx
             then corrected_value2d L idx (getq (cdata L) idx) else 0))
      out'.
Proof.
  intros [(Hb0 & Hd0 & Ht0) (Hb1 & Hd1 & Ht1)] Hr0 Hr1 Hf0 Hw1 HC HS.
  unfold pixel, deposited2d.
  destruct (masked (check_mask L) (cmask L) idx) eqn:HM; simpl negb; simpl andb.
  { exists out. split; [reflexivity|].
    apply (sums2d_eq _ _ sc _ sd); [ring | ring | exact HS]. }
  destruct (is_dummy L (getq (cdata L) idx)) eqn:HD; simpl negb; simpl andb.
  { exists out. split; [reflexivity|].
    apply (sums2d_eq _ _ sc _ sd); [ring | ring | exact HS]. }
  rewrite (HC eq_refl eq_refl). cbn [bind]. cbv zeta.
  destruct (outside_range L _ _ _ _) eqn:Hout; simpl negb.
  { exists out. split; [reflexivity|].
    apply (sums2d_eq _ _ sc _ sd); [ring | ring | exact HS]. }
  unfold outside_range in Hout. repeat rewrite orb_false_iff in Hout.
  destruct Hout as [[[O1 O2] O3] O4].
  assert (Hf1 : getq (cpos1 L) idx - getq (dpos1 L) idx
                <= getq (cpos1 L) idx + getq (dpos1 L) idx) by lra.
  destruct (clip_inside _ _ _ _ Hr0 (Hf0 eq_refl) O1 O3) as (A0 & B0 & C0).
  destruct (clip_inside _ _ _ _ Hr1 Hf1 O2 O4) as (A1 & B1 & C1).
  pose proof (axis_bins _ _ _ _ _ _ Hb0 Hd0 Ht0 A0 B0 C0) as [(U1 & U2 & U3) U4].
  pose proof (axis_bins _ _ _ _ _ _ Hb1 Hd1 Ht1 A1 B1 C1) as [(Y1 & Y2 & Y3) Y4].
  rewrite <- (Z2Nat.id (bins0 L)) in U3 by lia.
  rewrite <- (Z2Nat.id (bins1 L)) in Y3 by lia.
  set (d := corrected_value2d L idx (getq (cdata L) idx)).
  destruct HS as ([SD SC] & Hsc & Hsd).
  destruct (accumulate_ok (Z.to_nat (bins0 L)) (Z.to_nat (bins1 L))
              _ _ _ _ _ _ _ _ d
              (conj U1 (conj U2 U3)) (conj Y1 (conj Y2 Y3))
              U4 Y4 sc out (conj SD (conj SC Hsc))) as (out' & E & I').
  exists out'. split; [exact E|].
  assert (Hl : lin2d (Z.to_nat (bins0 L)) (Z.to_nat (bins1 L)) d (sd - d * sc) out).
  { split; [split; assumption|]. rewrite Hsd, Hsc. reflexivity. }
  apply (accumulate_lin _ _ _ _ _ _ _ _ _ _ _ _ _ _ E) in Hl.
  destruct Hl as (Hsh & Hl). destruct I' as (_ & _ & Hc').
  split; [exact Hsh|]. split; [exact Hc'|].
  rewrite Hc' in Hl. lra.
Qed.

Lemma count_deposited2d_cons (L : locals) (x : nat) (r : list nat) :
  inject_Z (count_deposited2d L (x :: r))
  == (if deposited2d L x then 1 else 0) + inject_Z (count_deposited2d L r).
Proof.
  unfold count_deposited2d. simpl filter. destruct (deposited2d L x).
  - simpl length. rewrite Nat2Z.inj_succ. unfold Z.succ.
    rewrite inject_Z_succ. ring.
  - ring.
Qed.

Lemma total_weight2d_cons (L : locals) (x : nat) (r : list nat) :
  total_weight2d L (x :: r)
  == (if deposited2d L x
      then corrected_value2d L x (getq (cdata L) x) else 0)
     + total_weight2d L r.
Proof.
  unfold total_weight2d. simpl filter. destruct (deposited2d L x).
  - simpl. reflexivity.
  - ring.
Qed.

(** The loop over the pixels of [l] does not raise; the counts sum to the
    number of deposited pixels and the weights to their corrected
    weights. *)
Lemma pixels_sums2d (L : locals) (l : list nat) :
  bins_cover L ->
  pos0_min L <= pos0_maxin L -> pos1_min L <= pos1_maxin L ->
  (forall idx, In idx l ->
     (masked (check_mask L) (cmask L) idx = false ->
      getq (cpos0_lower L) idx <= getq (cpos0_upper L) idx) /\
     0 <= getq (dpos1 L) idx /\
     (masked (check_mask L) (cmask L) idx = false ->
      is_dummy L (getq (cdata L) idx) = false ->
      corrected L idx (getq (cdata L) idx)
      = Ok (corrected_value2d L idx (getq (cdata L) idx)))) ->
  forall (sc sd : Q) (out : matrix * matrix),
    sums2d (Z.to_nat (bins0 L)) (Z.to_nat (bins1 L)) sc sd out ->
    exists out',
      foldM (pixel L) l out = Ok out' /\
      sums2d (Z.to_nat (bins0 L)) (Z.to_nat (bins1 L))
        (sc + inject_Z (count_deposited2d L l)) (sd + total_weight2d L l) out'.
Proof.
  intros Hc Hr0 Hr1. induction l as [|x r IH]; intros Hall sc sd out HS.
  - exists out. split; [reflexivity|].
    apply (sums2d_eq _ _ sc _ sd); [| |exact HS].
    + unfold count_deposited2d. simpl. ring.
    + unfold total_weight2d. simpl. ring.
  - destruct (Hall x (or_introl eq_refl)) as (Hf0 & Hw1 & HC).
    destruct (pixel_sums2d L out x sc sd Hc Hr0 Hr1 Hf0 Hw1 HC HS)
      as (out1 & E1 & S1).
    destruct (IH (fun idx Hin => Hall idx (or_intror Hin)) _ _ out1 S1)
      as (out2 & E2 & S2).
    exists out2. split; [simpl; rewrite E1; exact E2|].
    revert S2. apply sums2d_eq.
    + rewrite count_deposited2d_cons. ring.
    + rewrite total_weight2d_cons. ring.
Qed.

Lemma qdiv_value (x y r : Q) : qdiv x y = Ok r -> r = x / y.
Proof.
  unfold qdiv. destruct (Qeq_bool y 0); [discriminate|].
  intro H. inversion H. reflexivity.
Qed.

(** Lines 452-459: when no division raises, the corrected weight is the
    raw one minus the dark current, divided by the flat field, the
    polarization and the solid angle. *)
Lemma corrected2d_value (L : locals) (idx : nat) (data d : Q) :
  corrected L idx data = Ok d -> d = corrected_value2d L idx data.
Proof.
  unfold corrected, corrected_value2d. cbv zeta. intro H.
  apply bind_Ok in H. destruct H as (d1 & E1 & H).
  apply bind_Ok in H. destruct H as (d2 & E2 & H).
  destruct (do_flat L); [apply qdiv_value in E1 | inversion E1]; subst d1;
    (destruct (do_polarization L);
     [apply qdiv_value in E2 | inversion E2]; subst d2;
     (destruct (do_solidangle L);
      [apply qdiv_value in H | inversion H]; subst d; reflexivity)).
Qed.

(** A pass of the accumulation loop that has not raised has evaluated
    every correction it needed. *)
Lemma pixel_Ok_corrected (L : locals) (out out' : matrix * matrix) (idx : nat) :
  pixel L out idx = Ok out' ->
  masked (check_mask L) (cmask L) idx = false ->
  is_dummy L (getq (cdata L) idx) = false ->
  corrected L idx (getq (cdata L) idx)
  = Ok (corrected_value2d L idx (getq (cdata L) idx)).
Proof.
  unfold pixel. intros H HM HD. rewrite HM, HD in H.
  apply bind_Ok in H. destruct H as (d & Ed & _).
  rewrite Ed. f_equal. apply corrected2d_value. exact Ed.
Qed.

(** The loop over the pixels of [l], when it has not raised: the counts
    sum to the number of deposited pixels and the weights to their
    corrected weights. *)
Lemma pixels_sums2d_given (L : locals) (l : list nat) :
  bins_cover L ->
  pos0_min L <= pos0_maxin L -> pos1_min L <= pos1_maxin L ->
  (forall idx, In idx l ->
     (masked (check_mask L) (cmask L) idx = false ->
      getq (cpos0_lower L) idx <= getq (cpos0_upper L) idx) /\
     0 <= getq (dpos1 L) idx) ->
  forall (sc sd : Q) (out out' : matrix * matrix),
    foldM (pixel L) l out = Ok out' ->
    sums2d (Z.to_nat (bins0 L)) (Z.to_nat (bins1 L)) sc sd out ->
    sums2d (Z.to_nat (bins0 L)) (Z.to_nat (bins1 L))
      (sc + inject_Z (count_deposited2d L l)) (sd + total_weight2d L l) out'.
Proof.
  intros Hc Hr0 Hr1. induction l as [|x r IH]; intros Hall sc sd out out' H HS.
  - simpl in H. inversion H; subst out'.
    apply (sums2d_eq _ _ sc _ sd); [| |exact HS].
    + unfold count_deposited2d. simpl. ring.
    + unfold total_weight2d. simpl. ring.
  - simpl in H. apply bind_Ok in H. destruct H as (out1 & E1 & H).
    destruct (Hall x (or_introl eq_refl)) as (Hf0 & Hw1).
    destruct (pixel_sums2d L out x sc sd Hc Hr0 Hr1 Hf0 Hw1
                (pixel_Ok_corrected L out out1 x E1) HS) as (out1' & E1' & S1).
    rewrite E1 in E1'. inversion E1'; subst out1'.
    pose proof (IH (fun idx Hin => Hall idx (or_intror Hin)) _ _ out1 out' H S1)
      as S2.
    revert S2. apply sums2d_eq.
    + rewrite count_deposited2d_cons. ring.
    + rewrite total_weight2d_cons. ring.
Qed.

End Hist2dSums.

(** ** [histoBBox2d]: from the arguments to the totals *)

Module Hist2dRun.
Import Hist2d Hist2dFacts Hist2dShape Hist2dSetup Hist2dSums.

Section Scan.

Variables (pi : Q) (check_mask : bool) (cmask : list Z).
Variables (cpos0 dpos0 cpos1 dpos1 : list Q) (chiDiscAtPi : bool).

Let step := scan_step pi check_mask cmask cpos0 dpos0 cpos1 dpos1 chiDiscAtPi.

Lemma scan2d_step_lengths (s : scan_state) (idx : nat) :
  length (s_lower0 (step s idx)) = length (s_lower0 s) /\
  length (s_upper0 (step s idx)) = length (s_upper0 s).
Proof.
  unfold step, scan_step. destruct (masked check_mask cmask idx); simpl.
  - split; reflexivity.
  - rewrite !Hist1dLoop.set_nth_length. split; reflexivity.
Qed.

Lemma scan2d_step_keeps (idx x : nat) (s : scan_state) :
  (idx < length (s_lower0 s))%nat -> (idx < length (s_upper0 s))%nat ->
  bounds_at2d cpos0 dpos0 idx s -> bounds_at2d cpos0 dpos0 idx (step s x).
Proof.
  intros Hl Hu [H1 H2]. unfold step, scan_step, bounds_at2d.
  destruct (masked check_mask cmask x) eqn:M; simpl; [split; assumption|].
  destruct (Nat.eq_dec idx x) as [->|Hne].
  - rewrite !Hist1dLoop.getq_set_nth_same by assumption. split; reflexivity.
  - rewrite !Hist1dLoop.getq_set_nth_other by assumption. split; assumption.
Qed.

Lemma scan2d_fold_keeps (idx : nat) (l : list nat) :
  forall s, (idx < length (s_lower0 s))%nat -> (idx < length (s_upper0 s))%nat ->
    bounds_at2d cpos0 dpos0 idx s ->
    bounds_at2d cpos0 dpos0 idx (fold_left step l s).
Proof.
  induction l as [|x r IH]; intros s Hl Hu Hb; simpl; [exact Hb|].
  pose proof (scan2d_step_lengths s x) as [E1 E2].
  apply IH; try (rewrite ?E1, ?E2; assumption).
  apply scan2d_step_keeps; assumption.
Qed.

Lemma scan2d_fold_sets (idx : nat) (l : list nat) :
  forall s, (idx < length (s_lower0 s))%nat -> (idx < length (s_upper0 s))%nat ->
    In idx l -> masked check_mask cmask idx = false ->
    bounds_at2d cpos0 dpos0 idx (fold_left step l s).
Proof.
  induction l as [|x r IH]; intros s Hl Hu Hin M; simpl; [destruct Hin|].
  pose proof (scan2d_step_lengths s x) as [E1 E2].
  destruct (Nat.eq_dec x idx) as [->|Hne].
  - apply scan2d_fold_keeps; try (rewrite ?E1, ?E2; assumption).
    unfold step, scan_step, bounds_at2d. rewrite M. simpl.
    rewrite !Hist1dLoop.getq_set_nth_same by assumption. split; reflexivity.
  - destruct Hin as [->|Hin]; [congruence|].
    apply IH; try (rewrite ?E1, ?E2; assumption).
Qed.

(** After the scanning loop, the axis-0 arrays hold the footprint of every
    unmasked pixel. *)
Lemma scan2d_bounds (size idx : nat) :
  (idx < size)%nat -> masked check_mask cmask idx = false ->
  bounds_at2d cpos0 dpos0 idx
    (scan pi check_mask cmask cpos0 dpos0 cpos1 dpos1 chiDiscAtPi size).
Proof.
  intros Hi M. unfold scan. apply scan2d_fold_sets; simpl;
    rewrite ?zeros_length; try assumption.
  apply in_seq. lia.
Qed.

(** The scanned azimuthal range stays within the limits of lines 405-408
    and the centre of pixel 0. *)
Lemma scan2d_fold_chi (c : Q) (l : list nat) :
  forall s,
    Qmin c (chi_lower pi chiDiscAtPi) <= s_min1 s /\
    s_max1 s <= Qmax c (chi_upper pi chiDiscAtPi) ->
    Qmin c (chi_lower pi chiDiscAtPi) <= s_min1 (fold_left step l s) /\
    s_max1 (fold_left step l s) <= Qmax c (chi_upper pi chiDiscAtPi).
Proof.
  unfold chi_lower, chi_upper.
  induction l as [|x r IH]; intros s H; simpl; [exact H|].
  apply IH. unfold step, scan_step.
  destruct (masked check_mask cmask x) eqn:M; simpl; [exact H|].
  destruct H as [A B].
  pose proof (Q.le_min_r c (- b2q chiDiscAtPi * pi)) as Hmin.
  pose proof (Q.le_max_r c ((2 - b2q chiDiscAtPi) * pi)) as Hmax.
  split.
  - destruct (Qltb (getq cpos1 x - getq dpos1 x) (- b2q chiDiscAtPi * pi)) eqn:E1;
      [apply Qltb_lt in E1 | apply Qltb_ge in E1];
      match goal with
      | |- context [if Qltb ?u ?v then _ else _] =>
          destruct (Qltb u v) eqn:E2;
          [apply Qltb_lt in E2 | apply Qltb_ge in E2]
      end; lra.
  - destruct (Qltb ((2 - b2q chiDiscAtPi) * pi) (getq cpos1 x + getq dpos1 x)) eqn:E1;
      [apply Qltb_lt in E1 | apply Qltb_ge in E1];
      match goal with
      | |- context [if Qltb ?u ?v then _ else _] =>
          destruct (Qltb u v) eqn:E2;
          [apply Qltb_lt in E2 | apply Qltb_ge in E2]
      end; lra.
Qed.

End Scan.

Lemma optional_array_value (o : option (list Q)) (size : nat) (msg : string)
    (r : bool * list Q) :
  optional_array o size msg = Ok r -> r = (opt_flag o, opt_array o).
Proof.
  unfold optional_array. destruct o as [arr|]; [|intro H; inversion H; reflexivity].
  intro H. apply bind_Ok in H. destruct H as (u & _ & H). inversion H. reflexivity.
Qed.

Section Setup.

Variable calc_upper_bound : Q -> Q.
Variable pi : Q.

(** The correction arrays that a successful [setup] has stored. *)
Lemma setup2d_corrections (a : args) (L : locals) :
  setup calc_upper_bound pi a = Ok L ->
  (do_dark L, cdark L) = (opt_flag (dark a), opt_array (dark a)) /\
  (do_flat L, cflat L) = (opt_flag (flat a), opt_array (flat a)) /\
  (do_polarization L, cpolarization L)
    = (opt_flag (polarization a), opt_array (polarization a)) /\
  (do_solidangle L, csolidangle L)
    = (opt_flag (solidangle a), opt_array (solidangle a)).
Proof.
  unfold setup. intro H.
  apply bind_Ok in H. destruct H as (u1 & _ & H).
  apply bind_Ok in H. destruct H as (u2 & _ & H).
  apply bind_Ok in H. destruct H as (u3 & _ & H).
  apply bind_Ok in H. destruct H as (u4 & _ & H).
  apply bind_Ok in H. destruct H as (m & _ & H).
  apply bind_Ok in H. destruct H as (dc & _ & H).
  destruct dc as [[chk cd] dd].
  apply bind_Ok in H. destruct H as (dk & Hdk & H).
  apply bind_Ok in H. destruct H as (fl & Hfl & H).
  apply bind_Ok in H. destruct H as (po & Hpo & H).
  apply bind_Ok in H. destruct H as (sa & Hsa & H).
  apply optional_array_value in Hdk, Hfl, Hpo, Hsa.
  destruct (length (weights a) =? 0)%nat; [discriminate|].
  inversion H; subst L; clear H. simpl.
  rewrite <- Hdk, <- Hfl, <- Hpo, <- Hsa.
  destruct dk, fl, po, sa. repeat split.
Qed.

(** A call that returns has passed every check. *)
Lemma setup2d_checks (a : args) (L : locals) :
  setup calc_upper_bound pi a = Ok L ->
  checks2d a /\ length (weights a) <> 0%nat.
Proof.
  unfold setup, checks2d. intro H.
  apply bind_Ok in H. destruct H as (u1 & H1 & H).
  apply bind_Ok in H. destruct H as (u2 & H2 & H).
  apply bind_Ok in H. destruct H as (u3 & H3 & H).
  apply bind_Ok in H. destruct H as (u4 & H4 & H).
  apply py_assert_Ok in H1, H2, H3, H4.
  apply Nat.eqb_eq in H1, H2, H3, H4.
  apply bind_Ok in H. destruct H as (m & Hm & H).
  apply optional_mask_sized_Ok in Hm.
  apply bind_Ok in H. destruct H as (dc & Hd & H).
  destruct dc as [[chk cd] dd].
  apply bind_Ok in H. destruct H as (dk & Hdk & H).
  apply bind_Ok in H. destruct H as (fl & Hfl & H).
  apply bind_Ok in H. destruct H as (po & Hpo & H).
  apply bind_Ok in H. destruct H as (sa & Hsa & H).
  apply optional_array_Ok in Hdk, Hfl, Hpo, Hsa.
  destruct (length (weights a) =? 0)%nat eqn:Hs; [discriminate|].
  apply Nat.eqb_neq in Hs.
  split; [|exact Hs].
  repeat (split; [assumption|]).
  split; [|repeat (split; [assumption|]); assumption].
  intros Hdum He. unfold dummy_config in Hd. rewrite Hdum, He in Hd. discriminate.
Qed.

(** A call on a non-empty image that passes every check resolves its
    local variables. *)
Lemma setup2d_total (a : args) :
  checks2d a -> length (weights a) <> 0%nat ->
  exists L, setup calc_upper_bound pi a = Ok L.
Proof.
  unfold checks2d.
  intros (H1 & H2 & H3 & H4 & Hm & Hd & Hdk & Hfl & Hpo & Hsa) Hsz.
  unfold setup.
  rewrite H1, H2, H3, H4, Nat.eqb_refl. cbn [py_assert bind].
  destruct (optional_mask_sized _ _ Hm) as (m & Em). rewrite Em. cbn [bind].
  assert (Edc : exists dc, dummy_config (dummy a) (delta_dummy a) (empty a) = Ok dc).
  { unfold dummy_config. destruct (dummy a) as [d|].
    - destruct (delta_dummy a); eexists; reflexivity.
    - destruct (empty a) as [e|]; [eexists; reflexivity|].
      exfalso. apply Hd; reflexivity. }
  destruct Edc as ([[chk cd] dd] & Edc). rewrite Edc. cbn [bind].
  destruct (optional_array_sized _ _ "dark current array size" Hdk) as (dk & Edk).
  destruct (optional_array_sized _ _ "flat-field array size" Hfl) as (fl & Efl).
  destruct (optional_array_sized _ _ "polarization array size" Hpo) as (po & Epo).
  destruct (optional_array_sized _ _ "Solid angle array size" Hsa) as (sa & Esa).
  rewrite Edk, Efl, Epo, Esa. cbn [bind].
  replace (length (weights a) =? 0)%nat with false
    by (symmetry; apply Nat.eqb_neq; exact Hsz).
  eexists. reflexivity.
Qed.

End Setup.

(** The bins of one axis cover the range when the rounded maximum lies
    above the user-visible one. *)
Lemma axis_cover (b : Z) (pmin pmaxin pmax : Q) :
  (0 < b)%Z -> pmin <= pmaxin -> pmaxin < pmax ->
  0 < (pmax - pmin) / inject_Z b /\
  pmaxin < pmin + inject_Z b * ((pmax - pmin) / inject_Z b).
Proof.
  intros Hb H1 H2.
  assert (Hq : 0 < inject_Z b).
  { change 0 with (inject_Z 0). rewrite <- Zlt_Qlt. exact Hb. }
  split.
  - apply Qlt_shift_div_l; [exact Hq | lra].
  - setoid_replace (inject_Z b * ((pmax - pmin) / inject_Z b))
      with (pmax - pmin) by (field; lra).
    lra.
Qed.

Lemma getq_nonzero (arr : list Q) (idx : nat) :
  Forall (fun x => ~ x == 0) arr -> (idx < length arr)%nat ->
  ~ getq arr idx == 0.
Proof.
  intros H Hi. rewrite Forall_forall in H. apply H. apply nth_In. exact Hi.
Qed.

Lemma correction_nonzero (o : option (list Q)) (size idx : nat) :
  nonzero_opt o -> opt_sized o size -> (idx < size)%nat ->
  opt_flag o = true -> ~ getq (opt_array o) idx == 0.
Proof.
  destruct o as [arr|]; simpl; [|discriminate].
  intros H Hs Hi _. apply getq_nonzero; [exact H | lia].
Qed.

Lemma mapM_ok {A B : Type} (f : A -> result B) (l : list A) :
  (forall x, exists y, f x = Ok y) -> exists ys, mapM f l = Ok ys.
Proof.
  intro Hf. induction l as [|x r IH]; simpl.
  - eexists. reflexivity.
  - destruct (Hf x) as (y & Ey). destruct IH as (ys & Eys).
    rewrite Ey, Eys. eexists. reflexivity.
Qed.

(** Lines 562-567 do not raise when the normalisation factor is not zero:
    a bin is divided by its count only when the count exceeds
    [epsilon]. *)
Lemma merge_ok (cd nf : Q) (oD oC : matrix) (b0 b1 : Z) :
  ~ nf == 0 -> exists m, merge cd nf oD oC b0 b1 = Ok m.
Proof.
  intro Hnf. unfold merge. apply mapM_ok. intro i. apply mapM_ok. intro j.
  unfold merge_bin. destruct (Qltb epsilon (mget oC i j)) eqn:E.
  - apply Qltb_lt in E.
    assert (H0 : 0 < epsilon) by reflexivity.
    rewrite qdiv_ok by lra. cbn [bind]. rewrite qdiv_ok by exact Hnf.
    eexists. reflexivity.
  - eexists. reflexivity.
Qed.

Lemma Msum_mzeros (n0 n1 : nat) : Msum (mzeros n0 n1) == 0.
Proof.
  unfold Msum, mzeros. induction n0 as [|n IH]; simpl; [reflexivity|].
  rewrite IH, zeros_Qsum. ring.
Qed.

Lemma Qsum_app (l1 l2 : list Q) : Qsum (l1 ++ l2) == Qsum l1 + Qsum l2.
Proof.
  induction l1 as [|x r IH]; simpl; [ring | rewrite IH; ring].
Qed.

Lemma Qsum_firstn_succ (k : nat) (r : list Q) :
  Qsum (firstn (S k) r) == Qsum (firstn k r) + getq r k.
Proof.
  unfold getq, Qsum. revert k.
  induction r as [|x r IH]; intros k.
  - rewrite !firstn_nil. destruct k; cbn [fold_right nth]; ring.
  - rewrite firstn_cons. destruct k as [|k].
    + rewrite !firstn_O. cbn [fold_right nth]. ring.
    + rewrite firstn_cons. cbn [fold_right nth]. rewrite IH. ring.
Qed.

(** The first [k] columns of the transpose hold the first [k] entries of
    every row. *)
Lemma Msum_transpose_cols (k : nat) (m : matrix) :
  Msum (transpose_cols k m) == Qsum (map (fun r => Qsum (firstn k r)) m).
Proof.
  induction k as [|k IH].
  - simpl. unfold Msum. simpl.
    induction m as [|r m IHm]; simpl; [reflexivity | rewrite <- IHm; ring].
  - simpl transpose_cols. unfold Msum in *. rewrite map_app, Qsum_app, IH.
    simpl. clear IH.
    induction m as [|r m IHm]; [simpl; ring|].
    cbn [map Qsum fold_right]. fold (Qsum (map (fun r => Qsum (firstn (S k) r)) m)).
    fold (Qsum (map (fun r => Qsum (firstn k r)) m)).
    fold (Qsum (map (fun row => getq row k) m)).
    rewrite (Qsum_firstn_succ k r).
    cbn [map Qsum fold_right] in IHm.
    fold (Qsum (map (fun row => getq row k) m)) in IHm.
    rewrite <- IHm. ring.
Qed.

(** The transposition of lines 571-575 keeps the sum of an array. *)
Lemma Msum_transpose (n0 n1 : nat) (m : matrix) :
  shape n0 n1 m -> Msum (transpose_cols n1 m) == Msum m.
Proof.
  intros [_ Hr]. rewrite Msum_transpose_cols. unfold Msum.
  induction Hr as [|r m Hlen _ IH]; simpl; [reflexivity|].
  rewrite IH. subst n1. rewrite firstn_all. reflexivity.
Qed.

End Hist2dRun.

(** What [setup] provides to the accumulation loop of [histoBBox2d]: bins
    that cover the range, and ordered footprints. *)
Lemma setup2d_loop_conditions (calc_upper_bound : Q -> Q) (pi : Q)
    (a : Hist2d.args) (L : Hist2d.locals) :
  Hist2d.setup calc_upper_bound pi a = Ok L ->
  Hist2d.pos0_min L <= Hist2d.pos0_maxin L ->
  Hist2d.pos0_maxin L < Hist2d.pos0_max L ->
  Hist2d.pos1_min L <= Hist2d.pos1_maxin L ->
  Hist2d.pos1_maxin L < Hist2d.pos1_max L ->
  (forall idx, (idx < Hist2d.size L)%nat -> 0 <= getq (Hist2d.delta_pos0 a) idx) ->
  (forall idx, (idx < Hist2d.size L)%nat -> 0 <= getq (Hist2d.delta_pos1 a) idx) ->
  Hist2d.bins_cover L /\
  (forall idx, In idx (seq 0 (Hist2d.size L)) ->
     (Hist2d.masked (Hist2d.check_mask L) (Hist2d.cmask L) idx = false ->
      getq (Hist2d.cpos0_lower L) idx <= getq (Hist2d.cpos0_upper L) idx) /\
     0 <= getq (Hist2d.dpos1 L) idx).
Proof.
  intros Hsetup A0 B0 A1 B1 Hw0 Hw1.
  pose proof (Hist2dSetup.setup2d_inv calc_upper_bound pi a L Hsetup)
    as (Hb0 & Hb1 & Hsz & Hpos & Hdata & Hmask & Hdum & Hlo & Hup & Hc1 & Hd1
        & _ & _ & _ & _ & Hdl0 & Hdl1).
  split.
  - unfold Hist2d.bins_cover. rewrite Hdl0, Hdl1.
    split; (split; [lia|]); apply Hist2dRun.axis_cover; try assumption; lia.
  - intros idx Hin. apply in_seq in Hin. split.
    + intro HM.
      destruct (Hist2dRun.scan2d_bounds pi (Hist2d.check_mask L) (Hist2d.cmask L)
                  (Hist2d.pos0 a) (Hist2d.delta_pos0 a) (Hist2d.pos1 a)
                  (Hist2d.delta_pos1 a) (Hist2d.chiDiscAtPi a) (Hist2d.size L) idx
                  ltac:(lia) HM) as [E1 E2].
      rewrite Hlo, Hup, E1, E2. specialize (Hw0 idx ltac:(lia)). lra.
    + rewrite Hd1. apply Hw1. lia.
Qed.

Lemma sums2d_start (n0 n1 : nat) :
  sums2d n0 n1 0 0 (mzeros n0 n1, mzeros n0 n1).
Proof.
  split; [split; apply Hist2dShape.mzeros_shape|].
  split; apply Hist2dRun.Msum_mzeros.
Qed.

(** X7.  [histoBBox2d] does not raise, and its counts are conserved: when
    the resolved range of each axis is ordered and lies below the rounded
    maximum, the half-widths are non-negative, no flat-field, polarization
    or solid-angle entry is zero and the normalisation factor is not zero,
    the call returns (no division by zero, no index out of the grid) and
    [sumCount] sums to the number of deposited pixels. *)
Theorem histoBBox2d_returns_with_count_total
    (calc_upper_bound : Q -> Q) (pi : Q) (a : Hist2d.args) (L : Hist2d.locals) :
  Hist2d.setup calc_upper_bound pi a = Ok L ->
  Hist2d.pos0_min L <= Hist2d.pos0_maxin L ->
  Hist2d.pos0_maxin L < Hist2d.pos0_max L ->
  Hist2d.pos1_min L <= Hist2d.pos1_maxin L ->
  Hist2d.pos1_maxin L < Hist2d.pos1_max L ->
  (forall idx, (idx < Hist2d.size L)%nat -> 0 <= getq (Hist2d.delta_pos0 a) idx) ->
  (forall idx, (idx < Hist2d.size L)%nat -> 0 <= getq (Hist2d.delta_pos1 a) idx) ->
  nonzero_opt (Hist2d.flat a) -> nonzero_opt (Hist2d.polarization a) ->
  nonzero_opt (Hist2d.solidangle a) ->
  ~ Hist2d.normalization_factor a == 0 ->
  exists o,
    Hist2d.histoBBox2d calc_upper_bound pi a = Ok o /\
    Msum (Hist2d.sumCount o)
    == inject_Z (count_deposited2d L (seq 0 (Hist2d.size L))).
Proof.
  intros Hsetup A0 B0 A1 B1 Hw0 Hw1 Nfl Npo Nsa Hnf.
  destruct (setup2d_loop_conditions calc_upper_bound pi a L Hsetup
              A0 B0 A1 B1 Hw0 Hw1) as [Hcover Hfoot].
  destruct (Hist2dRun.setup2d_corrections calc_upper_bound pi a L Hsetup)
    as (_ & Efl & Epo & Esa).
  injection Efl as Efl1 Efl2. injection Epo as Epo1 Epo2.
  injection Esa as Esa1 Esa2.
  destruct (Hist2dRun.setup2d_checks calc_upper_bound pi a L Hsetup)
    as [(_ & _ & _ & _ & _ & _ & _ & Sfl & Spo & Ssa) _].
  pose proof (Hist2dSetup.setup2d_inv calc_upper_bound pi a L Hsetup)
    as (_ & _ & Hsz & _).
  destruct (Hist2dSums.pixels_sums2d L (seq 0 (Hist2d.size L)) Hcover A0 A1)
    with (sc := 0) (sd := 0)
         (out := (mzeros (Z.to_nat (Hist2d.bins0 L)) (Z.to_nat (Hist2d.bins1 L)),
                  mzeros (Z.to_nat (Hist2d.bins0 L)) (Z.to_nat (Hist2d.bins1 L))))
    as ([oD oC] & Eacc & (Hsh & Hsc & Hsd)).
  - intros idx Hin. destruct (Hfoot idx Hin) as [F0 F1].
    split; [exact F0|]. split; [exact F1|]. intros _ _.
    apply in_seq in Hin.
    apply Hist2dSums.corrected2d_ok.
    + rewrite Efl1, Efl2.
      apply (Hist2dRun.correction_nonzero _ (length (Hist2d.weights a)));
        [exact Nfl | exact Sfl | lia].
    + rewrite Epo1, Epo2.
      apply (Hist2dRun.correction_nonzero _ (length (Hist2d.weights a)));
        [exact Npo | exact Spo | lia].
    + rewrite Esa1, Esa2.
      apply (Hist2dRun.correction_nonzero _ (length (Hist2d.weights a)));
        [exact Nsa | exact Ssa | lia].
  - apply sums2d_start.
  - destruct (Hist2dRun.merge_ok (Hist2d.cdummy L) (Hist2d.normalization_factor a)
                oD oC (Hist2d.bins0 L) (Hist2d.bins1 L) Hnf) as (m & Em).
    unfold Hist2d.histoBBox2d. rewrite Hsetup. cbn [bind].
    fold (Hist2d.accumulate_all L) in Eacc. rewrite Eacc. cbn [bind].
    rewrite Em. cbn [bind]. eexists. split; [reflexivity|].
    cbn [Hist2d.sumCount]. destruct Hsh as [_ HC]. simpl in HC, Hsc.
    rewrite (Hist2dRun.Msum_transpose _ _ _ HC), Hsc. ring.
Qed.

Lemma histoBBox2d_returns_with_count_total_witness :
  exists o,
    Hist2d.histoBBox2d calc_upper_bound_eps pi_approx ex_corrected2d = Ok o /\
    Msum (Hist2d.sumCount o) == 1.
Proof.
  evaluate (Hist2d.setup calc_upper_bound_eps pi_approx ex_corrected2d) L EL.
  pose proof (histoBBox2d_returns_with_count_total calc_upper_bound_eps pi_approx
                ex_corrected2d L EL) as H.
  reveal L EL. discharge H.
  premise H ltac:(intros [|[|[|[|idx]]]] _; closed).
  premise H ltac:(intros [|[|[|[|idx]]]] _; closed).
  premise H ltac:(simpl; repeat (apply Forall_cons; [closed|]); apply Forall_nil).
  premise H ltac:(simpl; repeat (apply Forall_cons; [closed|]); apply Forall_nil).
  premise H ltac:(simpl; repeat (apply Forall_cons; [closed|]); apply Forall_nil).
  discharge H.
  destruct H as (o & Eo & Hc). exists o. split; [exact Eo|].
  rewrite Hc. closed.
Defined.

(** X8.  Conservation of the weight in [histoBBox2d]: whenever the call
    returns, with ordered resolved ranges below the rounded maxima and
    non-negative half-widths, [sumData] sums to the total of the corrected
    weights (after dark, flat, polarization and solid-angle corrections)
    of the deposited pixels. *)
Theorem histoBBox2d_weight_total
    (calc_upper_bound : Q -> Q) (pi : Q) (a : Hist2d.args) (L : Hist2d.locals)
    (o : Hist2d.output) :
  Hist2d.setup calc_upper_bound pi a = Ok L ->
  Hist2d.histoBBox2d calc_upper_bound pi a = Ok o ->
  Hist2d.pos0_min L <= Hist2d.pos0_maxin L ->
  Hist2d.pos0_maxin L < Hist2d.pos0_max L ->
  Hist2d.pos1_min L <= Hist2d.pos1_maxin L ->
  Hist2d.pos1_maxin L < Hist2d.pos1_max L ->
  (forall idx, (idx < Hist2d.size L)%nat -> 0 <= getq (Hist2d.delta_pos0 a) idx) ->
  (forall idx, (idx < Hist2d.size L)%nat -> 0 <= getq (Hist2d.delta_pos1 a) idx) ->
  Msum (Hist2d.sumData o) == total_weight2d L (seq 0 (Hist2d.size L)).
Proof.
  intros Hsetup Hrun A0 B0 A1 B1 Hw0 Hw1.
  destruct (setup2d_loop_conditions calc_upper_bound pi a L Hsetup
              A0 B0 A1 B1 Hw0 Hw1) as [Hcover Hfoot].
  destruct (Hist2dSetup.histoBBox2d_inv calc_upper_bound pi a o Hrun)
    as (L' & oD & oC & m & HL' & Hacc & _ & _ & HoD & _).
  rewrite Hsetup in HL'. inversion HL'; subst L'; clear HL'.
  unfold Hist2d.accumulate_all in Hacc.
  pose proof (Hist2dSums.pixels_sums2d_given L (seq 0 (Hist2d.size L))
                Hcover A0 A1 Hfoot 0 0 _ _ Hacc (sums2d_start _ _))
    as ([HD _] & _ & Hsd).
  simpl in HD, Hsd.
  rewrite HoD, (Hist2dRun.Msum_transpose _ _ _ HD), Hsd. ring.
Qed.

Lemma histoBBox2d_weight_total_witness :
  exists L o,
    Hist2d.setup calc_upper_bound_eps pi_approx ex_corrected2d = Ok L /\
    Hist2d.histoBBox2d calc_upper_bound_eps pi_approx ex_corrected2d = Ok o /\
    Msum (Hist2d.sumData o) == 2.
Proof.
  evaluate (Hist2d.setup calc_upper_bound_eps pi_approx ex_corrected2d) L EL.
  evaluate (Hist2d.histoBBox2d calc_upper_bound_eps pi_approx ex_corrected2d) o Eo.
  exists L, o. split; [reflexivity|]. split; [reflexivity|].
  pose proof (histoBBox2d_weight_total calc_upper_bound_eps pi_approx
                ex_corrected2d L o EL Eo) as H.
  clear Eo. reveal L EL. discharge H.
  premise H ltac:(intros [|[|[|[|idx]]]] _; closed).
  premise H ltac:(intros [|[|[|[|idx]]]] _; closed).
  rewrite H. closed.
Defined.

(** X9.  The argument checks of [histoBBox2d]: a call that returns has
    passed them all (the four position arrays and every optional array
    have the size of [weights], which is not empty, and [dummy] or [empty]
    is given), and on arguments that pass them the resolution of the local
    variables does not raise, whatever the bin counts. *)
Theorem histoBBox2d_checks_its_arguments
    (calc_upper_bound : Q -> Q) (pi : Q) (a : Hist2d.args) :
  (forall o, Hist2d.histoBBox2d calc_upper_bound pi a = Ok o ->
             checks2d a /\ length (Hist2d.weights a) <> 0%nat) /\
  (checks2d a -> length (Hist2d.weights a) <> 0%nat ->
   exists L, Hist2d.setup calc_upper_bound pi a = Ok L /\
             Hist2d.size L = length (Hist2d.weights a) /\
             (1 <= Hist2d.bins0 L)%Z /\ (1 <= Hist2d.bins1 L)%Z).
Proof.
  split.
  - intros o Hrun.
    destruct (Hist2dSetup.histoBBox2d_inv calc_upper_bound pi a o Hrun)
      as (L & _ & _ & _ & HL & _).
    exact (Hist2dRun.setup2d_checks calc_upper_bound pi a L HL).
  - intros Hc Hsz.
    destruct (Hist2dRun.setup2d_total calc_upper_bound pi a Hc Hsz) as (L & HL).
    exists L. split; [exact HL|].
    pose proof (Hist2dSetup.setup2d_inv calc_upper_bound pi a L HL)
      as (Hb0 & Hb1 & Hs & _).
    split; [exact Hs|]. lia.
Qed.

Lemma histoBBox2d_checks_its_arguments_witness :
  checks2d ex_nobins /\
  exists L, Hist2d.setup calc_upper_bound_eps pi_approx ex_nobins = Ok L /\
            Hist2d.size L = 2%nat.
Proof.
  assert (Hc : checks2d ex_nobins).
  { unfold checks2d. simpl. repeat split; try reflexivity. discriminate. }
  split; [exact Hc|].
  destruct (proj2 (histoBBox2d_checks_its_arguments calc_upper_bound_eps pi_approx
                     ex_nobins) Hc ltac:(discriminate))
    as (L & HL & Hs & _).
  exists L. split; [exact HL | exact Hs].
Defined.

(** X10.  The azimuthal limits of [histoBBox2d]: when no [pos1Range] is
    given, the resolved range of axis 1 goes no lower than the smaller of
    the centre of pixel 0 and [-chiDiscAtPi * pi], and its user-visible
    maximum no higher than the larger of that centre and
    [(2 - chiDiscAtPi) * pi]: footprints are cut at the discontinuity
    before they extend the range, the centre of pixel 0 is not. *)
Theorem natural_azimuth_range_is_limited
    (calc_upper_bound : Q -> Q) (pi : Q) (a : Hist2d.args) (L : Hist2d.locals) :
  Hist2d.setup calc_upper_bound pi a = Ok L ->
  range_given (Hist2d.pos1Range a) = false ->
  Qmin (getq (Hist2d.pos1 a) 0) (chi_lower pi (Hist2d.chiDiscAtPi a))
    <= Hist2d.pos1_min L /\
  Hist2d.pos1_maxin L
    <= Qmax (getq (Hist2d.pos1 a) 0) (chi_upper pi (Hist2d.chiDiscAtPi a)).
Proof.
  intros Hsetup Hr.
  pose proof (Hist2dSetup.setup2d_inv calc_upper_bound pi a L Hsetup)
    as (_ & _ & _ & _ & _ & _ & _ & _ & _ & _ & _ & _ & Hr1 & _).
  unfold Hist2d.resolve_range1 in Hr1. rewrite Hr in Hr1.
  injection Hr1 as E1 E2. rewrite E1, E2. unfold Hist2d.scan.
  apply Hist2dRun.scan2d_fold_chi. simpl.
  split; [apply Q.le_min_l | apply Q.le_max_l].
Qed.

Lemma natural_azimuth_range_is_limited_witness :
  exists L,
    Hist2d.setup calc_upper_bound_eps pi_approx ex_masked_first2d = Ok L /\
    - pi_approx <= Hist2d.pos1_min L /\ Hist2d.pos1_maxin L <= pi_approx.
Proof.
  evaluate (Hist2d.setup calc_upper_bound_eps pi_approx ex_masked_first2d) L EL.
  exists L. split; [reflexivity|].
  pose proof (natural_azimuth_range_is_limited calc_upper_bound_eps pi_approx
                ex_masked_first2d L EL eq_refl) as [H1 H2].
  split.
  - apply Qle_trans with (2 := H1). closed.
  - apply Qle_trans with (1 := H2). closed.
Defined.

(** ** [histoBBox2d]: divisions by zero, masked weights, bin centres *)

Lemma qdiv_zero (x y : Q) : y == 0 -> qdiv x y = Raise ZeroDivisionError.
Proof.
  intro H. unfold qdiv. apply Qeq_bool_iff in H. rewrite H. reflexivity.
Qed.

Lemma correction_step_raises (b : bool) (d y : Q) (e : exn) :
  (if b then qdiv d y else Ok d) = Raise e -> e = ZeroDivisionError.
Proof.
  destruct b; [|discriminate]. unfold qdiv.
  destruct (Qeq_bool y 0); intro H; inversion H; reflexivity.
Qed.

(** Lines 452-459: a zero denominator in one of the corrections raises
    [ZeroDivisionError]. *)
Lemma corrected_raises (L : Hist2d.locals) (idx : nat) (data : Q) :
  zero_divisor2d L idx ->
  Hist2d.corrected L idx data = Raise ZeroDivisionError.
Proof.
  unfold zero_divisor2d, Hist2d.corrected. cbv zeta.
  intros [[F Z]|[[F Z]|[F Z]]].
  - rewrite F, (qdiv_zero _ _ Z). reflexivity.
  - match goal with
    | |- bind ?m _ = _ => destruct m as [d1|e] eqn:E1
    end; cbn [bind].
    + rewrite F, (qdiv_zero _ _ Z). reflexivity.
    + apply correction_step_raises in E1. subst e. reflexivity.
  - match goal with
    | |- bind ?m _ = _ => destruct m as [d1|e] eqn:E1
    end; cbn [bind];
      [|apply correction_step_raises in E1; subst e; reflexivity].
    match goal with
    | |- bind ?m _ = _ => destruct m as [d2|e] eqn:E2
    end; cbn [bind];
      [|apply correction_step_raises in E2; subst e; reflexivity].
    rewrite F, (qdiv_zero _ _ Z). reflexivity.
Qed.

Lemma foldM_raises {A B : Type} (f : A -> B -> result A) (x : B) (l : list B) :
  In x l -> (forall a, exists e, f a x = Raise e) ->
  forall a, exists e, foldM f l a = Raise e.
Proof.
  intros Hin Hf. induction l as [|y r IH]; [destruct Hin|].
  intro a. simpl. destruct Hin as [->|Hin].
  - destruct (Hf a) as (e & E). rewrite E. exists e. reflexivity.
  - destruct (f a y) as [a'|e]; cbn [bind]; [apply IH; exact Hin|].
    exists e. reflexivity.
Qed.

(** X11.  A zero in the flat-field, polarization or solid-angle array of
    [histoBBox2d] at an unmasked, non-dummy pixel makes the call raise
    instead of returning, also when the pixel lies outside the range: the
    corrections are applied before the range is tested. *)
Theorem zero_divisor_raises_in_2d
    (calc_upper_bound : Q -> Q) (pi : Q) (a : Hist2d.args) (L : Hist2d.locals)
    (idx : nat) :
  Hist2d.setup calc_upper_bound pi a = Ok L ->
  (idx < Hist2d.size L)%nat ->
  Hist2d.masked (Hist2d.check_mask L) (Hist2d.cmask L) idx = false ->
  Hist2d.is_dummy L (getq (Hist2d.cdata L) idx) = false ->
  zero_divisor2d L idx ->
  (forall out, Hist2d.pixel L out idx = Raise ZeroDivisionError) /\
  exists e, Hist2d.histoBBox2d calc_upper_bound pi a = Raise e.
Proof.
  intros Hsetup Hidx HM HD HZ.
  assert (Hpix : forall out, Hist2d.pixel L out idx = Raise ZeroDivisionError).
  { intro out. unfold Hist2d.pixel.
    rewrite HM, HD, (corrected_raises L idx _ HZ). reflexivity. }
  split; [exact Hpix|].
  destruct (foldM_raises (Hist2d.pixel L) idx (seq 0 (Hist2d.size L)))
    with (a := (mzeros (Z.to_nat (Hist2d.bins0 L)) (Z.to_nat (Hist2d.bins1 L)),
                mzeros (Z.to_nat (Hist2d.bins0 L)) (Z.to_nat (Hist2d.bins1 L))))
    as (e & E).
  - apply in_seq. lia.
  - intro out. exists ZeroDivisionError. apply Hpix.
  - exists e. unfold Hist2d.histoBBox2d. rewrite Hsetup. cbn [bind].
    unfold Hist2d.accumulate_all. rewrite E. reflexivity.
Qed.

Lemma zero_divisor_raises_in_2d_witness :
  exists e,
    Hist2d.histoBBox2d calc_upper_bound_eps pi_approx ex_zero_flat2d = Raise e.
Proof.
  evaluate (Hist2d.setup calc_upper_bound_eps pi_approx ex_zero_flat2d) L EL.
  pose proof (zero_divisor_raises_in_2d calc_upper_bound_eps pi_approx
                ex_zero_flat2d L 1%nat EL) as H.
  reveal L EL. discharge H.
  premise H ltac:(left; closed).
  exact (proj2 H).
Defined.





(** X13.  The bin centres that [histoBBox2d] returns are consistent with
    its binning on both axes: when each rounded maximum exceeds the
    user-visible maximum by at most half a bin width, the centre returned
    for bin [b] of an axis falls in bin [b] of that axis, also when the
    axis has a single bin. *)
Theorem bin_centres_lie_in_their_bins_in_2d
    (calc_upper_bound : Q -> Q) (pi : Q) (a : Hist2d.args) (L : Hist2d.locals)
    (o : Hist2d.output) :
  Hist2d.setup calc_upper_bound pi a = Ok L ->
  Hist2d.histoBBox2d calc_upper_bound pi a = Ok o ->
  0 < Hist2d.delta0 L ->
  Hist2d.pos0_maxin L <= Hist2d.pos0_max L ->
  Hist2d.pos0_max L - Hist2d.pos0_maxin L <= (1 # 2) * Hist2d.delta0 L ->
  0 < Hist2d.delta1 L ->
  Hist2d.pos1_maxin L <= Hist2d.pos1_max L ->
  Hist2d.pos1_max L - Hist2d.pos1_maxin L <= (1 # 2) * Hist2d.delta1 L ->
  (forall b, (b < Z.to_nat (Hist2d.bins0 L))%nat ->
     trunc (get_bin_number (getq (Hist2d.edges0 o) b) (Hist2d.pos0_min L)
              (Hist2d.delta0 L)) = Z.of_nat b) /\
  (forall b, (b < Z.to_nat (Hist2d.bins1 L))%nat ->
     trunc (get_bin_number (getq (Hist2d.edges1 o) b) (Hist2d.pos1_min L)
              (Hist2d.delta1 L)) = Z.of_nat b).
Proof.
  intros Hsetup Hrun Hd0 Hle0 Hh0 Hd1 Hle1 Hh1.
  pose proof (Hist2dSetup.setup2d_inv calc_upper_bound pi a L Hsetup)
    as (Hb0 & Hb1 & _ & _ & _ & _ & _ & _ & _ & _ & _ & _ & _ & _ & _
        & Hdl0 & Hdl1).
  unfold Hist2d.histoBBox2d in Hrun. rewrite Hsetup in Hrun. cbn [bind] in Hrun.
  destruct (Hist2d.accumulate_all L) as [[oD oC]|e]; [|discriminate].
  cbn [bind] in Hrun.
  destruct (Hist2d.merge _ _ _ _ _ _) as [m|e]; [|discriminate].
  inversion Hrun; subst o; clear Hrun. cbn [Hist2d.edges0 Hist2d.edges1].
  split; intros b Hb.
  - apply (centre_in_bin _ _ (Hist2d.pos0_max L)); try assumption.
    + lia.
    + rewrite Hdl0 at 1. reflexivity.
  - apply (centre_in_bin _ _ (Hist2d.pos1_max L)); try assumption.
    + lia.
    + rewrite Hdl1 at 1. reflexivity.
Qed.

Lemma bin_centres_lie_in_their_bins_in_2d_witness :
  exists L o,
    Hist2d.setup calc_upper_bound_eps pi_approx ex_corrected2d = Ok L /\
    Hist2d.histoBBox2d calc_upper_bound_eps pi_approx ex_corrected2d = Ok o /\
    trunc (get_bin_number (getq (Hist2d.edges1 o) 2) (Hist2d.pos1_min L)
             (Hist2d.delta1 L)) = 2%Z.
Proof.
  evaluate (Hist2d.setup calc_upper_bound_eps pi_approx ex_corrected2d) L EL.
  evaluate (Hist2d.histoBBox2d calc_upper_bound_eps pi_approx ex_corrected2d) o Eo.
  exists L, o. split; [reflexivity|]. split; [reflexivity|].
  pose proof (bin_centres_lie_in_their_bins_in_2d calc_upper_bound_eps pi_approx
                ex_corrected2d L o EL Eo) as H.
  clear Eo. reveal L EL. discharge H.
  exact (proj2 H 2%nat ltac:(vm_compute; lia)).
Defined.
